(** * Momentum race-outcome engine: a shallow embedding of
      [Momentum/Python/core/race_simulation.py]

    The engine estimates the outcome of a race by a Monte Carlo loop over a
    performance model, resolves the per-driver modal positions into one
    ranking and turns the ranking into scored result records.  The handler
    of [POST /simulate/race] in [Momentum/Python/simulation.py], which does
    not call the engine, is embedded in the module [Api].

    Conventions of the embedding.
    - Python [int] is [Z]; list lengths and loop counters are [nat].
    - Python [float] is modelled by exact rationals ([Q]): the literal [0.4]
      is the rational 4/10, [+], [*], [/] are exact and comparisons are the
      order of the rationals.  Rounding is not modelled: the double that the
      engine computes differs from the rational of the embedding by the
      rounding errors of its operations.
    - A Python [dict] that the code iterates over is an insertion-ordered
      association list ([pydict]); the caller-supplied [teams] mapping, which
      is only ever queried with [.get], is a [gmap].
    - The two random streams of the engine (the instance's
      [numpy.random.RandomState] and the module-level generator of [random])
      are threaded explicitly; what they draw is left abstract
      ([RandomSource]).
    - A Python exception is a [Raise] result. *)

From Stdlib Require Import ZArith QArith Lia Lqa Permutation.
From stdpp Require Import base gmap list strings sorting.

Close Scope Q_scope.
Open Scope Z_scope.

(** ** Numbers *)

(** [x < y] on floats, as a boolean. *)
Definition Qltb (x y : Q) : bool :=
  match (x ?= y)%Q with Lt => true | _ => false end.

(** Python's [min(a, b)] and [max(a, b)]: the first argument is kept unless
    the second one is strictly smaller (resp. larger). *)
Definition py_min (a b : Q) : Q := if Qltb b a then b else a.
Definition py_max (a b : Q) : Q := if Qltb a b then b else a.

(** ** Exceptions *)

Inductive exn : Type :=
| AttributeError
| KeyError
| IndexError
| ValueError.

Inductive result (A : Type) : Type :=
| Ok (a : A)
| Raise (e : exn).
Arguments Ok {A} a.
Arguments Raise {A} e.

#[global] Instance result_ret : MRet result := fun _ a => Ok a.
#[global] Instance result_bind : MBind result := fun _ _ k m =>
  match m with
  | Ok a => k a
  | Raise e => Raise e
  end.

(** ** Insertion-ordered dictionaries with integer keys *)

Definition pydict (V : Type) : Type := list (Z * V).

(** [d.get(k)] *)
Fixpoint dict_get {V : Type} (d : pydict V) (k : Z) : option V :=
  match d with
  | [] => None
  | (k', v) :: d' => if k' =? k then Some v else dict_get d' k
  end.

(** [d[k] = v]: an existing key keeps its place, a new key goes last. *)
Fixpoint dict_set {V : Type} (d : pydict V) (k : Z) (v : V) : pydict V :=
  match d with
  | [] => [(k, v)]
  | (k', v') :: d' =>
      if k' =? k then (k, v) :: d' else (k', v') :: dict_set d' k v
  end.

(** [k in d] *)
Definition dict_mem {V : Type} (d : pydict V) (k : Z) : bool :=
  match dict_get d k with Some _ => true | None => false end.

(** [d[k]], which raises [KeyError] on a missing key. *)
Definition dict_item {V : Type} (d : pydict V) (k : Z) : result V :=
  match dict_get d k with Some v => Ok v | None => Raise KeyError end.

Definition dict_keys {V : Type} (d : pydict V) : list Z := fst <$> d.

(** ** Sorting

    [sorted] is stable.  For a comparison that is a total preorder the stable
    sorted arrangement of a list is unique, so insertion from the right
    computes it.  [leb a b] says that [a] may stand before [b]. *)

Fixpoint insert_sorted {A : Type} (leb : A -> A -> bool) (x : A) (l : list A)
  : list A :=
  match l with
  | [] => [x]
  | y :: l' => if leb x y then x :: y :: l' else y :: insert_sorted leb x l'
  end.

Definition stable_sort {A : Type} (leb : A -> A -> bool) (l : list A) : list A :=
  foldr (insert_sorted leb) [] l.

(** [sorted(l, key=key)] and [sorted(l, key=key, reverse=True)] for a float
    key; [reverse=True] keeps equal keys in their original order as well. *)
Definition sorted_by {A : Type} (key : A -> Q) (l : list A) : list A :=
  stable_sort (fun a b => Qle_bool (key a) (key b)) l.
Definition sorted_by_reverse {A : Type} (key : A -> Q) (l : list A) : list A :=
  stable_sort (fun a b => Qle_bool (key b) (key a)) l.

(** [enumerate(l, 1)] *)
Fixpoint enumerate_from {A : Type} (start : Z) (l : list A) : list (Z * A) :=
  match l with
  | [] => []
  | x :: l' => (start, x) :: enumerate_from (start + 1) l'
  end.

(** ** Entities ([database/models.py])

    Only the fields the engine reads are kept. *)

Module Driver.
Record t : Type := mk {
  id : Z;
  skill : Q;
  consistency : Q;
  aggression : Q;
  racecraft : Q;
  adaptability : Q;
  current_team_id : option Z
}.
End Driver.

Module Team.
Record t : Type := mk {
  id : Z;
  tier : string;
  budget : Q
}.
End Team.

Module Track.
Record t : Type := mk {
  id : Z;
  surface_type : string;
  difficulty : Q
}.
End Track.

Module Race.
Record t : Type := mk {
  id : Z
}.
End Race.

Module RaceResult.
Record t : Type := mk {
  id : Z;
  race_id : Z;
  driver_id : Z;
  team_id : option Z;
  position : Z;
  points : Z;
  fastest_lap : bool;
  dnf_reason : option string;
  grid_position : Z
}.
End RaceResult.

(** [SimulationContext].  The dataclass declares six fields.  A Python
    instance is open: further attributes can be set on it after construction.
    [_generate_race_results] reads the attribute [race_state], which is not
    among the declared fields, so the embedding records whether the instance
    carries it: [None] when it does not (the state of every instance right
    after construction), [Some g] when it is a dictionary whose
    ['grid_positions'] entry, if any, is [g]. *)
Module SimulationContext.
Record t : Type := mk {
  race : Race.t;
  track : Track.t;
  drivers : list Driver.t;
  teams : gmap Z Team.t;
  weather_factor : Q;
  tire_degradation : Q;
  race_state : option (option (pydict Z))
}.
End SimulationContext.

(** The dataclass constructor. *)
Definition SimulationContext_init (race : Race.t) (track : Track.t)
    (drivers : list Driver.t) (teams : gmap Z Team.t)
    (weather_factor tire_degradation : Q) : SimulationContext.t :=
  SimulationContext.mk race track drivers teams weather_factor tire_degradation
    None.

(** The engine-internal race state built by [_initialize_race_state]. *)
Module RaceState.
Record t : Type := mk {
  grid_positions : pydict Z;
  car_performance : pydict Q;
  driver_form : pydict Q
}.
End RaceState.

(** [context.teams.get(driver.current_team_id)] *)
Definition get_team (context : SimulationContext.t) (driver : Driver.t)
  : option Team.t :=
  match Driver.current_team_id driver with
  | Some team_id => SimulationContext.teams context !! team_id
  | None => None
  end.

(** ** Configuration ([config.py]) *)

Definition MONTE_CARLO_ITERATIONS : nat := 1000.
Definition RANDOM_SEED : Z := 42.

(** ** Random streams

    [normal loc scale] is [self.rng.normal(loc, scale)] on the instance's
    [RandomState]; [randbelow n] is the index that [random.choice] draws for a
    sequence of length [n] from the module-level generator. *)
Class RandomSource : Type := {
  RandomState : Type;
  RandomState_seed : Z -> RandomState;
  normal : Q -> Q -> RandomState -> Q * RandomState;
  py_random : Type;
  random_seed : Z -> py_random;
  randbelow : nat -> py_random -> nat * py_random;
  randbelow_lt : forall n s, (0 < n)%nat -> (fst (randbelow n s) < n)%nat
}.

(** ** The performance model *)

Definition _calculate_team_performance (team : Team.t) : Q :=
  let base_performance :=
    if String.eqb (Team.tier team) "tier1" then
      (0.8 + (Team.budget team / 400.0) * 0.2)%Q
    else if String.eqb (Team.tier team) "tier2" then
      (0.6 + (Team.budget team / 150.0) * 0.2)%Q
    else
      (0.4 + (Team.budget team / 80.0) * 0.2)%Q in
  py_min base_performance 1.0%Q.

(** Python list indexing [l[i]]: a negative index counts from the end, an
    index outside [-len .. len-1] raises [IndexError]. *)
Definition list_index {A : Type} (l : list A) (i : Z) : result nat :=
  let n := Z.of_nat (length l) in
  if (0 <=? i) && (i <? n) then Ok (Z.to_nat i)
  else if (- n <=? i) && (i <? 0) then Ok (Z.to_nat (n + i))
  else Raise IndexError.

Definition list_item {A : Type} (l : list A) (i : Z) : result A :=
  k ← list_index l i;
  match l !! k with
  | Some x => Ok x
  | None => Raise IndexError
  end.

(** [qualifying_time] of the first loop of [_initialize_race_state]. *)
Definition qualifying_time (context : SimulationContext.t) (driver : Driver.t)
    (team : Team.t) : Q :=
  let base_time := 100.0%Q in
  let driver_factor :=
    (Driver.skill driver * 0.4 + Driver.consistency driver * 0.3
     + Driver.racecraft driver * 0.3)%Q in
  let team_factor := _calculate_team_performance team in
  let track_factor :=
    (1.0 - (Track.difficulty (SimulationContext.track context)
            * Driver.adaptability driver * 0.1))%Q in
  (base_time * (2.0 - driver_factor) * (2.0 - team_factor) * track_factor)%Q.

(** [for driver in context.drivers: ... qualifying_times[driver.id] = ...] *)
Fixpoint qualifying_times_loop (context : SimulationContext.t)
    (drivers : list Driver.t) (qualifying_times : pydict Q) : pydict Q :=
  match drivers with
  | [] => qualifying_times
  | driver :: rest =>
      match get_team context driver with
      | None => qualifying_times_loop context rest qualifying_times
      | Some team =>
          qualifying_times_loop context rest
            (dict_set qualifying_times (Driver.id driver)
               (qualifying_time context driver team))
      end
  end.

(** [for position, (driver_id, _) in enumerate(..., 1): d[driver_id] = position],
    also the dictionary comprehension of [_simulate_single_race_iteration]. *)
Fixpoint positions_loop (enumerated : list (Z * (Z * Q))) (d : pydict Z)
  : pydict Z :=
  match enumerated with
  | [] => d
  | (position, (driver_id, _)) :: rest =>
      positions_loop rest (dict_set d driver_id position)
  end.

(** The starting grid: the qualifying times sorted ascending, numbered from 1. *)
Definition grid_of (qualifying_times : pydict Q) : pydict Z :=
  let sorted_drivers := sorted_by snd qualifying_times in
  positions_loop (enumerate_from 1 sorted_drivers) [].

(** [_calculate_weather_impact] *)
Definition _calculate_weather_impact (driver : Driver.t)
    (context : SimulationContext.t) : Q :=
  if Qeq_bool (SimulationContext.weather_factor context) 1.0%Q then 1.0%Q
  else
    let wet_skill :=
      (Driver.adaptability driver * 0.6 + Driver.skill driver * 0.4)%Q in
    (0.8 + (wet_skill * 0.2))%Q.

(** [_calculate_track_suitability] *)
Definition _calculate_track_suitability (driver : Driver.t) (track : Track.t)
  : Q :=
  let suitability :=
    if String.eqb (Track.surface_type track) "tarmac" then
      (Driver.skill driver * 0.5 + Driver.racecraft driver * 0.3
       + Driver.consistency driver * 0.2)%Q
    else if String.eqb (Track.surface_type track) "gravel" then
      (Driver.adaptability driver * 0.5 + Driver.skill driver * 0.3
       + Driver.aggression driver * 0.2)%Q
    else
      (Driver.adaptability driver * 0.4 + Driver.skill driver * 0.3
       + Driver.racecraft driver * 0.3)%Q in
  let difficulty_factor :=
    (1.0 - (Track.difficulty track * (1.0 - Driver.adaptability driver) * 0.2))%Q in
  (suitability * difficulty_factor)%Q.

(** [_simulate_strategy_impact] *)
Definition _simulate_strategy_impact (driver : Driver.t)
    (context : SimulationContext.t) : Q :=
  match get_team context driver with
  | None => 0.5%Q
  | Some team =>
      let strategy_quality := (0.5 + (_calculate_team_performance team * 0.3))%Q in
      let execution_quality := Driver.racecraft driver in
      ((strategy_quality + execution_quality) / 2.0)%Q
  end.

(** [total_performance] of [_simulate_single_race_iteration]. *)
Definition total_performance (base_performance driver_performance
    weather_impact track_suitability strategy_impact luck_factor : Q) : Q :=
  ((base_performance * 0.4 + driver_performance * 0.3 + weather_impact * 0.1
    + track_suitability * 0.1 + strategy_impact * 0.1) * luck_factor)%Q.

(** ** The position resolver *)

(** [position_groups[position].append(driver_id)], the list being created
    first when the position is new. *)
Definition add_to_group (position_groups : pydict (list Z))
    (driver_id position : Z) : pydict (list Z) :=
  match dict_get position_groups position with
  | None => dict_set position_groups position [driver_id]
  | Some driver_ids => dict_set position_groups position (driver_ids ++ [driver_id])
  end.

Fixpoint group_by_position (items : list (Z * Z))
    (position_groups : pydict (list Z)) : pydict (list Z) :=
  match items with
  | [] => position_groups
  | (driver_id, position) :: rest =>
      group_by_position rest (add_to_group position_groups driver_id position)
  end.

(** [next((d for d in drivers if d.id == driver_id), None)] *)
Definition find_driver (drivers : list Driver.t) (driver_id : Z)
  : option Driver.t :=
  List.find (fun d => Driver.id d =? driver_id) drivers.

(** The [driver_skills] list of a contested position. *)
Fixpoint driver_skills_of (drivers : list Driver.t) (driver_ids : list Z)
  : list (Z * Q) :=
  match driver_ids with
  | [] => []
  | driver_id :: rest =>
      match find_driver drivers driver_id with
      | Some driver =>
          (driver_id, Driver.skill driver) :: driver_skills_of drivers rest
      | None => driver_skills_of drivers rest
      end
  end.

(** [for driver_id, _ in driver_skills: final_positions[driver_id] = current_position; current_position += 1] *)
Fixpoint assign_in_order (driver_skills : list (Z * Q))
    (final_positions : pydict Z) (current_position : Z) : pydict Z * Z :=
  match driver_skills with
  | [] => (final_positions, current_position)
  | (driver_id, _) :: rest =>
      assign_in_order rest (dict_set final_positions driver_id current_position)
        (current_position + 1)
  end.

(** [for position in sorted(position_groups.keys()): ...] *)
Fixpoint resolve_loop (drivers : list Driver.t)
    (position_groups : pydict (list Z)) (positions : list Z)
    (final_positions : pydict Z) (current_position : Z) : result (pydict Z) :=
  match positions with
  | [] => Ok final_positions
  | position :: rest =>
      driver_ids ← dict_item position_groups position;
      match driver_ids with
      | [driver_id] =>
          resolve_loop drivers position_groups rest
            (dict_set final_positions driver_id current_position)
            (current_position + 1)
      | _ =>
          let driver_skills :=
            sorted_by_reverse snd (driver_skills_of drivers driver_ids) in
          let '(final_positions, current_position) :=
            assign_in_order driver_skills final_positions current_position in
          resolve_loop drivers position_groups rest final_positions
            current_position
      end
  end.

Definition _resolve_position_conflicts (positions : pydict Z)
    (drivers : list Driver.t) : result (pydict Z) :=
  let position_groups := group_by_position positions [] in
  resolve_loop drivers position_groups
    (stable_sort Z.leb (dict_keys position_groups)) [] 1.

(** ** The Monte Carlo iterator: the parts that draw nothing *)

(** [{driver.id: [0] * len(context.drivers) for driver in context.drivers}] *)
Definition init_position_counts (drivers : list Driver.t) : pydict (list Z) :=
  fold_left
    (fun position_counts driver =>
       dict_set position_counts (Driver.id driver)
         (replicate (length drivers) 0))
    drivers [].

(** [position_counts[driver_id][position - 1] += 1] *)
Definition increment_count (position_counts : pydict (list Z))
    (driver_id position : Z) : result (pydict (list Z)) :=
  counts ← dict_item position_counts driver_id;
  k ← list_index counts (position - 1);
  match counts !! k with
  | Some c => Ok (dict_set position_counts driver_id (<[k := c + 1]> counts))
  | None => Raise IndexError
  end.

(** [for driver_id, position in race_outcome.items(): if 1 <= position <= len(context.drivers): ...] *)
Fixpoint count_positions (n : nat) (race_outcome : list (Z * Z))
    (position_counts : pydict (list Z)) : result (pydict (list Z)) :=
  match race_outcome with
  | [] => Ok position_counts
  | (driver_id, position) :: rest =>
      if (1 <=? position) && (position <=? Z.of_nat n) then
        position_counts ← increment_count position_counts driver_id position;
        count_positions n rest position_counts
      else count_positions n rest position_counts
  end.

(** [np.argmax] on a list of Python ints that fit numpy's 64-bit integers:
    the index of the first maximal entry; the empty sequence raises
    [ValueError].  The engine applies it to histograms only, whose counts
    lie between 0 and the number of trials.  A list with an entry beyond 64
    bits numpy converts to another element type before it compares; that
    conversion is not part of the embedding. *)
Fixpoint argmax_from (best_index : nat) (best : Z) (i : nat) (l : list Z)
  : nat :=
  match l with
  | [] => best_index
  | x :: l' =>
      if best <? x then argmax_from i x (S i) l'
      else argmax_from best_index best (S i) l'
  end.

Definition np_argmax (l : list Z) : result Z :=
  match l with
  | [] => Raise ValueError
  | x :: l' => Ok (Z.of_nat (argmax_from 0 x 1 l'))
  end.

(** [for driver_id in position_counts: final_positions[driver_id] = np.argmax(position_counts[driver_id]) + 1] *)
Fixpoint most_likely_positions (position_counts : list (Z * list Z))
    (final_positions : pydict Z) : result (pydict Z) :=
  match position_counts with
  | [] => Ok final_positions
  | (driver_id, counts) :: rest =>
      i ← np_argmax counts;
      let most_likely_position := i + 1 in
      most_likely_positions rest
        (dict_set final_positions driver_id most_likely_position)
  end.

(** ** The result generator: the part that draws nothing *)

Definition points_system : list Z := [25; 18; 15; 12; 10; 8; 6; 4; 2; 1].

(** [points_system[position - 1] if position <= len(points_system) else 0] *)
Definition points_for (position : Z) : result Z :=
  if position <=? Z.of_nat (length points_system) then
    list_item points_system (position - 1)
  else Ok 0.

(** [for driver in context.drivers: ... results.append(result)] *)
Fixpoint results_loop (context : SimulationContext.t)
    (final_positions : pydict Z) (drivers : list Driver.t)
    (results : list RaceResult.t) : result (list RaceResult.t) :=
  match drivers with
  | [] => Ok results
  | driver :: rest =>
      match dict_get final_positions (Driver.id driver) with
      | None => results_loop context final_positions rest results
      | Some position =>
          points ← points_for position;
          race_state ←
            match SimulationContext.race_state context with
            | Some race_state => Ok race_state
            | None => Raise AttributeError
            end;
          let grid_positions :=
            match race_state with Some g => g | None => [] end in
          let grid_position :=
            match dict_get grid_positions (Driver.id driver) with
            | Some g => g
            | None => position
            end in
          let result :=
            RaceResult.mk 0 (Race.id (SimulationContext.race context))
              (Driver.id driver) (Driver.current_team_id driver) position
              points false None grid_position in
          results_loop context final_positions rest (results ++ [result])
      end
  end.

Definition is_top_10 (r : RaceResult.t) : bool := RaceResult.position r <=? 10.

(** [fastest_lap_driver.fastest_lap = True; fastest_lap_driver.points += 1] *)
Definition with_fastest_lap (r : RaceResult.t) : RaceResult.t :=
  RaceResult.mk (RaceResult.id r) (RaceResult.race_id r)
    (RaceResult.driver_id r) (RaceResult.team_id r) (RaceResult.position r)
    (RaceResult.points r + 1) true (RaceResult.dnf_reason r)
    (RaceResult.grid_position r).

(** The record drawn by [random.choice(top_10)] is the very object held by
    [results]: updating entry [k] of [top_10] updates the [k]-th record of
    [results] whose position is at most 10. *)
Fixpoint award_fastest_lap (k : nat) (results : list RaceResult.t)
  : list RaceResult.t :=
  match results with
  | [] => []
  | r :: rest =>
      if is_top_10 r then
        match k with
        | O => with_fastest_lap r :: rest
        | S k' => r :: award_fastest_lap k' rest
        end
      else r :: award_fastest_lap k rest
  end.

Section Engine.
Context {RS : RandomSource}.

(** [_calculate_driver_form] *)
Definition _calculate_driver_form (driver : Driver.t) (rng : RandomState)
  : Q * RandomState :=
  let base_form :=
    ((Driver.skill driver + Driver.consistency driver
      + Driver.racecraft driver) / 3.0)%Q in
  let '(form_variation, rng) := normal 0%Q 0.05%Q rng in
  (py_max 0.1%Q (py_min 1.0%Q (base_form + form_variation)%Q), rng).

(** The last loop of [_initialize_race_state]. *)
Fixpoint performance_loop (context : SimulationContext.t)
    (drivers : list Driver.t) (car_performance driver_form : pydict Q)
    (rng : RandomState) : pydict Q * pydict Q * RandomState :=
  match drivers with
  | [] => (car_performance, driver_form, rng)
  | driver :: rest =>
      match get_team context driver with
      | Some team =>
          let car_performance :=
            dict_set car_performance (Driver.id driver)
              (_calculate_team_performance team) in
          let '(form, rng) := _calculate_driver_form driver rng in
          performance_loop context rest car_performance
            (dict_set driver_form (Driver.id driver) form) rng
      | None => performance_loop context rest car_performance driver_form rng
      end
  end.

Definition _initialize_race_state (context : SimulationContext.t)
    (rng : RandomState) : RaceState.t * RandomState :=
  let qualifying_times :=
    qualifying_times_loop context (SimulationContext.drivers context) [] in
  let grid_positions := grid_of qualifying_times in
  let '(car_performance, driver_form, rng) :=
    performance_loop context (SimulationContext.drivers context) [] [] rng in
  (RaceState.mk grid_positions car_performance driver_form, rng).

(** The loop of [_simulate_single_race_iteration] that fills
    [race_performance]. *)
Fixpoint race_performance_loop (context : SimulationContext.t)
    (race_state : RaceState.t) (drivers : list Driver.t)
    (race_performance : pydict Q) (rng : RandomState)
  : result (pydict Q * RandomState) :=
  match drivers with
  | [] => Ok (race_performance, rng)
  | driver :: rest =>
      match dict_get (RaceState.car_performance race_state) (Driver.id driver) with
      | None => race_performance_loop context race_state rest race_performance rng
      | Some base_performance =>
          driver_performance ←
            dict_item (RaceState.driver_form race_state) (Driver.id driver);
          let '(luck_factor, rng) := normal 1.0%Q 0.1%Q rng in
          let weather_impact := _calculate_weather_impact driver context in
          let track_suitability :=
            _calculate_track_suitability driver (SimulationContext.track context) in
          let strategy_impact := _simulate_strategy_impact driver context in
          race_performance_loop context race_state rest
            (dict_set race_performance (Driver.id driver)
               (total_performance base_performance driver_performance
                  weather_impact track_suitability strategy_impact luck_factor))
            rng
      end
  end.

Definition _simulate_single_race_iteration (context : SimulationContext.t)
    (race_state : RaceState.t) (rng : RandomState)
  : result (pydict Z * RandomState) :=
  '(race_performance, rng) ←
    race_performance_loop context race_state
      (SimulationContext.drivers context) [] rng;
  let sorted_performance := sorted_by_reverse snd race_performance in
  let positions := positions_loop (enumerate_from 1 sorted_performance) [] in
  Ok (positions, rng).

(** [for iteration in range(MONTE_CARLO_ITERATIONS): ...] *)
Fixpoint monte_carlo_loop (iterations : nat) (context : SimulationContext.t)
    (race_state : RaceState.t) (position_counts : pydict (list Z))
    (rng : RandomState) : result (pydict (list Z) * RandomState) :=
  match iterations with
  | O => Ok (position_counts, rng)
  | S iterations =>
      '(race_outcome, rng) ←
        _simulate_single_race_iteration context race_state rng;
      position_counts ←
        count_positions (length (SimulationContext.drivers context))
          race_outcome position_counts;
      monte_carlo_loop iterations context race_state position_counts rng
  end.

Definition _run_monte_carlo_simulation (context : SimulationContext.t)
    (race_state : RaceState.t) (rng : RandomState)
  : result (pydict Z * RandomState) :=
  let position_counts :=
    init_position_counts (SimulationContext.drivers context) in
  '(position_counts, rng) ←
    monte_carlo_loop MONTE_CARLO_ITERATIONS context race_state
      position_counts rng;
  final_positions ← most_likely_positions position_counts [];
  final_positions ←
    _resolve_position_conflicts final_positions
      (SimulationContext.drivers context);
  Ok (final_positions, rng).

(** [if results: top_10 = [...]; if top_10: fastest_lap_driver = random.choice(top_10); ...] *)
Definition assign_fastest_lap (results : list RaceResult.t) (py : py_random)
  : list RaceResult.t * py_random :=
  match results with
  | [] => (results, py)
  | _ :: _ =>
      let top_10 := filter is_top_10 results in
      match top_10 with
      | [] => (results, py)
      | _ :: _ =>
          let '(k, py) := randbelow (length top_10) py in
          (award_fastest_lap k results, py)
      end
  end.

Definition _generate_race_results (context : SimulationContext.t)
    (final_positions : pydict Z) (py : py_random)
  : result (list RaceResult.t * py_random) :=
  results ←
    results_loop context final_positions (SimulationContext.drivers context) [];
  let '(results, py) := assign_fastest_lap results py in
  Ok (stable_sort
        (fun a b => RaceResult.position a <=? RaceResult.position b) results,
      py).

(** [simulate_race] on an engine whose stream is in state [rng], the
    module-level generator being in state [py].  An exception discards the
    states. *)
Definition simulate_race (context : SimulationContext.t) (rng : RandomState)
    (py : py_random) : result (list RaceResult.t * RandomState * py_random) :=
  let '(race_state, rng) := _initialize_race_state context rng in
  '(final_positions, rng) ←
    _run_monte_carlo_simulation context race_state rng;
  '(results, py) ← _generate_race_results context final_positions py;
  Ok (results, rng, py).

(** [RaceSimulator.__init__]: the new instance's stream, and the module-level
    generator, which [random.seed(seed)] resets whatever its state [py] was. *)
Definition RaceSimulator_init (seed : Z) (py : py_random)
  : RandomState * py_random :=
  (RandomState_seed seed, random_seed seed).

(** One run: construct an engine with [seed], call [simulate_race] once, keep
    the returned list (or the exception). *)
Definition run (seed : Z) (context : SimulationContext.t) (py : py_random)
  : result (list RaceResult.t) :=
  let '(rng, py) := RaceSimulator_init seed py in
  '(results, _, _) ← simulate_race context rng py;
  Ok results.

End Engine.

(** * Vocabulary of the statements *)

(** The base offset of a tier, the first summand of [base_performance]. *)
Definition tier_base (tier : string) : Q :=
  if String.eqb tier "tier1" then 0.8%Q
  else if String.eqb tier "tier2" then 0.6%Q
  else 0.4%Q.

(** The reference ceiling of a tier, the divisor of the budget. *)
Definition tier_ceiling (tier : string) : Q :=
  if String.eqb tier "tier1" then 400.0%Q
  else if String.eqb tier "tier2" then 150.0%Q
  else 80.0%Q.

(** The points of a record net of the fastest-lap bonus. *)
Definition base_points (r : RaceResult.t) : Z :=
  RaceResult.points r - (if RaceResult.fastest_lap r then 1 else 0).

(** What the loop appends: an unflagged record whose points are those of its
    position. *)
Definition fresh_record (r : RaceResult.t) : Prop :=
  RaceResult.fastest_lap r = false
  /\ points_for (RaceResult.position r) = Ok (RaceResult.points r).

(** [before l a b]: some occurrence of [a] in [l] is followed, later on, by
    an occurrence of [b]. *)
Fixpoint before {A : Type} (l : list A) (a b : A) : Prop :=
  match l with
  | [] => False
  | x :: l' => (x = a /\ b ∈ l') \/ before l' a b
  end.

(** A driver is scoring-eligible when its team identifier resolves in the
    team mapping. *)
Definition eligible (context : SimulationContext.t) (driver : Driver.t) : bool :=
  match get_team context driver with Some _ => true | None => false end.

(** The members of [l] in the order of their first occurrence. *)
Definition first_occurrences (l : list Z) : list Z :=
  foldl (fun seen x => if bool_decide (x ∈ seen) then seen else seen ++ [x]) [] l.

(** The [qualifying_times] dictionary of [_initialize_race_state]. *)
Definition qualifying_times_of (context : SimulationContext.t) : pydict Q :=
  qualifying_times_loop context (SimulationContext.drivers context) [].

(** The entry a scoring-eligible driver contributes to [qualifying_times]. *)
Definition qualifying_entry (context : SimulationContext.t) (driver : Driver.t)
  : option (Z * Q) :=
  team ← get_team context driver;
  Some (Driver.id driver, qualifying_time context driver team).

(** The score that one pass of the loop writes for [driver]. *)
Definition score_of `{RS : RandomSource} (context : SimulationContext.t)
    (race_state : RaceState.t) (driver : Driver.t) (rng : RandomState) (score : Q) : Prop :=
  exists base form,
    dict_get (RaceState.car_performance race_state) (Driver.id driver) = Some base
    /\ dict_get (RaceState.driver_form race_state) (Driver.id driver) = Some form
    /\ (score
        == (0.4 * base + 0.3 * form
            + 0.1 * _calculate_weather_impact driver context
            + 0.1 * _calculate_track_suitability driver
                      (SimulationContext.track context)
            + 0.1 * _simulate_strategy_impact driver context)
           * (normal 1.0%Q 0.1%Q rng).1)%Q.

(** The order in which the resolver serves the members of one group, and the
    drivers of all groups, the groups taken in the order [positions]. *)
Definition group_order (drivers : list Driver.t) (driver_ids : list Z) : list Z :=
  match driver_ids with
  | [driver_id] => [driver_id]
  | _ => (sorted_by_reverse snd (driver_skills_of drivers driver_ids)).*1
  end.

Definition resolution_order (drivers : list Driver.t)
    (position_groups : pydict (list Z)) (positions : list Z) : list Z :=
  positions ≫= fun position =>
    group_order drivers (default [] (dict_get position_groups position)).

(** The record [_generate_race_results] builds for [driver] at [position]
    with [points], the grid dictionary read from the context being
    [grid_positions]. *)
Definition result_record (context : SimulationContext.t)
    (grid_positions : pydict Z) (driver : Driver.t) (position points : Z)
  : RaceResult.t :=
  RaceResult.mk 0 (Race.id (SimulationContext.race context)) (Driver.id driver)
    (Driver.current_team_id driver) position points false None
    (default position (dict_get grid_positions (Driver.id driver))).

(** ** A concrete random source, to run the engine on examples

    Both streams are counters.  The [n]-th normal draw is [loc + scale * z]
    with [z] taken in turn from a fixed cycle; [randbelow n] returns the
    counter modulo [n]. *)

Definition cycle_draw (n : nat) : Q :=
  match (n mod 5)%nat with
  | 0%nat => 0%Q
  | 1%nat => 1%Q
  | 2%nat => (-1)%Q
  | 3%nat => 0.5%Q
  | _ => (-0.5)%Q
  end.

Definition counter_source : RandomSource := {|
  RandomState := nat;
  RandomState_seed := fun seed => Z.to_nat seed;
  normal := fun loc scale n => ((loc + scale * cycle_draw n)%Q, S n);
  py_random := nat;
  random_seed := fun seed => Z.to_nat seed;
  randbelow := fun n s => ((s mod n)%nat, S s);
  randbelow_lt := fun n s Hn =>
    Nat.mod_upper_bound s n (proj2 (Nat.neq_0_lt_0 n) Hn)
|}.

(** ** Sample inputs *)

Definition team_top : Team.t := Team.mk 1 "tier1" 200%Q.
Definition team_in_debt : Team.t := Team.mk 2 "tier1" (-1000)%Q.

Definition driver_a : Driver.t :=
  Driver.mk 10 0.9%Q 0.8%Q 0.5%Q 0.7%Q 0.6%Q (Some 1).
Definition driver_b : Driver.t :=
  Driver.mk 11 0.5%Q 0.5%Q 0.5%Q 0.5%Q 0.5%Q (Some 1).
Definition driver_without_team : Driver.t :=
  Driver.mk 12 0.2%Q 0.5%Q 0.5%Q 0.5%Q 0.5%Q None.

(** A context that carries the extra attribute [race_state], here a
    dictionary without a ['grid_positions'] entry. *)
Definition context_with_race_state (drivers : list Driver.t)
  : SimulationContext.t :=
  SimulationContext.mk (Race.mk 7) (Track.mk 1 "tarmac" 0.5%Q) drivers
    {[ 1 := team_top ]} 1.0%Q 0.1%Q (Some None).

(** A context as the dataclass constructor builds it. *)
Definition context_plain (drivers : list Driver.t) : SimulationContext.t :=
  SimulationContext_init (Race.mk 7) (Track.mk 1 "tarmac" 0.5%Q) drivers
    {[ 1 := team_top ]} 1.0%Q 0.1%Q.

(** Sample final positions and the records the generator returns for them on
    [context_with_race_state [driver_a; driver_b; driver_without_team]] when
    the module-level generator picks index 1 of the two top-10 records. *)
Definition sample_final_positions : pydict Z := [(10, 2); (11, 12); (12, 1)].

Definition sample_results : list RaceResult.t :=
  [ RaceResult.mk 0 7 12 None 1 26 true None 1;
    RaceResult.mk 0 7 10 (Some 1) 2 18 false None 2;
    RaceResult.mk 0 7 11 (Some 1) 12 0 false None 12 ].

(** The record of a lone driver without team. *)
Definition lone_result : RaceResult.t :=
  RaceResult.mk 0 7 12 None 1 26 true None 1.

(** A driver with the attributes and the team of [driver_b]. *)
Definition driver_b_twin : Driver.t :=
  Driver.mk 13 0.5%Q 0.5%Q 0.5%Q 0.5%Q 0.5%Q (Some 1).

(** The driver ids that [positions] puts at position [p], in the order of the
    dictionary. *)
Definition ids_at (p : Z) (positions : list (Z * Z)) : list Z :=
  (filter (fun kv => kv.2 = p) positions).*1.

(** Three drivers contesting position 1, and two groups with an id (99)
    that is not among the drivers. *)
Definition sample_collision : pydict Z := [(12, 1); (11, 1); (10, 1)].
Definition sample_unknown : pydict Z := [(99, 1); (10, 1); (11, 2)].

(** ** Configuration tables ([config.py]) *)

(** [TEAM_BUDGETS[tier]]: the budget range [(min, max)] of a tier, in
    millions; the table has no other key. *)
Definition TEAM_BUDGETS (tier : string) : option (Q * Q) :=
  if String.eqb tier "tier1" then Some (100%Q, 400%Q)
  else if String.eqb tier "tier2" then Some (50%Q, 150%Q)
  else if String.eqb tier "tier3" then Some (20%Q, 80%Q)
  else None.

(** A team of tier [tier] whose budget lies in the configured range. *)
Definition configured_team (tier : string) (team : Team.t) : Prop :=
  Team.tier team = tier
  /\ exists lo hi,
       TEAM_BUDGETS tier = Some (lo, hi)
       /\ (lo <= Team.budget team <= hi)%Q.

Definition team_mid : Team.t := Team.mk 3 "tier2" 100%Q.
Definition team_low : Team.t := Team.mk 4 "tier3" 50%Q.
Definition driver_a_slower : Driver.t :=
  Driver.mk 14 0.6%Q 0.8%Q 0.5%Q 0.7%Q 0.6%Q (Some 1).

(** A driver whose five attributes lie in [0, 1]. *)
Definition valid_driver (driver : Driver.t) : Prop :=
  (0 <= Driver.skill driver <= 1)%Q
  /\ (0 <= Driver.consistency driver <= 1)%Q
  /\ (0 <= Driver.aggression driver <= 1)%Q
  /\ (0 <= Driver.racecraft driver <= 1)%Q
  /\ (0 <= Driver.adaptability driver <= 1)%Q.

(** The points of a result list, added up. *)
Definition sumZ (l : list Z) : Z := foldr Z.add 0 l.
Definition total_points (results : list RaceResult.t) : Z :=
  sumZ (RaceResult.points <$> results).

(** [describes context grid_positions driver r]: the fields of [r] that the
    generator copies are those of [driver] and of the context's race, and its
    grid position is the driver's entry in [grid_positions] or, without one,
    the final position. *)
Definition describes (context : SimulationContext.t)
    (grid_positions : pydict Z) (driver : Driver.t) (r : RaceResult.t) : Prop :=
  RaceResult.id r = 0
  /\ RaceResult.race_id r = Race.id (SimulationContext.race context)
  /\ RaceResult.driver_id r = Driver.id driver
  /\ RaceResult.team_id r = Driver.current_team_id driver
  /\ RaceResult.dnf_reason r = None
  /\ RaceResult.grid_position r
     = default (RaceResult.position r)
         (dict_get grid_positions (Driver.id driver)).

(** [histogram_inv n ks position_counts f]: every driver id of [ks] has a
    histogram of [n] non-negative counts that add up to [f] of the id. *)
Definition histogram_inv (n : nat) (ks : list Z)
    (position_counts : pydict (list Z)) (f : Z -> Z) : Prop :=
  forall k, k ∈ ks ->
    exists counts,
      dict_get position_counts k = Some counts
      /\ length counts = n
      /\ Forall (fun c => 0 <= c) counts
      /\ sumZ counts = f k.

(** 1 when the state holds a car-performance entry for the id, else 0. *)
Definition has_car (race_state : RaceState.t) (k : Z) : Z :=
  match dict_get (RaceState.car_performance race_state) k with
  | Some _ => 1
  | None => 0
  end.

(** ** The service endpoint ([simulation.py])

    [simulate_race(request)], the handler of [POST /simulate/race].  The
    request body is a JSON object, which FastAPI hands over as a dictionary;
    its values are JSON values.  Floats are rationals as everywhere in this
    development, so the non-finite numbers that Python's decoder accepts as
    an extension are outside the model.  The handler catches every exception
    and raises [HTTPException(status_code=500, ...)] instead: the model keeps
    the status code and leaves out the detail text.  It does not call the
    engine.

    [JSONResponse(content=...)] renders its content when it is constructed,
    inside the [try].  The rendering is Starlette's, not code of this
    repository; it raises on a content it cannot encode, such as a string
    with a lone surrogate, which the JSON decoder accepts in a request.
    Which contents render is left abstract ([Renderer]). *)

Module Api.

#[warnings="-register-all"] Inductive json : Type :=
| Null
| Bool (b : bool)
| Int (z : Z)
| Float (q : Q)
| Str (s : string)
| Array (l : list json)
| Object (d : gmap string json).

(** Python's truth value of a decoded JSON value. *)
Definition truthy (v : json) : bool :=
  match v with
  | Null => false
  | Bool b => b
  | Int z => negb (z =? 0)
  | Float q => negb (Qeq_bool q 0)
  | Str s => negb (String.eqb s "")
  | Array l => match l with [] => false | _ :: _ => true end
  | Object d => negb (Nat.eqb (size d) 0)
  end.

(** One dictionary of the list ["results"]. *)
Record entry : Type := mk_entry {
  driver_id : json;
  team_id : json;
  position : Z;
  points : Z;
  fastest_lap : bool
}.

(** The dictionary passed to [JSONResponse]. *)
Record content : Type := mk_content {
  race_id : json;
  weather : json;
  results : list entry;
  simulation_status : string
}.

Inductive outcome : Type :=
| JSONResponse (c : content)
| HTTPException (status_code : Z).

(** [renders c]: the construction [JSONResponse(content=c)] returns. *)
Class Renderer : Type := { renders : content -> bool }.

(** [participants[:10] if participants else range(5)]: the items the
    comprehension iterates over, or [None] when taking the slice raises (a
    number, a boolean or a dictionary cannot be sliced).  The slice of a
    string is a string, whose items are its characters. *)
Definition iterated (participants : json) : option (list json) :=
  if truthy participants then
    match participants with
    | Array l => Some (take 10 l)
    | Str s =>
        Some ((fun c => Str (String c EmptyString))
                <$> take 10 (String.list_ascii_of_string s))
    | _ => None
    end
  else Some (Int <$> seqZ 0 5).

(** One element of the comprehension.  [p.get] exists on a dictionary only;
    on any other value the attribute lookup raises. *)
Definition result_entry (i : Z) (p : json) : option entry :=
  match p with
  | Object d =>
      Some (mk_entry (default (Int i) (d !! "driver_id"))
              (default (Int i) (d !! "team_id"))
              (i + 1) (Z.max 0 (25 - i * 2)) (i =? 0))
  | _ => None
  end.

(** [results = [... for i, p in enumerate(...)]], [None] when it raises. *)
Definition results_of (participants : json) : option (list entry) :=
  items ← iterated participants;
  mapM (fun ip : Z * json => result_entry ip.1 ip.2) (enumerate_from 0 items).

Definition simulate_race {R : Renderer} (request : gmap string json)
  : outcome :=
  let race_id := default (Int 1) (request !! "race_id") in
  let weather := default (Str "dry") (request !! "weather_conditions") in
  let participants := default (Array []) (request !! "participants") in
  match results_of participants with
  | Some results =>
      let content := mk_content race_id weather results "completed" in
      if renders content then JSONResponse content else HTTPException 500
  | None => HTTPException 500
  end.

End Api.

(** A renderer that never fails, to run the handler on examples whose
    contents are integers and ASCII strings. *)
Definition renders_everything : Api.Renderer :=
  {| Api.renders := fun _ => true |}.

(** A request with twelve participants, the second one without ids. *)
Definition sample_participant (k : Z) : Api.json :=
  Api.Object {[ "driver_id" := Api.Int (100 + k); "team_id" := Api.Int k ]}.
Definition sample_request : gmap string Api.json :=
  {[ "race_id" := Api.Int 3;
     "participants" :=
       Api.Array (sample_participant 1 :: Api.Object ∅
                  :: (sample_participant <$> seqZ 3 10)) ]}.

(** ** Repeated invocations

    The ways in which a caller can run an engine more than once.  The stream
    of [numpy.random.RandomState] belongs to the instance; the generator of
    the module [random] is shared by all instances, and every constructor
    call re-seeds it. *)

Section Invocations.
Context {RS : RandomSource}.

(** [e.simulate_race(context); e.simulate_race(context)]: the second call
    finds both streams as the first call left them. *)
Definition simulate_race_twice (context : SimulationContext.t)
    (rng : RandomState) (py : py_random)
  : result (list RaceResult.t * list RaceResult.t) :=
  '(first, rng, py) ← simulate_race context rng py;
  '(second, _, _) ← simulate_race context rng py;
  Ok (first, second).

(** [e = RaceSimulator(seed)] followed by two calls on [e]. *)
Definition run_twice (seed : Z) (context : SimulationContext.t)
    (py : py_random) : result (list RaceResult.t * list RaceResult.t) :=
  let '(rng, py) := RaceSimulator_init seed py in
  simulate_race_twice context rng py.

(** [a = RaceSimulator(seed); b = RaceSimulator(seed)] followed by
    [a.simulate_race(context); b.simulate_race(context)]: each engine has its
    own fresh stream, the call on [b] finds the shared generator as the call
    on [a] left it. *)
Definition run_two_engines (seed : Z) (context : SimulationContext.t)
    (py : py_random) : result (list RaceResult.t * list RaceResult.t) :=
  let '(rng_a, py) := RaceSimulator_init seed py in
  let '(rng_b, py) := RaceSimulator_init seed py in
  '(first, _, py) ← simulate_race context rng_a py;
  '(second, _, _) ← simulate_race context rng_b py;
  Ok (first, second).

End Invocations.

(** A record without the fastest-lap award: the flag cleared, the points net
    of the bonus. *)
Definition unawarded (r : RaceResult.t) : RaceResult.t :=
  RaceResult.mk (RaceResult.id r) (RaceResult.race_id r)
    (RaceResult.driver_id r) (RaceResult.team_id r) (RaceResult.position r)
    (base_points r) false (RaceResult.dnf_reason r)
    (RaceResult.grid_position r).

(** The ranking of an outcome of [simulate_race]: the records without the
    award, and the state in which the call leaves the engine's stream; an
    exception is kept. *)
Definition ranking_of {S P : Type}
    (outcome : result (list RaceResult.t * S * P))
  : result (list RaceResult.t * S) :=
  match outcome with
  | Ok (results, rng, _) => Ok (unawarded <$> results, rng)
  | Raise e => Raise e
  end.

(** * Properties *)

(** ** Comparisons and clamps *)

Lemma Qltb_true (x y : Q) : Qltb x y = true <-> (x < y)%Q.
Proof.
  unfold Qltb. rewrite Qlt_alt.
  destruct (x ?= y)%Q; split; intros H; congruence.
Qed.

Lemma Qltb_false (x y : Q) : Qltb x y = false <-> (y <= x)%Q.
Proof.
  rewrite <- not_true_iff_false, Qltb_true. split.
  - apply Qnot_lt_le.
  - apply Qle_not_lt.
Qed.

Lemma py_min_spec (a b : Q) :
  (b < a /\ py_min a b = b)%Q \/ (a <= b /\ py_min a b = a)%Q.
Proof.
  unfold py_min. destruct (Qltb b a) eqn:E.
  - left. split; [by apply Qltb_true | done].
  - right. split; [by apply Qltb_false | done].
Qed.

Lemma py_max_spec (a b : Q) :
  (a < b /\ py_max a b = b)%Q \/ (b <= a /\ py_max a b = a)%Q.
Proof.
  unfold py_max. destruct (Qltb a b) eqn:E.
  - left. split; [by apply Qltb_true | done].
  - right. split; [by apply Qltb_false | done].
Qed.

(** [max(lo, min(hi, x))] lies between [lo] and [hi], whatever [x] is. *)
Lemma clamp_range (lo hi x : Q) :
  (lo <= hi)%Q -> (lo <= py_max lo (py_min hi x) <= hi)%Q.
Proof.
  intros Hlh.
  destruct (py_min_spec hi x) as [[H1 ->] | [H1 ->]];
    [destruct (py_max_spec lo x) as [[H2 ->] | [H2 ->]]
    | destruct (py_max_spec lo hi) as [[H2 ->] | [H2 ->]]];
    split; lra.
Qed.

(** ** The team performance factor *)

Lemma team_performance_unfold (team : Team.t) :
  _calculate_team_performance team
  = py_min (tier_base (Team.tier team)
            + (Team.budget team / tier_ceiling (Team.tier team)) * 0.2)%Q 1.0%Q.
Proof.
  unfold _calculate_team_performance, tier_base, tier_ceiling.
  destruct (String.eqb (Team.tier team) "tier1"); [done |].
  destruct (String.eqb (Team.tier team) "tier2"); done.
Qed.

Lemma tier_base_le_1 (tier : string) : (tier_base tier <= 0.8)%Q.
Proof.
  unfold tier_base.
  destruct (String.eqb tier "tier1"); [lra |].
  destruct (String.eqb tier "tier2"); lra.
Qed.

Lemma tier_ceiling_pos (tier : string) : (0 < tier_ceiling tier)%Q.
Proof.
  unfold tier_ceiling.
  destruct (String.eqb tier "tier1"); [lra |].
  destruct (String.eqb tier "tier2"); lra.
Qed.

(** The factor never exceeds the cap 1.0. *)
Lemma team_performance_le_1 (team : Team.t) :
  (_calculate_team_performance team <= 1)%Q.
Proof.
  rewrite team_performance_unfold.
  destruct (py_min_spec
              (tier_base (Team.tier team)
               + (Team.budget team / tier_ceiling (Team.tier team)) * 0.2)%Q
              1.0%Q) as [[H ->] | [H ->]]; lra.
Qed.

(** C9, as stated, fails: a tier-1 team with budget -1000 gets the factor
    0.8 + (-1000/400)*0.2 = 0.3, below the tier's base offset 0.8.  The
    function has a cap and no floor. *)
Lemma team_performance_no_floor :
  (Team.budget team_in_debt <= 0)%Q
  /\ ~ (tier_base (Team.tier team_in_debt)
        <= _calculate_team_performance team_in_debt)%Q
  /\ (_calculate_team_performance team_in_debt == 0.3)%Q.
Proof.
  split; [| split].
  - vm_compute. discriminate.
  - vm_compute. intros H. by apply H.
  - reflexivity.
Qed.

(** C9, amended: for a team with non-positive budget the factor is the
    unclamped value [base + (budget / ceiling) * 0.2] of its tier (the
    divisor is a non-zero constant, the cap 1.0 does not apply), so it is
    at most the tier's base offset (hence below the cap), and it is the
    base offset at budget 0.  Nothing bounds it from below. *)
Theorem team_performance_nonpositive_budget (team : Team.t) :
  (Team.budget team <= 0)%Q ->
  (_calculate_team_performance team
   == tier_base (Team.tier team)
      + (Team.budget team / tier_ceiling (Team.tier team)) * 0.2)%Q
  /\ (_calculate_team_performance team <= tier_base (Team.tier team))%Q
  /\ (_calculate_team_performance team <= 1)%Q
  /\ ((Team.budget team == 0)%Q ->
      (_calculate_team_performance team == tier_base (Team.tier team))%Q).
Proof.
  intros Hb.
  assert (Hq : (Team.budget team / tier_ceiling (Team.tier team) <= 0)%Q).
  { pose proof (tier_ceiling_pos (Team.tier team)) as Hc.
    unfold Qdiv. rewrite <- (Qmult_0_l (/ tier_ceiling (Team.tier team))).
    apply Qmult_le_compat_r; [done |].
    apply Qlt_le_weak, Qinv_lt_0_compat, Hc. }
  pose proof (tier_base_le_1 (Team.tier team)) as Hbase.
  assert (Heq : (_calculate_team_performance team
                 == tier_base (Team.tier team)
                    + (Team.budget team / tier_ceiling (Team.tier team)) * 0.2)%Q).
  { rewrite team_performance_unfold.
    destruct (py_min_spec
                (tier_base (Team.tier team)
                 + (Team.budget team / tier_ceiling (Team.tier team)) * 0.2)%Q
                1.0%Q) as [[H ->] | [H ->]]; lra. }
  split; [exact Heq |].
  split; [lra |].
  split; [apply team_performance_le_1 |].
  intros H0. rewrite Heq, H0. unfold Qdiv. rewrite Qmult_0_l. lra.
Qed.

Lemma team_performance_nonpositive_budget_witness :
  (Team.budget team_in_debt <= 0)%Q
  /\ (_calculate_team_performance team_in_debt
      <= tier_base (Team.tier team_in_debt))%Q.
Proof.
  assert (H : (Team.budget team_in_debt <= 0)%Q) by (vm_compute; discriminate).
  split; [exact H |].
  exact (proj1 (proj2 (team_performance_nonpositive_budget team_in_debt H))).
Defined.

(** ** Driver form *)

Section DriverForm.
Context {RS : RandomSource}.

(** C10: for skill, consistency and racecraft in [0,1] the computed form lies
    in [0.1, 1.0].  The random source is arbitrary, so [normal] may return
    any perturbation. *)
Theorem driver_form_in_range (driver : Driver.t) (rng : RandomState) :
  (0 <= Driver.skill driver <= 1)%Q ->
  (0 <= Driver.consistency driver <= 1)%Q ->
  (0 <= Driver.racecraft driver <= 1)%Q ->
  (0.1 <= fst (_calculate_driver_form driver rng) <= 1.0)%Q.
Proof.
  intros _ _ _. unfold _calculate_driver_form.
  destruct (normal 0%Q 0.05%Q rng) as [form_variation rng'].
  cbn [fst]. apply clamp_range. lra.
Qed.

End DriverForm.

Lemma driver_form_in_range_witness :
  (0.1 <= fst (_calculate_driver_form (RS := counter_source) driver_a 3%nat)
   <= 1.0)%Q.
Proof.
  apply (driver_form_in_range (RS := counter_source) driver_a 3%nat);
    vm_compute; split; discriminate.
Defined.

(** ** Exceptions and sorting *)

Lemma bind_Ok {A B : Type} (m : result A) (k : A -> result B) (b : B) :
  (m ≫= k) = Ok b <-> exists a, m = Ok a /\ k a = Ok b.
Proof.
  destruct m as [a | e]; cbn.
  - split; [intros H; by exists a | by intros (a' & [= <-] & H)].
  - split; [done | by intros (a' & [=] & _)].
Qed.

Lemma filter_bool_cons_true {A : Type} (f : A -> bool) (x : A) (l : list A) :
  f x = true -> filter f (x :: l) = x :: filter f l.
Proof. intros H. apply filter_cons_True. by rewrite H. Qed.

Lemma filter_bool_cons_false {A : Type} (f : A -> bool) (x : A) (l : list A) :
  f x = false -> filter f (x :: l) = filter f l.
Proof. intros H. apply filter_cons_False. rewrite H. exact id. Qed.

Lemma insert_sorted_Permutation {A : Type} (leb : A -> A -> bool) (x : A)
    (l : list A) : insert_sorted leb x l ≡ₚ x :: l.
Proof.
  induction l as [| y l IH]; cbn; [done |].
  destruct (leb x y); [done |].
  rewrite IH. apply perm_swap.
Qed.

Lemma stable_sort_Permutation {A : Type} (leb : A -> A -> bool) (l : list A) :
  stable_sort leb l ≡ₚ l.
Proof.
  induction l as [| x l IH]; cbn; [done |].
  unfold stable_sort in IH. by rewrite insert_sorted_Permutation, IH.
Qed.

(** ** The result generator *)

Lemma results_loop_fresh (context : SimulationContext.t)
    (final_positions : pydict Z) (drivers : list Driver.t)
    (acc results : list RaceResult.t) :
  results_loop context final_positions drivers acc = Ok results ->
  Forall fresh_record acc -> Forall fresh_record results.
Proof.
  revert acc. induction drivers as [| driver rest IH]; intros acc; cbn.
  - by intros [= <-].
  - destruct (dict_get final_positions (Driver.id driver)) as [position |];
      [| by apply IH].
    intros H Hacc. apply bind_Ok in H as (points & Hpoints & H).
    apply bind_Ok in H as (race_state & _ & H).
    apply IH in H; [done |].
    apply Forall_app. split; [done |].
    apply Forall_singleton. by split.
Qed.

Lemma award_fastest_lap_split (k : nat) (results : list RaceResult.t) :
  (k < length (filter is_top_10 results))%nat ->
  exists l1 r l2,
    results = l1 ++ r :: l2
    /\ is_top_10 r = true
    /\ award_fastest_lap k results = l1 ++ with_fastest_lap r :: l2.
Proof.
  revert k. induction results as [| r rest IH]; intros k.
  - cbn. lia.
  - cbn [award_fastest_lap]. destruct (is_top_10 r) eqn:Htop.
    + rewrite filter_bool_cons_true by done. destruct k as [| k'].
      * intros _. by exists [], r, rest.
      * cbn [length]. intros Hk.
        destruct (IH k') as (l1 & r' & l2 & -> & Hr' & ->); [lia |].
        by exists (r :: l1), r', l2.
    + rewrite filter_bool_cons_false by done. intros Hk.
      destruct (IH k) as (l1 & r' & l2 & -> & Hr' & ->); [done |].
      by exists (r :: l1), r', l2.
Qed.

Lemma filter_flag_fresh (l : list RaceResult.t) :
  Forall fresh_record l -> filter RaceResult.fastest_lap l = [].
Proof.
  induction 1 as [| r l [Hr _] _ IH]; [done |].
  by rewrite filter_bool_cons_false.
Qed.

(** The guard [if results:] changes nothing: an empty list has no record of
    position at most 10. *)
Lemma assign_fastest_lap_eq `{RS : RandomSource} (results : list RaceResult.t)
    (py : py_random) :
  assign_fastest_lap results py
  = match filter is_top_10 results with
    | [] => (results, py)
    | t :: top_10 =>
        let '(k, py) := randbelow (length (t :: top_10)) py in
        (award_fastest_lap k results, py)
    end.
Proof.
  destruct results as [| r rest]; [done |]. unfold assign_fastest_lap.
  by destruct (filter is_top_10 (r :: rest)).
Qed.

(** The outcome of [_generate_race_results], ahead of the final sort: either
    no record has position at most 10 and the records are those of the loop,
    or exactly one such record of the loop was given the flag and the point. *)
Lemma generate_race_results_cases `{RS : RandomSource}
    (context : SimulationContext.t) (final_positions : pydict Z)
    (py py' : py_random) (results : list RaceResult.t) :
  _generate_race_results context final_positions py = Ok (results, py') ->
  exists awarded,
    results ≡ₚ awarded
    /\ ((Forall fresh_record awarded /\ filter is_top_10 awarded = [])
        \/ (exists l1 r l2,
              awarded = l1 ++ with_fastest_lap r :: l2
              /\ Forall fresh_record (l1 ++ r :: l2)
              /\ is_top_10 r = true)).
Proof.
  unfold _generate_race_results. intros H.
  apply bind_Ok in H as (looped & Hloop & H).
  apply results_loop_fresh in Hloop; [| done].
  rewrite assign_fastest_lap_eq in H.
  destruct (filter is_top_10 looped) as [| t top_10] eqn:Htop.
  - injection H as <- <-. exists looped.
    split; [apply stable_sort_Permutation |]. by left.
  - pose proof (randbelow_lt (length (t :: top_10)) py) as Hlt.
    destruct (randbelow (length (t :: top_10)) py) as [k py''].
    injection H as <- <-.
    exists (award_fastest_lap k looped).
    split; [apply stable_sort_Permutation |]. right.
    destruct (award_fastest_lap_split k looped) as (l1 & r & l2 & -> & Hr & ->).
    { rewrite Htop. apply Hlt. cbn. lia. }
    by exists l1, r, l2.
Qed.

Lemma points_for_table (position points : Z) :
  points_for position = Ok points ->
  (1 <= position <= 10 ->
   points_system !! Z.to_nat (position - 1) = Some points)
  /\ (10 < position -> points = 0).
Proof.
  unfold points_for. change (Z.of_nat (length points_system)) with 10.
  destruct (position <=? 10) eqn:Hle.
  - intros H. split; [| lia]. intros Hpos.
    unfold list_item, list_index in H.
    change (Z.of_nat (length points_system)) with 10 in H.
    replace ((0 <=? position - 1) && (position - 1 <? 10)) with true in H by lia.
    apply bind_Ok in H as (k & [= <-] & H).
    destruct (points_system !! Z.to_nat (position - 1)); congruence.
  - intros [= <-]. split; [lia | done].
Qed.

Lemma fresh_record_base_points (r : RaceResult.t) :
  fresh_record r ->
  points_for (RaceResult.position r) = Ok (base_points r)
  /\ points_for (RaceResult.position (with_fastest_lap r))
     = Ok (base_points (with_fastest_lap r)).
Proof.
  intros [Hflag Hpoints]. unfold base_points. cbn. rewrite Hflag, Hpoints.
  split; f_equal; lia.
Qed.

Section Generator.
Context {RS : RandomSource}.

(** Every record of the returned list carries, net of the bonus, the points
    of its position. *)
Lemma generate_race_results_points (context : SimulationContext.t)
    (final_positions : pydict Z) (py py' : py_random)
    (results : list RaceResult.t) (r : RaceResult.t) :
  _generate_race_results context final_positions py = Ok (results, py') ->
  r ∈ results ->
  points_for (RaceResult.position r) = Ok (base_points r).
Proof.
  intros H Hr.
  apply generate_race_results_cases in H as (awarded & Hperm & Hcases).
  rewrite Hperm in Hr.
  destruct Hcases as [[Hfresh _] | (l1 & r0 & l2 & -> & Hfresh & _)].
  - rewrite Forall_forall in Hfresh.
    by apply fresh_record_base_points, Hfresh.
  - rewrite Forall_forall in Hfresh.
    apply elem_of_app in Hr as [Hr | Hr].
    + apply fresh_record_base_points, Hfresh, elem_of_app. by left.
    + apply elem_of_cons in Hr as [-> | Hr].
      * apply fresh_record_base_points, Hfresh, elem_of_app. right. by left.
      * apply fresh_record_base_points, Hfresh, elem_of_app. right. by right.
Qed.

(** C5: the points of every returned record, before the fastest-lap bonus,
    are the entry of the table [25,18,15,12,10,8,6,4,2,1] at its position
    for positions 1..10, and zero beyond position 10. *)
Theorem points_from_table (context : SimulationContext.t)
    (final_positions : pydict Z) (py py' : py_random)
    (results : list RaceResult.t) (r : RaceResult.t) :
  _generate_race_results context final_positions py = Ok (results, py') ->
  r ∈ results ->
  (1 <= RaceResult.position r <= 10 ->
   [25; 18; 15; 12; 10; 8; 6; 4; 2; 1] !! Z.to_nat (RaceResult.position r - 1)
   = Some (base_points r))
  /\ (10 < RaceResult.position r -> base_points r = 0).
Proof.
  intros H Hr. apply points_for_table.
  by eapply generate_race_results_points.
Qed.

(** C6: in the returned list at most one record has the fastest-lap flag;
    when some record has position at most 10 exactly one record has it, that
    record has position at most 10 and carries one point more than the table
    gives; when no record has position at most 10 no record has the flag. *)
Theorem fastest_lap_at_most_once (context : SimulationContext.t)
    (final_positions : pydict Z) (py py' : py_random)
    (results : list RaceResult.t) :
  _generate_race_results context final_positions py = Ok (results, py') ->
  (length (filter RaceResult.fastest_lap results) <= 1)%nat
  /\ (filter is_top_10 results <> [] ->
      exists r,
        filter RaceResult.fastest_lap results = [r]
        /\ r ∈ results
        /\ RaceResult.position r <= 10
        /\ points_for (RaceResult.position r) = Ok (RaceResult.points r - 1))
  /\ (filter is_top_10 results = [] ->
      filter RaceResult.fastest_lap results = []).
Proof.
  intros H.
  apply generate_race_results_cases in H as (awarded & Hperm & Hcases).
  destruct Hcases as [[Hfresh Hnone] | (l1 & r & l2 & -> & Hfresh & Htop)].
  - assert (Hflag : filter RaceResult.fastest_lap results = []).
    { apply Permutation_nil_r. rewrite Hperm.
      by rewrite filter_flag_fresh. }
    assert (Htop : filter is_top_10 results = []).
    { apply Permutation_nil_r. by rewrite Hperm, Hnone. }
    rewrite Hflag. split; [cbn; lia |]. split; [by rewrite Htop | done].
  - apply Forall_app in Hfresh as [Hl1 Hrl2].
    apply Forall_cons in Hrl2 as [Hr Hl2].
    assert (Hflag : filter RaceResult.fastest_lap results = [with_fastest_lap r]).
    { apply Permutation_singleton_r. rewrite Hperm, filter_app.
      rewrite (filter_flag_fresh l1 Hl1), filter_bool_cons_true by done.
      by rewrite (filter_flag_fresh l2 Hl2). }
    assert (Hin : with_fastest_lap r ∈ results).
    { rewrite Hperm. apply elem_of_app. right. by left. }
    rewrite Hflag. split; [cbn; lia |]. split.
    + intros _. exists (with_fastest_lap r).
      split; [done |]. split; [done |]. split.
      * unfold is_top_10 in Htop. cbn. lia.
      * destruct Hr as [_ Hpoints]. cbn. rewrite Hpoints. f_equal. lia.
    + intros Hnone. exfalso.
      eapply (filter_nil_not_elem_of _ _ _ Hnone); [| exact Hin].
      unfold is_top_10 in *. cbn. by rewrite Htop.
Qed.

End Generator.

(** ** Dictionaries *)

Section Dict.
Context {V : Type}.
Implicit Types (d : pydict V) (k : Z) (v : V).

Lemma dict_get_set_eq d k v : dict_get (dict_set d k v) k = Some v.
Proof.
  induction d as [| [k' v'] d IH]; cbn.
  - by rewrite Z.eqb_refl.
  - destruct (k' =? k) eqn:E; cbn.
    + by rewrite Z.eqb_refl.
    + by rewrite E.
Qed.

Lemma dict_get_set_ne d k k' v :
  k <> k' -> dict_get (dict_set d k v) k' = dict_get d k'.
Proof.
  intros Hne. induction d as [| [k0 v0] d IH]; cbn.
  - by replace (k =? k') with false by lia.
  - destruct (k0 =? k) eqn:E; cbn.
    + apply Z.eqb_eq in E as ->. by replace (k =? k') with false by lia.
    + by rewrite IH.
Qed.

Lemma dict_get_Some_elem d k v : dict_get d k = Some v -> (k, v) ∈ d.
Proof.
  induction d as [| [k' v'] d IH]; cbn; [done |].
  destruct (k' =? k) eqn:E.
  - apply Z.eqb_eq in E as ->. intros [= ->]. by left.
  - intros H. right. by apply IH.
Qed.

Lemma dict_get_None d k : dict_get d k = None <-> k ∉ dict_keys d.
Proof.
  induction d as [| [k' v'] d IH]; cbn.
  - split; [intros _; apply not_elem_of_nil | done].
  - rewrite not_elem_of_cons. destruct (k' =? k) eqn:E.
    + apply Z.eqb_eq in E as ->. split; [done | by intros [? _]].
    + rewrite IH. split; [| by intros [_ ?]]. intros H. split; [lia | done].
Qed.

Lemma dict_get_is_Some d k : is_Some (dict_get d k) <-> k ∈ dict_keys d.
Proof.
  rewrite <- not_eq_None_Some, dict_get_None.
  split; [apply dec_stable | by intros ? ?].
Qed.

Lemma dict_mem_true d k : dict_mem d k = true <-> k ∈ dict_keys d.
Proof.
  rewrite <- dict_get_is_Some. unfold dict_mem.
  destruct (dict_get d k); split; intros H; try done; by destruct H.
Qed.

Lemma dict_get_elem d k v :
  NoDup (dict_keys d) -> (k, v) ∈ d -> dict_get d k = Some v.
Proof.
  induction d as [| [k' v'] d IH]; cbn; [by intros _ ?%elem_of_nil |].
  intros [Hk' Hd]%NoDup_cons [[= -> ->] | Hin]%elem_of_cons.
  - by rewrite Z.eqb_refl.
  - destruct (k' =? k) eqn:E; [| by apply IH].
    apply Z.eqb_eq in E as ->. exfalso. apply Hk'.
    apply list_elem_of_fmap. by exists (k, v).
Qed.

(** Setting a key that is present keeps the order of the keys; a new key
    goes to the end. *)
Lemma dict_keys_set_present d k v :
  k ∈ dict_keys d -> dict_keys (dict_set d k v) = dict_keys d.
Proof.
  induction d as [| [k' v'] d IH]; cbn; [by intros ?%elem_of_nil |].
  destruct (k' =? k) eqn:E; cbn.
  - apply Z.eqb_eq in E as ->. done.
  - intros [-> | Hin]%elem_of_cons; [lia |]. f_equal. by apply IH.
Qed.

Lemma dict_set_absent d k v : k ∉ dict_keys d -> dict_set d k v = d ++ [(k, v)].
Proof.
  induction d as [| [k' v'] d IH]; cbn; [done |].
  intros [Hne Hin]%not_elem_of_cons.
  replace (k' =? k) with false by lia. f_equal. by apply IH.
Qed.

Lemma dict_keys_set d k v :
  dict_keys (dict_set d k v)
  = if dict_mem d k then dict_keys d else dict_keys d ++ [k].
Proof.
  destruct (dict_mem d k) eqn:E.
  - by apply dict_keys_set_present, dict_mem_true.
  - rewrite dict_set_absent.
    + unfold dict_keys. by rewrite fmap_app.
    + intros H%dict_mem_true. congruence.
Qed.

Lemma dict_keys_set_elem d k k' v :
  k' ∈ dict_keys (dict_set d k v) <-> k' = k \/ k' ∈ dict_keys d.
Proof.
  rewrite dict_keys_set. destruct (dict_mem d k) eqn:E.
  - apply dict_mem_true in E. split; [by right | by intros [-> | ?]].
  - rewrite elem_of_app, list_elem_of_singleton. tauto.
Qed.

Lemma dict_keys_set_NoDup d k v :
  NoDup (dict_keys d) -> NoDup (dict_keys (dict_set d k v)).
Proof.
  intros Hd. rewrite dict_keys_set. destruct (dict_mem d k) eqn:E; [done |].
  apply NoDup_app. split; [done |]. split; [| apply NoDup_singleton].
  intros x Hx ->%list_elem_of_singleton.
  apply dict_mem_true in Hx. congruence.
Qed.

End Dict.

(** ** Stable sorting *)

Section Before.
Context {A : Type}.
Implicit Types (l : list A) (a b x : A).

Lemma before_app l1 l2 a b :
  before (l1 ++ l2) a b
  <-> before l1 a b \/ before l2 a b \/ (a ∈ l1 /\ b ∈ l2).
Proof.
  induction l1 as [| x l1 IH]; cbn.
  - split; [by intros; right; left |].
    intros [[] | [H | [H%elem_of_nil _]]]; done.
  - rewrite IH, elem_of_app, !elem_of_cons. split.
    + intros [[-> [H | H]] | [H | [H | [H1 H2]]]]; eauto 6.
    + intros [[[-> H] | H] | [H | [[-> | H1] H2]]]; eauto 6.
Qed.

Lemma before_elem l a b : before l a b -> a ∈ l /\ b ∈ l.
Proof.
  induction l as [| x l IH]; cbn; [done |].
  intros [[-> H] | H].
  - split; [by left | by right].
  - destruct (IH H). split; by right.
Qed.

(** Two distinct members of a list stand in one order or the other. *)
Lemma before_total l a b : a ∈ l -> b ∈ l -> a <> b -> before l a b \/ before l b a.
Proof.
  induction l as [| x l IH]; [by intros ?%elem_of_nil |].
  intros [-> | Ha]%elem_of_cons [-> | Hb]%elem_of_cons Hne; cbn; try done.
  - left. by left.
  - right. by left.
  - destruct (IH Ha Hb Hne); [left | right]; by right.
Qed.

Lemma before_lookup l a b :
  before l a b <->
  exists i j : nat, (i < j)%nat /\ l !! i = Some a /\ l !! j = Some b.
Proof.
  induction l as [| x l IH]; cbn.
  - split; [done | by intros (i & j & _ & ? & _)].
  - rewrite IH. split.
    + intros [[-> (j & Hj)%list_elem_of_lookup] | (i & j & Hij & Hi & Hj)].
      * exists 0%nat, (S j). split; [lia | done].
      * exists (S i), (S j). split; [lia | done].
    + intros (i & j & Hij & Hi & Hj). destruct j as [| j]; [lia |].
      cbn in Hj. destruct i as [| i]; cbn in Hi.
      * left. injection Hi as ->. split; [done |].
        apply list_elem_of_lookup. by exists j.
      * right. exists i, j. split; [lia | done].
Qed.

Lemma before_NoDup l a b : NoDup l -> before l a b -> ~ before l b a.
Proof.
  induction 1 as [| x l Hx Hl IH]; cbn; [done |].
  intros [[-> Hb] | Hab] [[-> Ha] | Hba]; try done.
  - by apply before_elem in Hba as [_ ?].
  - by apply before_elem in Hab as [_ ?].
  - by apply IH.
Qed.

Lemma before_fmap {B : Type} (f : A -> B) l a b :
  before l a b -> before (f <$> l) (f a) (f b).
Proof.
  induction l as [| x l IH]; cbn; [done |].
  intros [[-> H] | H]; [left | right; by apply IH].
  split; [done |]. apply list_elem_of_fmap. by exists b.
Qed.

End Before.

Section StableSort.
Context {A : Type} (leb : A -> A -> bool).
Implicit Types (l : list A) (a b x : A).

Lemma insert_sorted_split x l :
  exists l1 l2,
    l = l1 ++ l2
    /\ insert_sorted leb x l = l1 ++ x :: l2
    /\ Forall (fun z => leb x z = false) l1.
Proof.
  induction l as [| y l (l1 & l2 & -> & Heq & Hl1)]; cbn.
  - by exists [], [].
  - destruct (leb x y) eqn:E.
    + by exists [], (y :: l1 ++ l2).
    + exists (y :: l1), l2. rewrite Heq. split; [done |]. split; [done |].
      by constructor.
Qed.

Lemma stable_sort_cons x l :
  stable_sort leb (x :: l) = insert_sorted leb x (stable_sort leb l).
Proof. reflexivity. Qed.

(** Stability: an element that may stand before a later one does so in the
    sorted list. *)
Lemma stable_sort_stable l a b :
  before l a b -> leb a b = true -> before (stable_sort leb l) a b.
Proof.
  induction l as [| x l IH]; [done |].
  intros Hbefore Hab. rewrite stable_sort_cons.
  destruct (insert_sorted_split x (stable_sort leb l))
    as (l1 & l2 & Hsorted & -> & Hl1).
  apply before_app. cbn.
  destruct Hbefore as [[-> Hb] | Hbefore].
  - right. left. left. split; [done |].
    rewrite <- (stable_sort_Permutation leb l), Hsorted in Hb.
    apply elem_of_app in Hb as [Hb | Hb]; [| done].
    rewrite Forall_forall in Hl1. apply Hl1 in Hb. congruence.
  - specialize (IH Hbefore Hab). rewrite Hsorted in IH.
    apply before_app in IH as [H | [H | [H1 H2]]]; eauto.
    right. right. split; [done |]. by right.
Qed.

Hypothesis leb_total : forall a b, leb a b = true \/ leb b a = true.
Hypothesis leb_trans :
  forall a b c, leb a b = true -> leb b c = true -> leb a c = true.

Lemma insert_sorted_StronglySorted x l :
  StronglySorted (fun a b => leb a b = true) l ->
  StronglySorted (fun a b => leb a b = true) (insert_sorted leb x l).
Proof.
  induction 1 as [| y l Hl IH Hy]; cbn.
  - repeat constructor.
  - destruct (leb x y) eqn:E.
    + constructor; [by constructor |]. constructor; [done |].
      eapply Forall_impl; [exact Hy |]. intros z Hz. by eapply leb_trans.
    + constructor; [done |].
      rewrite insert_sorted_Permutation. constructor; [| done].
      destruct (leb_total x y); [congruence | done].
Qed.

Lemma stable_sort_StronglySorted l :
  StronglySorted (fun a b => leb a b = true) (stable_sort leb l).
Proof.
  induction l as [| x l IH]; [constructor |].
  rewrite stable_sort_cons. by apply insert_sorted_StronglySorted.
Qed.

Lemma stable_sort_before l a b :
  before (stable_sort leb l) a b -> leb a b = true.
Proof.
  pose proof (stable_sort_StronglySorted l) as Hsorted.
  induction Hsorted as [| x s Hs IH Hx]; cbn; [done |].
  intros [[-> Hb] | H]; [| by apply IH].
  rewrite Forall_forall in Hx. by apply Hx.
Qed.

End StableSort.

(** ** Numbering a sorted list *)

Lemma Qle_bool_total (x y : Q) : Qle_bool x y = true \/ Qle_bool y x = true.
Proof.
  rewrite !Qle_bool_iff. destruct (Qlt_le_dec x y) as [H | H]; [left | by right].
  by apply Qlt_le_weak.
Qed.

Lemma Qle_bool_trans (x y z : Q) :
  Qle_bool x y = true -> Qle_bool y z = true -> Qle_bool x z = true.
Proof. rewrite !Qle_bool_iff. apply Qle_trans. Qed.

Lemma Qle_bool_false (x y : Q) : Qle_bool x y = false <-> (y < x)%Q.
Proof.
  rewrite <- not_true_iff_false, Qle_bool_iff. split.
  - apply Qnot_le_lt.
  - apply Qlt_not_le.
Qed.

Lemma positions_loop_zip (s : list (Z * Q)) (d : pydict Z) (c : Z) :
  NoDup (dict_keys d ++ s.*1) ->
  positions_loop (enumerate_from c s) d
  = d ++ zip s.*1 (seqZ c (Z.of_nat (length s))).
Proof.
  revert d c. induction s as [| [k v] s IH]; intros d c Hnd.
  - cbn. by rewrite app_nil_r.
  - cbn [enumerate_from positions_loop]. rewrite dict_set_absent.
    2:{ apply NoDup_app in Hnd as (_ & Hdisj & _). intros Hk.
        apply (Hdisj _ Hk). by left. }
    rewrite IH.
    2:{ unfold dict_keys. rewrite fmap_app. cbn.
        rewrite <- app_assoc. exact Hnd. }
    rewrite <- app_assoc. f_equal. cbn [length fmap list_fmap].
    rewrite (seqZ_cons c) by lia. cbn. do 3 f_equal; lia.
Qed.

Lemma dict_get_zip_seqZ (ks : list Z) (c : Z) (i : nat) (a : Z) :
  NoDup ks -> ks !! i = Some a ->
  dict_get (zip ks (seqZ c (Z.of_nat (length ks)))) a = Some (c + Z.of_nat i).
Proof.
  revert c i. induction ks as [| k ks IH]; intros c i Hnd Hi; [done |].
  apply NoDup_cons in Hnd as [Hk Hnd].
  cbn [length]. rewrite (seqZ_cons c) by lia. cbn [zip zip_with dict_get].
  destruct i as [| i]; cbn in Hi.
  - injection Hi as ->. rewrite Z.eqb_refl. f_equal. lia.
  - replace (k =? a) with false.
    2:{ symmetry. apply Z.eqb_neq. intros ->. apply Hk.
        apply list_elem_of_lookup. by exists i. }
    replace (Z.pred (Z.of_nat (S (length ks)))) with (Z.of_nat (length ks)) by lia.
    rewrite (IH (Z.succ c) i Hnd Hi). f_equal. lia.
Qed.

(** Numbering from 1 the entries of a dictionary sorted by value: of two
    entries, the one that stands first in the dictionary gets the smaller
    number exactly when its value is not the larger one. *)
Lemma grid_of_order (qualifying_times : pydict Q) (a b : Z) (ta tb : Q) :
  NoDup (dict_keys qualifying_times) ->
  before qualifying_times (a, ta) (b, tb) ->
  exists pa pb,
    dict_get (grid_of qualifying_times) a = Some pa
    /\ dict_get (grid_of qualifying_times) b = Some pb
    /\ 1 <= pa <= Z.of_nat (length qualifying_times)
    /\ 1 <= pb <= Z.of_nat (length qualifying_times)
    /\ (pa < pb <-> (ta <= tb)%Q)
    /\ (pb < pa <-> (tb < ta)%Q).
Proof.
  intros Hnd Hbefore. unfold grid_of, sorted_by.
  set (leb := fun x y : Z * Q => Qle_bool x.2 y.2).
  set (s := stable_sort leb qualifying_times).
  assert (Hperm : s ≡ₚ qualifying_times) by apply stable_sort_Permutation.
  assert (Hnds : NoDup s.*1) by (by rewrite Hperm).
  assert (Hlen : length s = length qualifying_times) by (by rewrite Hperm).
  rewrite positions_loop_zip by done. cbn [app].
  assert (Hpos : forall x y : Z * Q, before s x y ->
            exists px py,
              dict_get (zip s.*1 (seqZ 1 (Z.of_nat (length s)))) x.1 = Some px
              /\ dict_get (zip s.*1 (seqZ 1 (Z.of_nat (length s)))) y.1 = Some py
              /\ 1 <= px < py /\ py <= Z.of_nat (length s)).
  { intros x y (i & j & Hij & Hi & Hj)%before_lookup.
    assert (Hi' : s.*1 !! i = Some x.1) by (by rewrite list_lookup_fmap, Hi).
    assert (Hj' : s.*1 !! j = Some y.1) by (by rewrite list_lookup_fmap, Hj).
    apply lookup_lt_Some in Hj as Hjlt.
    exists (1 + Z.of_nat i), (1 + Z.of_nat j).
    rewrite <- (length_fmap fst s).
    rewrite (dict_get_zip_seqZ _ _ i) by done.
    rewrite (dict_get_zip_seqZ _ _ j) by done.
    rewrite length_fmap. repeat split; lia. }
  assert (Hne : (a, ta) <> (b, tb)).
  { intros [= -> ->]. apply (before_fmap fst) in Hbefore.
    by apply (before_NoDup _ _ _ Hnd) in Hbefore as Hbefore'. }
  destruct (Qle_bool ta tb) eqn:Hle.
  - apply (stable_sort_stable leb) in Hbefore; [| done].
    destruct (Hpos _ _ Hbefore) as (pa & pb & Ha & Hb & Hlt & Hub).
    cbn in Ha, Hb. exists pa, pb. rewrite Ha, Hb, <- Hlen.
    apply Qle_bool_iff in Hle.
    repeat split; try done; try lia.
    intros Hlt'. apply Qlt_not_le in Hlt'. done.
  - apply before_elem in Hbefore as [Ha Hb].
    rewrite <- Hperm in Ha, Hb.
    destruct (before_total s _ _ Ha Hb Hne) as [Hab | Hba].
    + apply stable_sort_before in Hab.
      * unfold leb in Hab. cbn in Hab. congruence.
      * intros x y. apply Qle_bool_total.
      * intros x y z. apply Qle_bool_trans.
    + destruct (Hpos _ _ Hba) as (pb & pa & Hb' & Ha' & Hlt & Hub).
      cbn in Ha', Hb'. exists pa, pb. rewrite Ha', Hb', <- Hlen.
      apply Qle_bool_false in Hle.
      repeat split; try done; try lia.
      intros Hle'. apply Qlt_not_le in Hle. done.
Qed.

(** ** The starting grid *)

Lemma first_occurrences_step_keys {V : Type} (d : pydict V) (k : Z) (v : V) :
  dict_keys (dict_set d k v)
  = (if bool_decide (k ∈ dict_keys d) then dict_keys d else dict_keys d ++ [k]).
Proof.
  rewrite dict_keys_set. destruct (dict_mem d k) eqn:E.
  - apply dict_mem_true in E. by rewrite bool_decide_eq_true_2.
  - rewrite bool_decide_eq_false_2; [done |].
    intros H%dict_mem_true. congruence.
Qed.

Lemma qualifying_times_loop_keys (context : SimulationContext.t)
    (drivers : list Driver.t) (qualifying_times : pydict Q) :
  dict_keys (qualifying_times_loop context drivers qualifying_times)
  = foldl (fun seen x => if bool_decide (x ∈ seen) then seen else seen ++ [x])
      (dict_keys qualifying_times)
      (Driver.id <$> filter (eligible context) drivers).
Proof.
  revert qualifying_times.
  induction drivers as [| driver rest IH]; intros qualifying_times; [done |].
  cbn [qualifying_times_loop]. unfold eligible at 1.
  destruct (get_team context driver) as [team |] eqn:Hteam.
  - rewrite filter_bool_cons_true by (unfold eligible; by rewrite Hteam).
    rewrite IH. cbn. by rewrite first_occurrences_step_keys.
  - rewrite filter_bool_cons_false by (unfold eligible; by rewrite Hteam).
    apply IH.
Qed.

Lemma qualifying_times_loop_NoDup (context : SimulationContext.t)
    (drivers : list Driver.t) (qualifying_times : pydict Q) :
  NoDup (dict_keys qualifying_times) ->
  NoDup (dict_keys (qualifying_times_loop context drivers qualifying_times)).
Proof.
  revert qualifying_times.
  induction drivers as [| driver rest IH]; intros qualifying_times Hnd; [done |].
  cbn. destruct (get_team context driver); [| by apply IH].
  by apply IH, dict_keys_set_NoDup.
Qed.

(** Every recorded time is the estimate of a driver of that id. *)
Lemma qualifying_times_loop_values (context : SimulationContext.t)
    (drivers : list Driver.t) (qualifying_times : pydict Q) (k : Z) (t : Q) :
  dict_get (qualifying_times_loop context drivers qualifying_times) k = Some t ->
  dict_get qualifying_times k = Some t
  \/ exists driver, driver ∈ drivers /\ qualifying_entry context driver = Some (k, t).
Proof.
  revert qualifying_times.
  induction drivers as [| driver rest IH]; intros qualifying_times; [by left |].
  cbn [qualifying_times_loop].
  destruct (get_team context driver) as [team |] eqn:Hteam.
  - intros [H | (d & Hd & Hentry)]%IH.
    + destruct (decide (Driver.id driver = k)) as [<- | Hne].
      * rewrite dict_get_set_eq in H. injection H as <-. right.
        exists driver. split; [by left |].
        unfold qualifying_entry. by rewrite Hteam.
      * rewrite dict_get_set_ne in H by done. by left.
    + right. exists d. split; [by right | done].
  - intros [H | (d & Hd & Hentry)]%IH; [by left |].
    right. exists d. split; [by right | done].
Qed.

Lemma first_occurrences_NoDup_from (seen l : list Z) :
  NoDup (seen ++ l) ->
  foldl (fun seen x => if bool_decide (x ∈ seen) then seen else seen ++ [x])
    seen l
  = seen ++ l.
Proof.
  revert seen. induction l as [| x l IH]; intros seen Hnd; cbn.
  - by rewrite app_nil_r.
  - rewrite bool_decide_eq_false_2.
    2:{ apply NoDup_app in Hnd as (_ & Hdisj & _). intros Hx.
        apply (Hdisj _ Hx). by left. }
    rewrite IH; rewrite <- app_assoc; done.
Qed.

Lemma first_occurrences_NoDup (l : list Z) : NoDup l -> first_occurrences l = l.
Proof. intros Hnd. by apply (first_occurrences_NoDup_from []). Qed.

(** For drivers with pairwise distinct ids the dictionary lists the eligible
    drivers in the order of the input, each with its own estimate. *)
Lemma qualifying_times_loop_distinct (context : SimulationContext.t)
    (drivers : list Driver.t) (qualifying_times : pydict Q) :
  NoDup (dict_keys qualifying_times ++ (Driver.id <$> drivers)) ->
  qualifying_times_loop context drivers qualifying_times
  = qualifying_times ++ omap (qualifying_entry context) drivers.
Proof.
  revert qualifying_times.
  induction drivers as [| driver rest IH]; intros qualifying_times Hnd.
  - cbn. by rewrite app_nil_r.
  - cbn [qualifying_times_loop omap list_omap]. unfold qualifying_entry at 1.
    destruct (get_team context driver) as [team |] eqn:Hteam; cbn.
    + rewrite dict_set_absent.
      2:{ apply NoDup_app in Hnd as (_ & Hdisj & _). intros Hx.
          apply (Hdisj _ Hx). by left. }
      rewrite IH; [by rewrite <- app_assoc |].
      unfold dict_keys. rewrite fmap_app, <- app_assoc. exact Hnd.
    + apply IH. rewrite fmap_cons in Hnd.
      rewrite <- Permutation_middle in Hnd. by apply NoDup_cons in Hnd as [_ ?].
Qed.

(** The grid gives the positions 1, 2, ... to the ids of the dictionary. *)
Lemma grid_of_positions (qualifying_times : pydict Q) :
  NoDup (dict_keys qualifying_times) ->
  dict_keys (grid_of qualifying_times) ≡ₚ dict_keys qualifying_times
  /\ (grid_of qualifying_times).*2
     = seqZ 1 (Z.of_nat (length qualifying_times)).
Proof.
  intros Hnd. unfold grid_of.
  assert (Hperm : sorted_by snd qualifying_times ≡ₚ qualifying_times)
    by apply stable_sort_Permutation.
  rewrite positions_loop_zip by (cbn; by rewrite Hperm). cbn [app].
  assert (Hlen : length (sorted_by snd qualifying_times).*1
                 = length qualifying_times)
    by (by rewrite length_fmap, Hperm).
  rewrite <- (length_fmap fst (sorted_by snd qualifying_times)), Hlen.
  split.
  - unfold dict_keys at 1. rewrite fst_zip by (rewrite length_seqZ; lia).
    by rewrite Hperm.
  - apply snd_zip. rewrite length_seqZ. lia.
Qed.

Lemma before_omap {A B : Type} (f : A -> option B) (l : list A) (a b : A)
    (x y : B) :
  before l a b -> f a = Some x -> f b = Some y -> before (omap f l) x y.
Proof.
  intros Hbefore Ha Hb. induction l as [| c l IH]; [done |].
  cbn [omap list_omap]. destruct Hbefore as [[-> Hin] | Hbefore].
  - rewrite Ha. left. split; [done |].
    apply list_elem_of_omap. by exists b.
  - destruct (f c); [right |]; by apply IH.
Qed.

Section Grid.
Context {RS : RandomSource}.

Lemma initialize_race_state_grid (context : SimulationContext.t)
    (rng : RandomState) :
  RaceState.grid_positions (_initialize_race_state context rng).1
  = grid_of (qualifying_times_of context).
Proof.
  unfold _initialize_race_state.
  by destruct (performance_loop context (SimulationContext.drivers context)
                 [] [] rng) as [[car form] rng'].
Qed.

(** C8: the grid is the ascending stable sort of the qualifying-time
    estimates.  [qualifying_times] holds one entry per eligible driver id, in
    the order in which the ids first appear in the driver list, each with the
    estimate of a driver of that id (for pairwise distinct ids: the eligible
    drivers in input order, each with its own estimate).  The grid gives
    these ids the positions 1, 2, ...  Of two entries, the one that stands
    first gets the smaller grid position exactly when its estimate is not the
    larger one: the grid ascends in the estimates and equal estimates keep
    the input order. *)
Theorem grid_is_stable_sort_of_qualifying_times
    (context : SimulationContext.t) (rng : RandomState) :
  dict_keys (qualifying_times_of context)
  = first_occurrences
      (Driver.id <$> filter (eligible context) (SimulationContext.drivers context))
  /\ (forall k t,
        dict_get (qualifying_times_of context) k = Some t ->
        exists driver,
          driver ∈ SimulationContext.drivers context
          /\ qualifying_entry context driver = Some (k, t))
  /\ (NoDup (Driver.id <$> SimulationContext.drivers context) ->
      qualifying_times_of context
      = omap (qualifying_entry context) (SimulationContext.drivers context))
  /\ dict_keys (RaceState.grid_positions (_initialize_race_state context rng).1)
     ≡ₚ dict_keys (qualifying_times_of context)
  /\ (RaceState.grid_positions (_initialize_race_state context rng).1).*2
     = seqZ 1 (Z.of_nat (length (qualifying_times_of context)))
  /\ (forall a ta b tb,
        before (qualifying_times_of context) (a, ta) (b, tb) ->
        exists pa pb,
          dict_get
            (RaceState.grid_positions (_initialize_race_state context rng).1) a
          = Some pa
          /\ dict_get
               (RaceState.grid_positions (_initialize_race_state context rng).1) b
             = Some pb
          /\ 1 <= pa <= Z.of_nat (length (qualifying_times_of context))
          /\ 1 <= pb <= Z.of_nat (length (qualifying_times_of context))
          /\ (pa < pb <-> (ta <= tb)%Q)
          /\ (pb < pa <-> (tb < ta)%Q)).
Proof.
  split; [apply qualifying_times_loop_keys |].
  split.
  { intros k t [H | H]%qualifying_times_loop_values; done. }
  split.
  { intros Hnd. unfold qualifying_times_of.
    by rewrite qualifying_times_loop_distinct. }
  assert (Hnd : NoDup (dict_keys (qualifying_times_of context))).
  { apply qualifying_times_loop_NoDup. constructor. }
  rewrite initialize_race_state_grid.
  split; [by apply grid_of_positions |].
  split; [by apply grid_of_positions |].
  intros a ta b tb Hbefore. by apply grid_of_order.
Qed.

(** The same for two drivers of a list with pairwise distinct ids. *)
Lemma grid_order_of_drivers (context : SimulationContext.t) (rng : RandomState)
    (i j : nat) (d1 d2 : Driver.t) (team1 team2 : Team.t) :
  NoDup (Driver.id <$> SimulationContext.drivers context) ->
  (i < j)%nat ->
  SimulationContext.drivers context !! i = Some d1 ->
  SimulationContext.drivers context !! j = Some d2 ->
  get_team context d1 = Some team1 ->
  get_team context d2 = Some team2 ->
  exists p1 p2,
    dict_get (RaceState.grid_positions (_initialize_race_state context rng).1)
      (Driver.id d1) = Some p1
    /\ dict_get (RaceState.grid_positions (_initialize_race_state context rng).1)
         (Driver.id d2) = Some p2
    /\ (p1 < p2 <->
        (qualifying_time context d1 team1 <= qualifying_time context d2 team2)%Q).
Proof.
  intros Hnd Hij Hi Hj Hteam1 Hteam2. rewrite initialize_race_state_grid.
  destruct (grid_of_order (qualifying_times_of context)
              (Driver.id d1) (Driver.id d2)
              (qualifying_time context d1 team1)
              (qualifying_time context d2 team2))
    as (p1 & p2 & H1 & H2 & _ & _ & Hlt & _).
  { apply qualifying_times_loop_NoDup. constructor. }
  { unfold qualifying_times_of. rewrite qualifying_times_loop_distinct by done.
    apply (before_omap _ _ d1 d2).
    - apply before_lookup. by exists i, j.
    - unfold qualifying_entry. by rewrite Hteam1.
    - unfold qualifying_entry. by rewrite Hteam2. }
  by exists p1, p2.
Qed.

End Grid.

(** ** The trial performance score *)

Lemma total_performance_formula (base form weather track strategy luck : Q) :
  (total_performance base form weather track strategy luck
   == (0.4 * base + 0.3 * form + 0.1 * weather + 0.1 * track + 0.1 * strategy)
      * luck)%Q.
Proof. unfold total_performance. ring. Qed.




Section Trial.
Context {RS : RandomSource}.

Lemma race_performance_loop_scores (context : SimulationContext.t)
    (race_state : RaceState.t) (drivers : list Driver.t) (acc perf : pydict Q)
    (rng rng' : RandomState) (driver_id : Z) (score : Q) :
  race_performance_loop context race_state drivers acc rng = Ok (perf, rng') ->
  dict_get perf driver_id = Some score ->
  dict_get acc driver_id = Some score
  \/ exists driver rng1,
       driver ∈ drivers /\ Driver.id driver = driver_id
       /\ score_of context race_state driver rng1 score.
Proof.
  revert acc rng. induction drivers as [| driver rest IH]; intros acc rng.
  - cbn. intros [= <- <-] H. by left.
  - cbn [race_performance_loop].
    destruct (dict_get (RaceState.car_performance race_state) (Driver.id driver))
      as [base |] eqn:Hbase.
    + intros H Hget. apply bind_Ok in H as (form & Hform & H).
      unfold dict_item in Hform.
      destruct (dict_get (RaceState.driver_form race_state) (Driver.id driver))
        as [form' |] eqn:Hform'; [| done].
      injection Hform as ->.
      destruct (normal 1.0%Q 0.1%Q rng) as [luck rng1] eqn:Hluck.
      destruct (IH _ _ H Hget) as [Hacc | (d & rng2 & Hd & Hid & Hscore)].
      * destruct (decide (Driver.id driver = driver_id)) as [Hid | Hne].
        -- rewrite <- Hid, dict_get_set_eq in Hacc. injection Hacc as <-.
           right. exists driver, rng. split; [by left |]. split; [done |].
           exists base, form. split; [done |]. split; [done |].
           rewrite Hluck. apply total_performance_formula.
        -- rewrite dict_get_set_ne in Hacc by done. by left.
      * right. exists d, rng2. split; [by right | done].
    + intros H Hget.
      destruct (IH _ _ H Hget) as [Hacc | (d & rng2 & Hd & Hid & Hscore)];
        [by left |].
      right. exists d, rng2. split; [by right | done].
Qed.

Lemma race_performance_loop_covers (context : SimulationContext.t)
    (race_state : RaceState.t) (drivers : list Driver.t) (acc perf : pydict Q)
    (rng rng' : RandomState) (k : Z) :
  race_performance_loop context race_state drivers acc rng = Ok (perf, rng') ->
  k ∈ dict_keys acc
  \/ (k ∈ (Driver.id <$> drivers)
      /\ is_Some (dict_get (RaceState.car_performance race_state) k)) ->
  k ∈ dict_keys perf.
Proof.
  revert acc rng. induction drivers as [| driver rest IH]; intros acc rng.
  - cbn. intros [= <- <-] [H | [H%elem_of_nil _]]; done.
  - cbn [race_performance_loop].
    destruct (dict_get (RaceState.car_performance race_state) (Driver.id driver))
      as [base |] eqn:Hbase.
    + intros H Hk. apply bind_Ok in H as (form & Hform & H).
      destruct (normal 1.0%Q 0.1%Q rng) as [luck rng1].
      apply (IH _ _ H). rewrite dict_keys_set_elem.
      destruct Hk as [Hk | [[-> | Hk]%elem_of_cons Hcar]]; eauto.
    + intros H Hk. apply (IH _ _ H).
      destruct Hk as [Hk | [[-> | Hk]%elem_of_cons Hcar]]; eauto.
      rewrite Hbase in Hcar. by destruct Hcar.
Qed.

(** The loop raises nothing when every id with a car performance has a form. *)
Lemma race_performance_loop_Ok (context : SimulationContext.t)
    (race_state : RaceState.t) (drivers : list Driver.t) (acc : pydict Q)
    (rng : RandomState) :
  (forall k, is_Some (dict_get (RaceState.car_performance race_state) k) ->
             is_Some (dict_get (RaceState.driver_form race_state) k)) ->
  exists perf rng',
    race_performance_loop context race_state drivers acc rng = Ok (perf, rng').
Proof.
  intros Hform. revert acc rng.
  induction drivers as [| driver rest IH]; intros acc rng; [by eexists _, _ |].
  cbn [race_performance_loop].
  destruct (dict_get (RaceState.car_performance race_state) (Driver.id driver))
    as [base |] eqn:Hbase; [| apply IH].
  destruct (Hform (Driver.id driver)) as [form Hf]; [by rewrite Hbase |].
  unfold dict_item. rewrite Hf. cbn.
  destruct (normal 1.0%Q 0.1%Q rng) as [luck rng1]. apply IH.
Qed.

(** The dictionaries of [_initialize_race_state] have the same keys, among
    them the id of every eligible driver. *)
Lemma performance_loop_keys (context : SimulationContext.t)
    (drivers : list Driver.t) (car form car' form' : pydict Q)
    (rng rng' : RandomState) :
  performance_loop context drivers car form rng = (car', form', rng') ->
  dict_keys car = dict_keys form ->
  dict_keys car' = dict_keys form'
  /\ forall k, k ∈ dict_keys car' <->
       k ∈ dict_keys car
       \/ k ∈ (Driver.id <$> filter (eligible context) drivers).
Proof.
  revert car form rng. induction drivers as [| driver rest IH]; intros car form rng.
  - cbn. intros [= <- <- <-] Hkeys. split; [done |]. intros k.
    split; [by left | by intros [? | ?%elem_of_nil]].
  - cbn [performance_loop]. unfold eligible at 1.
    destruct (get_team context driver) as [team |] eqn:Hteam.
    + rewrite filter_bool_cons_true by (unfold eligible; by rewrite Hteam).
      destruct (_calculate_driver_form driver rng) as [f rng1].
      intros H Hkeys. apply IH in H as [Heq Hin].
      * split; [done |]. intros k. rewrite Hin, dict_keys_set_elem, fmap_cons,
          elem_of_cons. tauto.
      * rewrite !first_occurrences_step_keys. by rewrite Hkeys.
    + rewrite filter_bool_cons_false by (unfold eligible; by rewrite Hteam).
      apply IH.
Qed.

Lemma initialize_race_state_keys (context : SimulationContext.t)
    (rng : RandomState) :
  dict_keys (RaceState.car_performance (_initialize_race_state context rng).1)
  = dict_keys (RaceState.driver_form (_initialize_race_state context rng).1)
  /\ forall k,
       k ∈ dict_keys (RaceState.car_performance
                        (_initialize_race_state context rng).1)
       <-> k ∈ (Driver.id
                  <$> filter (eligible context) (SimulationContext.drivers context)).
Proof.
  unfold _initialize_race_state.
  destruct (performance_loop context (SimulationContext.drivers context)
              [] [] rng) as [[car form] rng'] eqn:Hloop.
  apply performance_loop_keys in Hloop as [Heq Hin]; [| done].
  split; [done |]. intros k. rewrite Hin. cbn.
  split; [by intros [?%elem_of_nil | ?] | by right].
Qed.

End Trial.


Section TrialScore.
Context {RS : RandomSource}.


End TrialScore.

(** ** The position resolver *)

Lemma zip_seqZ_app (l1 l2 : list Z) (c : Z) :
  zip (l1 ++ l2) (seqZ c (Z.of_nat (length (l1 ++ l2))))
  = zip l1 (seqZ c (Z.of_nat (length l1)))
    ++ zip l2 (seqZ (c + Z.of_nat (length l1)) (Z.of_nat (length l2))).
Proof.
  rewrite length_app, Nat2Z.inj_add, seqZ_app by lia.
  apply zip_with_app. rewrite length_seqZ. lia.
Qed.

Lemma dict_keys_zip_seqZ (l : list Z) (c : Z) :
  dict_keys (zip l (seqZ c (Z.of_nat (length l)))) = l.
Proof. unfold dict_keys. apply fst_zip. rewrite length_seqZ. lia. Qed.

Lemma dict_keys_app {V : Type} (d1 d2 : pydict V) :
  dict_keys (d1 ++ d2) = dict_keys d1 ++ dict_keys d2.
Proof. unfold dict_keys. apply fmap_app. Qed.

Lemma assign_in_order_zip (driver_skills : list (Z * Q))
    (final_positions : pydict Z) (c : Z) :
  NoDup (dict_keys final_positions ++ driver_skills.*1) ->
  assign_in_order driver_skills final_positions c
  = (final_positions
     ++ zip driver_skills.*1 (seqZ c (Z.of_nat (length driver_skills.*1))),
     c + Z.of_nat (length driver_skills.*1)).
Proof.
  revert final_positions c.
  induction driver_skills as [| [k v] s IH]; intros d c Hnd.
  - cbn. rewrite app_nil_r. f_equal. lia.
  - cbn [assign_in_order]. rewrite dict_set_absent.
    2:{ apply NoDup_app in Hnd as (_ & Hdisj & _). intros Hk.
        apply (Hdisj _ Hk). by left. }
    rewrite IH.
    2:{ rewrite dict_keys_app. cbn. rewrite <- app_assoc. exact Hnd. }
    rewrite <- app_assoc. cbn [length fmap list_fmap].
    rewrite (seqZ_cons c) by lia. cbn.
    f_equal; [do 4 f_equal |]; lia.
Qed.

Lemma resolve_loop_zip (drivers : list Driver.t)
    (position_groups : pydict (list Z)) (positions : list Z)
    (final_positions : pydict Z) (c : Z) :
  (forall p, p ∈ positions -> is_Some (dict_get position_groups p)) ->
  NoDup (dict_keys final_positions
         ++ resolution_order drivers position_groups positions) ->
  resolve_loop drivers position_groups positions final_positions c
  = Ok (final_positions
        ++ zip (resolution_order drivers position_groups positions)
             (seqZ c (Z.of_nat
                (length (resolution_order drivers position_groups positions))))).
Proof.
  revert final_positions c.
  induction positions as [| position rest IH]; intros d c Hgroups Hnd.
  - cbn. by rewrite app_nil_r.
  - destruct (Hgroups position) as [driver_ids Hids]; [by left |].
    assert (Hrest : forall p, p ∈ rest -> is_Some (dict_get position_groups p)).
    { intros p Hp. apply Hgroups. by right. }
    unfold resolution_order in *. rewrite bind_cons in *.
    rewrite Hids in *. cbn [default] in *.
    set (g := group_order drivers driver_ids) in *.
    set (r := rest ≫= _) in *.
    assert (Hstep : forall d1 c1,
              d1 = d ++ zip g (seqZ c (Z.of_nat (length g))) ->
              c1 = c + Z.of_nat (length g) ->
              resolve_loop drivers position_groups rest d1 c1
              = Ok (d ++ zip (g ++ r) (seqZ c (Z.of_nat (length (g ++ r)))))).
    { intros d1 c1 -> ->. rewrite IH; [| done |].
      - by rewrite zip_seqZ_app, app_assoc.
      - rewrite dict_keys_app, dict_keys_zip_seqZ, <- app_assoc. exact Hnd. }
    cbn [resolve_loop]. unfold dict_item. rewrite Hids. cbn [mbind result_bind].
    assert (Hother :
      g = (sorted_by_reverse snd (driver_skills_of drivers driver_ids)).*1 ->
      (let '(final_positions, current_position) :=
         assign_in_order
           (sorted_by_reverse snd (driver_skills_of drivers driver_ids)) d c in
       resolve_loop drivers position_groups rest final_positions
         current_position)
      = Ok (d ++ zip (g ++ r) (seqZ c (Z.of_nat (length (g ++ r)))))).
    { intros Hg. rewrite assign_in_order_zip.
      - rewrite <- Hg. by apply Hstep.
      - rewrite <- Hg. rewrite app_assoc in Hnd.
        by apply NoDup_app in Hnd as (Hnd & _ & _). }
    destruct driver_ids as [| driver_id [| driver_id2 others]].
    + by apply Hother.
    + apply Hstep; [| done]. subst g. cbn [group_order length].
      rewrite dict_set_absent; [| ].
      * by rewrite (seqZ_cons c) by lia.
      * apply NoDup_app in Hnd as (_ & Hdisj & _). intros Hk.
        apply (Hdisj _ Hk). cbn. by left.
    + by apply Hother.
Qed.

Lemma dict_set_split {V : Type} (d : pydict V) (k : Z) (v : V) :
  dict_get d k = Some v ->
  exists d1 d2,
    d = d1 ++ (k, v) :: d2
    /\ forall v', dict_set d k v' = d1 ++ (k, v') :: d2.
Proof.
  induction d as [| [k0 v0] d IH]; cbn; [done |].
  destruct (k0 =? k) eqn:E.
  - apply Z.eqb_eq in E as ->. intros [= ->]. by exists [], d.
  - intros (d1 & d2 & -> & Hset)%IH. exists ((k0, v0) :: d1), d2.
    split; [done |]. intros v'. cbn. by rewrite Hset.
Qed.

Lemma add_to_group_concat (position_groups : pydict (list Z))
    (driver_id position : Z) :
  concat (add_to_group position_groups driver_id position).*2
  ≡ₚ driver_id :: concat position_groups.*2.
Proof.
  unfold add_to_group.
  destruct (dict_get position_groups position) as [driver_ids |] eqn:Hget.
  - apply dict_set_split in Hget as (d1 & d2 & -> & Hset). rewrite Hset.
    rewrite !fmap_app, !concat_app. cbn.
    rewrite <- (Permutation_cons_append driver_ids driver_id). cbn.
    by rewrite <- Permutation_middle.
  - rewrite dict_set_absent by (by apply dict_get_None).
    rewrite fmap_app, concat_app. cbn.
    by rewrite <- Permutation_cons_append.
Qed.

Lemma group_by_position_spec (items : list (Z * Z))
    (position_groups : pydict (list Z)) :
  NoDup (dict_keys position_groups) ->
  NoDup (dict_keys (group_by_position items position_groups))
  /\ concat (group_by_position items position_groups).*2
     ≡ₚ concat position_groups.*2 ++ items.*1.
Proof.
  revert position_groups.
  induction items as [| [driver_id position] rest IH]; intros pg Hnd.
  - cbn. by rewrite app_nil_r.
  - cbn [group_by_position].
    destruct (IH (add_to_group pg driver_id position)) as [Hnd' Hperm].
    { unfold add_to_group.
      destruct (dict_get pg position); by apply dict_keys_set_NoDup. }
    split; [done |].
    rewrite Hperm, add_to_group_concat. cbn.
    by rewrite <- Permutation_middle.
Qed.

Lemma find_driver_is_Some (drivers : list Driver.t) (driver_id : Z) :
  driver_id ∈ (Driver.id <$> drivers) ->
  is_Some (find_driver drivers driver_id).
Proof.
  intros (d & -> & Hd)%list_elem_of_fmap. unfold find_driver.
  destruct (List.find _ drivers) as [d' |] eqn:Hfind; [done |].
  apply list_elem_of_In in Hd.
  pose proof (find_none _ _ Hfind d Hd) as H. cbn in H. lia.
Qed.

Lemma driver_skills_of_fst (drivers : list Driver.t) (driver_ids : list Z) :
  Forall (fun k => k ∈ (Driver.id <$> drivers)) driver_ids ->
  (driver_skills_of drivers driver_ids).*1 = driver_ids.
Proof.
  induction 1 as [| k ks Hk _ IH]; [done |].
  cbn. destruct (find_driver_is_Some drivers k Hk) as [d ->].
  cbn. by rewrite IH.
Qed.

Lemma group_order_Permutation (drivers : list Driver.t) (driver_ids : list Z) :
  Forall (fun k => k ∈ (Driver.id <$> drivers)) driver_ids ->
  group_order drivers driver_ids ≡ₚ driver_ids.
Proof.
  intros Hknown.
  assert (H : (sorted_by_reverse snd (driver_skills_of drivers driver_ids)).*1
              ≡ₚ driver_ids).
  { unfold sorted_by_reverse. rewrite stable_sort_Permutation.
    by rewrite driver_skills_of_fst. }
  by destruct driver_ids as [| k [| k2 ks]].
Qed.

Lemma elem_of_concat {A : Type} (x : A) (ls : list (list A)) :
  x ∈ concat ls <-> exists l, l ∈ ls /\ x ∈ l.
Proof.
  rewrite list_elem_of_In, in_concat.
  by setoid_rewrite list_elem_of_In.
Qed.

Lemma list_bind_Permutation {A B : Type} (f : A -> list B) (l1 l2 : list A) :
  l1 ≡ₚ l2 -> l1 ≫= f ≡ₚ l2 ≫= f.
Proof.
  induction 1 as [| x l1 l2 _ IH | x y l | l1 l2 l3 _ IH1 _ IH2].
  - done.
  - by rewrite !bind_cons, IH.
  - rewrite !bind_cons, !app_assoc. by rewrite (Permutation_app_comm (f y)).
  - by rewrite IH1.
Qed.

Lemma resolution_order_Permutation (drivers : list Driver.t)
    (position_groups : pydict (list Z)) (positions : list Z) :
  NoDup (dict_keys position_groups) ->
  Forall (fun k => k ∈ (Driver.id <$> drivers)) (concat position_groups.*2) ->
  positions ≡ₚ dict_keys position_groups ->
  resolution_order drivers position_groups positions
  ≡ₚ concat position_groups.*2.
Proof.
  intros Hnd Hknown Hperm. unfold resolution_order.
  rewrite (list_bind_Permutation _ _ _ Hperm).
  assert (H : forall l : pydict (list Z),
            l ⊆ position_groups ->
            dict_keys l ≫= (fun position =>
              group_order drivers (default [] (dict_get position_groups position)))
            ≡ₚ concat l.*2).
  { induction l as [| [k v] l IH]; intros Hsub; [done |].
    unfold dict_keys in *. rewrite !fmap_cons, bind_cons. cbn [concat fst snd].
    rewrite (dict_get_elem position_groups k v Hnd) by (apply Hsub; by left).
    cbn [default]. rewrite IH.
    2:{ intros x Hx. apply Hsub. by right. }
    rewrite group_order_Permutation; [done |].
    rewrite Forall_forall in Hknown. apply Forall_forall. intros x Hx.
    apply Hknown. apply elem_of_concat. exists v. split; [| done].
    apply list_elem_of_fmap. exists (k, v). split; [done |]. apply Hsub. by left. }
  by apply H.
Qed.

(** The postcondition of the resolver: the drivers of [positions], served in
    some order, are numbered 1, 2, ... in that order. *)
Lemma resolve_position_conflicts_spec (positions : pydict Z)
    (drivers : list Driver.t) :
  NoDup (dict_keys positions) ->
  Forall (fun k => k ∈ (Driver.id <$> drivers)) (dict_keys positions) ->
  exists order,
    order ≡ₚ dict_keys positions
    /\ _resolve_position_conflicts positions drivers
       = Ok (zip order (seqZ 1 (Z.of_nat (length order)))).
Proof.
  intros Hnd Hknown. unfold _resolve_position_conflicts.
  destruct (group_by_position_spec positions []) as [Hndg Hconcat];
    [constructor |].
  cbn in Hconcat.
  set (position_groups := group_by_position positions []) in *.
  set (sorted_positions := stable_sort Z.leb (dict_keys position_groups)).
  assert (Hro : resolution_order drivers position_groups sorted_positions
                ≡ₚ dict_keys positions).
  { rewrite resolution_order_Permutation; [done | done | | ].
    - by rewrite Hconcat.
    - apply stable_sort_Permutation. }
  exists (resolution_order drivers position_groups sorted_positions).
  split; [done |].
  rewrite resolve_loop_zip; [done | |].
  - intros p Hp. apply dict_get_is_Some.
    unfold sorted_positions in Hp. by rewrite stable_sort_Permutation in Hp.
  - cbn. by rewrite Hro.
Qed.

(** ** The Monte Carlo iterator *)

Lemma dict_set_Forall {V : Type} (P : Z * V -> Prop) (d : pydict V) (k : Z)
    (v : V) :
  Forall P d -> P (k, v) -> Forall P (dict_set d k v).
Proof.
  intros Hd Hkv. induction Hd as [| [k0 v0] d H0 Hd IH]; cbn.
  - by constructor.
  - destruct (k0 =? k); by constructor.
Qed.

Lemma init_position_counts_spec (drivers : list Driver.t) :
  NoDup (dict_keys (init_position_counts drivers))
  /\ (forall k, k ∈ dict_keys (init_position_counts drivers)
                <-> k ∈ (Driver.id <$> drivers))
  /\ Forall (fun kv => length kv.2 = length drivers)
       (init_position_counts drivers).
Proof.
  unfold init_position_counts. set (n := length drivers).
  assert (H : forall (l : list Driver.t) (acc : pydict (list Z)),
            NoDup (dict_keys acc) ->
            Forall (fun kv => length kv.2 = n) acc ->
            let pc :=
              fold_left
                (fun position_counts driver =>
                   dict_set position_counts (Driver.id driver) (replicate n 0))
                l acc in
            NoDup (dict_keys pc)
            /\ (forall k, k ∈ dict_keys pc
                          <-> k ∈ dict_keys acc \/ k ∈ (Driver.id <$> l))
            /\ Forall (fun kv => length kv.2 = n) pc).
  { induction l as [| d l IH]; intros acc Hnd Hlen; cbn.
    - split; [done |]. split; [| done]. intros k.
      split; [by left | by intros [? | ?%elem_of_nil]].
    - destruct (IH (dict_set acc (Driver.id d) (replicate n 0)))
        as (Hnd' & Hin & Hlen').
      + by apply dict_keys_set_NoDup.
      + apply dict_set_Forall; [done |]. cbn. apply length_replicate.
      + split; [done |]. split; [| done]. intros k.
        rewrite Hin, dict_keys_set_elem, elem_of_cons. tauto. }
  destruct (H drivers []) as (Hnd & Hin & Hlen); [constructor | constructor |].
  split; [done |]. split; [| done]. intros k. rewrite Hin. cbn.
  split; [by intros [?%elem_of_nil | ?] | by right].
Qed.

Lemma increment_count_Ok (n : nat) (position_counts : pydict (list Z))
    (driver_id position : Z) :
  driver_id ∈ dict_keys position_counts ->
  Forall (fun kv => length kv.2 = n) position_counts ->
  1 <= position <= Z.of_nat n ->
  exists position_counts',
    increment_count position_counts driver_id position = Ok position_counts'
    /\ dict_keys position_counts' = dict_keys position_counts
    /\ Forall (fun kv => length kv.2 = n) position_counts'.
Proof.
  intros Hin Hlen Hpos. unfold increment_count, dict_item.
  destruct (dict_get position_counts driver_id) as [counts |] eqn:Hget.
  2:{ apply dict_get_None in Hget. done. }
  assert (Hcounts : length counts = n).
  { apply dict_get_Some_elem in Hget. rewrite Forall_forall in Hlen.
    apply (Hlen _ Hget). }
  cbn [mbind result_bind]. unfold list_index. rewrite Hcounts.
  replace ((0 <=? position - 1) && (position - 1 <? Z.of_nat n)) with true
    by lia.
  cbn [mbind result_bind].
  destruct (lookup_lt_is_Some_2 counts (Z.to_nat (position - 1))) as [c Hc];
    [lia |].
  rewrite Hc. eexists. split; [done |]. split.
  - by apply dict_keys_set_present.
  - apply dict_set_Forall; [done |]. cbn. by rewrite length_insert.
Qed.

Lemma count_positions_Ok (n : nat) (race_outcome : list (Z * Z))
    (position_counts : pydict (list Z)) :
  Forall (fun kv => kv.1 ∈ dict_keys position_counts) race_outcome ->
  Forall (fun kv => length kv.2 = n) position_counts ->
  exists position_counts',
    count_positions n race_outcome position_counts = Ok position_counts'
    /\ dict_keys position_counts' = dict_keys position_counts
    /\ Forall (fun kv => length kv.2 = n) position_counts'.
Proof.
  revert position_counts.
  induction race_outcome as [| [driver_id position] rest IH];
    intros pc Hkeys Hlen.
  - by exists pc.
  - apply Forall_cons in Hkeys as [Hk Hkeys]. cbn [count_positions].
    destruct ((1 <=? position) && (position <=? Z.of_nat n)) eqn:Hguard.
    + destruct (increment_count_Ok n pc driver_id position)
        as (pc' & -> & Hkeys' & Hlen'); [done | done | lia |].
      cbn [mbind result_bind].
      destruct (IH pc') as (pc'' & -> & Hkeys'' & Hlen''); [| done |].
      * by rewrite Hkeys'.
      * exists pc''. by rewrite Hkeys'', Hkeys'.
    + by apply IH.
Qed.

Lemma most_likely_positions_spec (position_counts : list (Z * list Z))
    (final_positions : pydict Z) :
  Forall (fun kv => kv.2 <> []) position_counts ->
  NoDup (dict_keys final_positions) ->
  exists final_positions',
    most_likely_positions position_counts final_positions = Ok final_positions'
    /\ NoDup (dict_keys final_positions')
    /\ forall k, k ∈ dict_keys final_positions'
                 <-> k ∈ dict_keys final_positions \/ k ∈ position_counts.*1.
Proof.
  revert final_positions.
  induction position_counts as [| [driver_id counts] rest IH];
    intros fp Hne Hnd.
  - exists fp. split; [done |]. split; [done |]. intros k.
    split; [by left | by intros [? | ?%elem_of_nil]].
  - apply Forall_cons in Hne as [Hcounts Hne]. cbn [most_likely_positions].
    destruct counts as [| c counts]; [done |]. cbn [np_argmax mbind result_bind].
    destruct (IH (dict_set fp driver_id (Z.of_nat (argmax_from 0 c 1 counts) + 1)))
      as (fp' & -> & Hnd' & Hin); [done | by apply dict_keys_set_NoDup |].
    exists fp'. split; [done |]. split; [done |]. intros k.
    rewrite Hin, dict_keys_set_elem, fmap_cons, elem_of_cons. cbn. tauto.
Qed.

Section Iterator.
Context {RS : RandomSource}.

Lemma race_performance_loop_NoDup (context : SimulationContext.t)
    (race_state : RaceState.t) (drivers : list Driver.t) (acc perf : pydict Q)
    (rng rng' : RandomState) :
  race_performance_loop context race_state drivers acc rng = Ok (perf, rng') ->
  NoDup (dict_keys acc) -> NoDup (dict_keys perf).
Proof.
  revert acc rng. induction drivers as [| driver rest IH]; intros acc rng.
  - cbn. by intros [= <- <-].
  - cbn [race_performance_loop].
    destruct (dict_get (RaceState.car_performance race_state) (Driver.id driver));
      [| apply IH].
    intros H Hnd. apply bind_Ok in H as (form & _ & H).
    destruct (normal 1.0%Q 0.1%Q rng) as [luck rng1].
    apply (IH _ _ H). by apply dict_keys_set_NoDup.
Qed.

(** One trial raises nothing and ranks ids of drivers of the context only. *)
Lemma simulate_single_race_iteration_spec (context : SimulationContext.t)
    (race_state : RaceState.t) (rng : RandomState) :
  (forall k, is_Some (dict_get (RaceState.car_performance race_state) k) ->
             is_Some (dict_get (RaceState.driver_form race_state) k)) ->
  exists race_outcome rng',
    _simulate_single_race_iteration context race_state rng
    = Ok (race_outcome, rng')
    /\ Forall (fun kv => kv.1 ∈ (Driver.id <$> SimulationContext.drivers context))
         race_outcome.
Proof.
  intros Hform. unfold _simulate_single_race_iteration.
  destruct (race_performance_loop_Ok context race_state
              (SimulationContext.drivers context) [] rng Hform)
    as (perf & rng' & Hloop).
  rewrite Hloop. cbn [mbind result_bind].
  eexists _, _. split; [done |].
  assert (Hnd : NoDup (dict_keys perf)).
  { apply (race_performance_loop_NoDup _ _ _ _ _ _ _ Hloop). constructor. }
  set (sorted_performance := sorted_by_reverse snd perf).
  assert (Hperm : sorted_performance ≡ₚ perf) by apply stable_sort_Permutation.
  rewrite positions_loop_zip by (cbn; by rewrite Hperm).
  cbn [app]. apply Forall_forall. intros [k position] Hin.
  apply elem_of_zip_l in Hin. rewrite Hperm in Hin.
  apply dict_get_is_Some in Hin as [score Hscore]. cbn.
  destruct (race_performance_loop_scores _ _ _ _ _ _ _ _ _ Hloop Hscore)
    as [Hnil | (driver & _ & Hdriver & <- & _)]; [done |].
  apply list_elem_of_fmap. by exists driver.
Qed.

Lemma monte_carlo_loop_Ok (iterations : nat) (context : SimulationContext.t)
    (race_state : RaceState.t) (position_counts : pydict (list Z))
    (rng : RandomState) :
  (forall k, is_Some (dict_get (RaceState.car_performance race_state) k) ->
             is_Some (dict_get (RaceState.driver_form race_state) k)) ->
  (forall k, k ∈ (Driver.id <$> SimulationContext.drivers context) ->
             k ∈ dict_keys position_counts) ->
  Forall (fun kv => length kv.2 = length (SimulationContext.drivers context))
    position_counts ->
  exists position_counts' rng',
    monte_carlo_loop iterations context race_state position_counts rng
    = Ok (position_counts', rng')
    /\ dict_keys position_counts' = dict_keys position_counts
    /\ Forall (fun kv => length kv.2 = length (SimulationContext.drivers context))
         position_counts'.
Proof.
  intros Hform. revert position_counts rng.
  induction iterations as [| iterations IH]; intros pc rng Hkeys Hlen.
  - by exists pc, rng.
  - cbn [monte_carlo_loop].
    destruct (simulate_single_race_iteration_spec context race_state rng Hform)
      as (race_outcome & rng1 & -> & Hout).
    cbn [mbind result_bind].
    destruct (count_positions_Ok (length (SimulationContext.drivers context))
                race_outcome pc) as (pc1 & -> & Hkeys1 & Hlen1); [| done |].
    { eapply Forall_impl; [exact Hout |]. intros kv. apply Hkeys. }
    cbn [mbind result_bind].
    destruct (IH pc1 rng1) as (pc2 & rng2 & -> & Hkeys2 & Hlen2); [| done |].
    { by rewrite Hkeys1. }
    exists pc2, rng2. by rewrite Hkeys2, Hkeys1.
Qed.

(** The iterator and the resolver together: every driver id of the context,
    eligible or not, gets one of the positions 1, 2, ..., each position
    once. *)
Lemma run_monte_carlo_simulation_spec (context : SimulationContext.t)
    (race_state : RaceState.t) (rng : RandomState) :
  (forall k, is_Some (dict_get (RaceState.car_performance race_state) k) ->
             is_Some (dict_get (RaceState.driver_form race_state) k)) ->
  exists order rng',
    _run_monte_carlo_simulation context race_state rng
    = Ok (zip order (seqZ 1 (Z.of_nat (length order))), rng')
    /\ NoDup order
    /\ forall k, k ∈ order
                 <-> k ∈ (Driver.id <$> SimulationContext.drivers context).
Proof.
  intros Hform. unfold _run_monte_carlo_simulation.
  destruct (init_position_counts_spec (SimulationContext.drivers context))
    as (Hnd0 & Hin0 & Hlen0).
  destruct (monte_carlo_loop_Ok MONTE_CARLO_ITERATIONS context race_state
              (init_position_counts (SimulationContext.drivers context)) rng)
    as (pc & rng' & -> & Hkeys & Hlen); [done | | done |].
  { intros k. apply Hin0. }
  cbn [mbind result_bind].
  destruct (most_likely_positions_spec pc []) as (fp & -> & Hndfp & Hinfp).
  { apply Forall_forall. intros [k counts] Hkv.
    rewrite Forall_forall in Hlen. specialize (Hlen _ Hkv). cbn in *.
    assert (Hk : k ∈ (Driver.id <$> SimulationContext.drivers context)).
    { apply Hin0. rewrite <- Hkeys. apply list_elem_of_fmap. by exists (k, counts). }
    destruct (SimulationContext.drivers context); [by apply elem_of_nil in Hk |].
    by destruct counts. }
  { constructor. }
  cbn [mbind result_bind].
  assert (Hfp : forall k, k ∈ dict_keys fp
                  <-> k ∈ (Driver.id <$> SimulationContext.drivers context)).
  { intros k. rewrite Hinfp, <- Hin0, <- Hkeys. cbn.
    split; [by intros [?%elem_of_nil | ?] | by right]. }
  destruct (resolve_position_conflicts_spec fp (SimulationContext.drivers context))
    as (order & Hperm & ->); [done | |].
  { apply Forall_forall. intros k. apply Hfp. }
  cbn [mbind result_bind]. exists order, rng'. split; [done |].
  split; [by rewrite Hperm |]. intros k. by rewrite Hperm.
Qed.

End Iterator.

(** ** From the final positions to the records *)

Lemma points_for_Ok (position : Z) :
  1 <= position -> exists points, points_for position = Ok points.
Proof.
  intros Hpos. unfold points_for.
  change (Z.of_nat (length points_system)) with 10.
  destruct (position <=? 10) eqn:Hle; [| by eexists].
  unfold list_item, list_index.
  change (Z.of_nat (length points_system)) with 10.
  replace ((0 <=? position - 1) && (position - 1 <? 10)) with true by lia.
  cbn [mbind result_bind].
  destruct (lookup_lt_is_Some_2 points_system (Z.to_nat (position - 1)))
    as [points ->]; [cbn; lia |].
  by eexists.
Qed.

(** Without the attribute [race_state] the loop raises as soon as it meets
    a driver that has a final position. *)
Lemma results_loop_raises (context : SimulationContext.t)
    (final_positions : pydict Z) (drivers : list Driver.t)
    (results : list RaceResult.t) (driver : Driver.t) :
  SimulationContext.race_state context = None ->
  driver ∈ drivers ->
  is_Some (dict_get final_positions (Driver.id driver)) ->
  (forall k p, dict_get final_positions k = Some p -> 1 <= p) ->
  results_loop context final_positions drivers results = Raise AttributeError.
Proof.
  intros Hattr Hin Hsome Hpos. revert results.
  induction drivers as [| d rest IH]; intros results; [by apply elem_of_nil in Hin |].
  cbn [results_loop].
  destruct (dict_get final_positions (Driver.id d)) as [position |] eqn:Hget.
  - destruct (points_for_Ok position) as [points ->]; [by eapply Hpos |].
    cbn [mbind result_bind]. by rewrite Hattr.
  - apply elem_of_cons in Hin as [-> | Hin].
    + rewrite Hget in Hsome. by destruct Hsome.
    + by apply IH.
Qed.

(** With the attribute the loop appends one record per driver that has a
    final position. *)
Lemma results_loop_Ok (context : SimulationContext.t)
    (final_positions : pydict Z) (drivers : list Driver.t)
    (results : list RaceResult.t) (attribute : option (pydict Z)) :
  SimulationContext.race_state context = Some attribute ->
  Forall (fun d => exists p, dict_get final_positions (Driver.id d) = Some p
                             /\ 1 <= p) drivers ->
  exists records,
    results_loop context final_positions drivers results
    = Ok (results ++ records)
    /\ Forall2
         (fun d r =>
            exists points,
              points_for (RaceResult.position r) = Ok points
              /\ dict_get final_positions (Driver.id d)
                 = Some (RaceResult.position r)
              /\ r = result_record context (default [] attribute) d
                       (RaceResult.position r) points)
         drivers records.
Proof.
  intros Hattr Hall. revert results.
  induction Hall as [| d rest (p & Hp & Hpos) _ IH]; intros results.
  - exists []. by rewrite app_nil_r.
  - cbn [results_loop]. rewrite Hp.
    destruct (points_for_Ok p Hpos) as [points Hpoints]. rewrite Hpoints.
    cbn [mbind result_bind]. rewrite Hattr. cbn [mbind result_bind].
    destruct (IH (results
                  ++ [result_record context (default [] attribute) d p points]))
      as (records & Hloop & Hrecords).
    exists (result_record context (default [] attribute) d p points :: records).
    split.
    + rewrite <- app_assoc in Hloop. exact Hloop.
    + constructor; [| done]. exists points. by cbn.
Qed.

Lemma award_fastest_lap_fields (k : nat) (results : list RaceResult.t) :
  RaceResult.position <$> award_fastest_lap k results
  = RaceResult.position <$> results
  /\ RaceResult.driver_id <$> award_fastest_lap k results
     = RaceResult.driver_id <$> results.
Proof.
  revert k. induction results as [| r rest IH]; intros k; [done |].
  cbn [award_fastest_lap].
  destruct (is_top_10 r); [destruct k as [| k'] |]; rewrite ?fmap_cons;
    try done; destruct (IH k') || destruct (IH k); split; by f_equal.
Qed.

Lemma seqZ_StronglySorted (m : Z) (n : nat) :
  StronglySorted Z.le (seqZ m (Z.of_nat n)).
Proof.
  revert m. induction n as [| n IH]; intros m; [constructor |].
  rewrite seqZ_cons by lia.
  replace (Z.pred (Z.of_nat (S n))) with (Z.of_nat n) by lia.
  constructor; [apply IH |].
  apply Forall_forall. intros x Hx%elem_of_seqZ. lia.
Qed.

(** The values that [zip order (seqZ c n)] gives to the keys [order]. *)
Lemma dict_get_zip_seqZ_fmap (order : list Z) (c : Z) :
  NoDup order ->
  (fun k => default 0
              (dict_get (zip order (seqZ c (Z.of_nat (length order)))) k))
  <$> order
  = seqZ c (Z.of_nat (length order)).
Proof.
  intros Hnd. apply list_eq. intros i. rewrite list_lookup_fmap.
  destruct (order !! i) as [k |] eqn:Hi; cbn.
  - rewrite (dict_get_zip_seqZ order c i k Hnd Hi). cbn.
    apply lookup_lt_Some in Hi. by rewrite lookup_seqZ_lt by lia.
  - apply lookup_ge_None in Hi. by rewrite lookup_seqZ_ge by lia.
Qed.

(** ** The whole pipeline *)

Section Pipeline.
Context {RS : RandomSource}.

Lemma initialize_race_state_forms (context : SimulationContext.t)
    (rng : RandomState) (k : Z) :
  is_Some (dict_get (RaceState.car_performance
                       (_initialize_race_state context rng).1) k) ->
  is_Some (dict_get (RaceState.driver_form
                       (_initialize_race_state context rng).1) k).
Proof.
  destruct (initialize_race_state_keys context rng) as [Hkeys _].
  rewrite !dict_get_is_Some. by rewrite Hkeys.
Qed.

(** The final positions handed to the result generator. *)
Lemma final_positions_spec (context : SimulationContext.t) (rng : RandomState) :
  exists order rng',
    _run_monte_carlo_simulation context (_initialize_race_state context rng).1
      (_initialize_race_state context rng).2
    = Ok (zip order (seqZ 1 (Z.of_nat (length order))), rng')
    /\ NoDup order
    /\ (forall k, k ∈ order
                  <-> k ∈ (Driver.id <$> SimulationContext.drivers context))
    /\ (forall k p,
          dict_get (zip order (seqZ 1 (Z.of_nat (length order)))) k = Some p ->
          1 <= p)
    /\ (forall k, k ∈ order ->
          is_Some (dict_get (zip order (seqZ 1 (Z.of_nat (length order)))) k)).
Proof.
  destruct (run_monte_carlo_simulation_spec context
              (_initialize_race_state context rng).1
              (_initialize_race_state context rng).2)
    as (order & rng' & Hrun & Hnd & Hin).
  { intros k. apply initialize_race_state_forms. }
  exists order, rng'. split; [done |]. split; [done |]. split; [done |]. split.
  - intros k p Hget%dict_get_Some_elem%elem_of_zip_r%elem_of_seqZ. lia.
  - intros k Hk. apply dict_get_is_Some. by rewrite dict_keys_zip_seqZ.
Qed.

(** On a context without the attribute [race_state], that is on every
    context as constructed, [simulate_race] raises [AttributeError] as soon
    as the context has a driver. *)
Lemma simulate_race_without_attribute (context : SimulationContext.t)
    (rng : RandomState) (py : py_random) :
  SimulationContext.race_state context = None ->
  SimulationContext.drivers context <> [] ->
  simulate_race context rng py = Raise AttributeError.
Proof.
  intros Hattr Hdrivers. unfold simulate_race.
  destruct (final_positions_spec context rng)
    as (order & rng' & Hrun & Hnd & Hin & Hpos & Hsome).
  destruct (_initialize_race_state context rng) as [race_state rng1].
  cbn [fst snd] in Hrun. rewrite Hrun. cbn [mbind result_bind].
  unfold _generate_race_results.
  destruct (SimulationContext.drivers context) as [| driver rest] eqn:Hd;
    [done |].
  rewrite (results_loop_raises context _ _ [] driver); try done.
  - by left.
  - apply Hsome, Hin. rewrite fmap_cons. by left.
Qed.

Lemma Forall2_positions (context : SimulationContext.t)
    (final_positions grid_positions : pydict Z) (drivers : list Driver.t)
    (records : list RaceResult.t) :
  Forall2
    (fun d r =>
       exists points,
         points_for (RaceResult.position r) = Ok points
         /\ dict_get final_positions (Driver.id d) = Some (RaceResult.position r)
         /\ r = result_record context grid_positions d
                  (RaceResult.position r) points)
    drivers records ->
  RaceResult.position <$> records
  = (fun k => default 0 (dict_get final_positions k)) <$> (Driver.id <$> drivers)
  /\ RaceResult.driver_id <$> records = Driver.id <$> drivers.
Proof.
  induction 1 as [| d r drivers records (points & _ & Hget & Hr) _ [IH1 IH2]];
    [done |].
  rewrite !fmap_cons, IH1, IH2, Hget. split; [done |].
  f_equal. by rewrite Hr.
Qed.

(** On a context that carries the attribute and whose drivers have pairwise
    distinct ids, [simulate_race] returns one record per driver of the
    context, eligible or not, and the positions of the returned list are
    1, 2, ..., in this order. *)
Lemma simulate_race_with_attribute (context : SimulationContext.t)
    (rng : RandomState) (py : py_random) (attribute : option (pydict Z)) :
  SimulationContext.race_state context = Some attribute ->
  NoDup (Driver.id <$> SimulationContext.drivers context) ->
  exists results rng' py',
    simulate_race context rng py = Ok (results, rng', py')
    /\ RaceResult.position <$> results
       = seqZ 1 (Z.of_nat (length (SimulationContext.drivers context)))
    /\ RaceResult.driver_id <$> results
       ≡ₚ Driver.id <$> SimulationContext.drivers context.
Proof.
  intros Hattr Hids. unfold simulate_race.
  destruct (final_positions_spec context rng)
    as (order & rng' & Hrun & Hnd & Hin & Hpos & Hsome).
  destruct (_initialize_race_state context rng) as [race_state rng1].
  cbn [fst snd] in Hrun. rewrite Hrun. cbn [mbind result_bind].
  set (final_positions := zip order (seqZ 1 (Z.of_nat (length order)))) in *.
  assert (Hperm : order ≡ₚ Driver.id <$> SimulationContext.drivers context).
  { apply NoDup_Permutation; [exact Hnd | exact Hids | exact Hin]. }
  assert (Hlen : length order = length (SimulationContext.drivers context))
    by (by rewrite Hperm, length_fmap).
  unfold _generate_race_results.
  destruct (results_loop_Ok context final_positions
              (SimulationContext.drivers context) [] attribute Hattr)
    as (records & -> & Hrecords).
  { apply Forall_forall. intros d Hd.
    destruct (Hsome (Driver.id d)) as [p Hp].
    - apply Hin, list_elem_of_fmap. by exists d.
    - exists p. split; [done |]. by eapply Hpos. }
  cbn [mbind result_bind app].
  apply Forall2_positions in Hrecords as [Hpositions Hdrivers].
  assert (Hseq : RaceResult.position <$> records
                 ≡ₚ seqZ 1 (Z.of_nat (length order))).
  { rewrite Hpositions, <- Hperm. unfold final_positions.
    by rewrite dict_get_zip_seqZ_fmap. }
  set (leb := fun a b => RaceResult.position a <=? RaceResult.position b).
  assert (Hsorted : forall awarded,
            RaceResult.position <$> awarded = RaceResult.position <$> records ->
            RaceResult.position <$> stable_sort leb awarded
            = seqZ 1 (Z.of_nat (length (SimulationContext.drivers context)))).
  { intros awarded Hawarded. rewrite <- Hlen.
    apply (StronglySorted_unique Z.le).
    - eapply StronglySorted_fmap;
        [| apply (stable_sort_StronglySorted leb)].
      + intros x y Hxy. unfold leb in Hxy. cbn in Hxy. lia.
      + intros a b. unfold leb. lia.
      + intros a b c. unfold leb. lia.
    - apply seqZ_StronglySorted.
    - by rewrite stable_sort_Permutation, Hawarded. }
  assert (Hsorted_ids : forall awarded,
            RaceResult.driver_id <$> awarded = RaceResult.driver_id <$> records ->
            RaceResult.driver_id <$> stable_sort leb awarded
            ≡ₚ Driver.id <$> SimulationContext.drivers context).
  { intros awarded Hawarded.
    by rewrite stable_sort_Permutation, Hawarded, Hdrivers. }
  rewrite assign_fastest_lap_eq.
  destruct (filter is_top_10 records) as [| t top_10].
  - cbn [mbind result_bind]. eexists _, _, _. split; [done |].
    split; [by apply Hsorted | by apply Hsorted_ids].
  - destruct (randbelow (length (t :: top_10)) py) as [k py'].
    cbn [mbind result_bind]. eexists _, _, _. split; [done |].
    destruct (award_fastest_lap_fields k records) as [Hp Hd].
    split; [by apply Hsorted | by apply Hsorted_ids].
Qed.

End Pipeline.

(** ** The claims about [simulate_race] as a whole *)

Section Claims.
Context {RS : RandomSource}.

(** C1 (the code departs from it): on every context built by the dataclass
    constructor that has at least one driver, [simulate_race] returns no
    result list at all: it raises [AttributeError] at the read of
    [context.race_state]. *)
Theorem simulate_race_raises_AttributeError (race : Race.t) (track : Track.t)
    (drivers : list Driver.t) (teams : gmap Z Team.t)
    (weather_factor tire_degradation : Q) (rng : RandomState) (py : py_random) :
  drivers <> [] ->
  simulate_race
    (SimulationContext_init race track drivers teams weather_factor
       tire_degradation) rng py
  = Raise AttributeError.
Proof. intros Hdrivers. by apply simulate_race_without_attribute. Qed.

(** C3 (the code departs from it): on a context built by the dataclass
    constructor, [_generate_race_results] raises [AttributeError] as soon as
    one driver of the context has a final position: the grid position is
    looked up in an attribute the context does not have. *)
Theorem grid_position_lookup_raises (race : Race.t) (track : Track.t)
    (drivers : list Driver.t) (teams : gmap Z Team.t)
    (weather_factor tire_degradation : Q) (final_positions : pydict Z)
    (py : py_random) (driver : Driver.t) :
  driver ∈ drivers ->
  is_Some (dict_get final_positions (Driver.id driver)) ->
  (forall k p, dict_get final_positions k = Some p -> 1 <= p) ->
  _generate_race_results
    (SimulationContext_init race track drivers teams weather_factor
       tire_degradation) final_positions py
  = Raise AttributeError.
Proof.
  intros Hin Hsome Hpos. unfold _generate_race_results.
  by rewrite (results_loop_raises _ _ _ [] driver).
Qed.

(** With no car performance recorded a trial ranks nobody, and the counts
    stay as they are. *)
Lemma monte_carlo_loop_no_car (iterations : nat) (context : SimulationContext.t)
    (race_state : RaceState.t) (position_counts : pydict (list Z))
    (rng : RandomState) :
  RaceState.car_performance race_state = [] ->
  monte_carlo_loop iterations context race_state position_counts rng
  = Ok (position_counts, rng).
Proof.
  intros Hcar.
  assert (Hloop : forall drivers,
            race_performance_loop context race_state drivers [] rng
            = Ok ([], rng)).
  { induction drivers as [| d rest IH]; [done |].
    cbn [race_performance_loop]. by rewrite Hcar. }
  induction iterations as [| iterations IH]; [done |].
  cbn [monte_carlo_loop]. unfold _simulate_single_race_iteration.
  rewrite Hloop. cbn [mbind result_bind]. exact IH.
Qed.

(** C2 (the code departs from it): a field made of one driver without team.
    The iterator and the resolver give that driver position 1; the result
    generator therefore builds a record for it: on the context as
    constructed this raises [AttributeError], and on the same context
    carrying the attribute the driver is returned as the winner, with 25
    points and the fastest-lap point.  This holds for every random source. *)
Theorem driver_without_team_is_ranked (rng : RandomState) (py : py_random) :
  _run_monte_carlo_simulation (context_plain [driver_without_team])
    (_initialize_race_state (context_plain [driver_without_team]) rng).1
    (_initialize_race_state (context_plain [driver_without_team]) rng).2
  = Ok ([(12, 1)], rng)
  /\ simulate_race (context_plain [driver_without_team]) rng py
     = Raise AttributeError
  /\ simulate_race (context_with_race_state [driver_without_team]) rng py
     = Ok ([lone_result], rng, (randbelow 1 py).2).
Proof.
  assert (Hrun : forall context,
            SimulationContext.drivers context = [driver_without_team] ->
            _run_monte_carlo_simulation context (RaceState.mk [] [] []) rng
            = Ok ([(12, 1)], rng)).
  { intros context Hd. unfold _run_monte_carlo_simulation.
    by rewrite monte_carlo_loop_no_car, Hd. }
  split; [by apply Hrun |]. split.
  - apply simulate_race_without_attribute; done.
  - unfold simulate_race.
    change (_initialize_race_state
              (context_with_race_state [driver_without_team]) rng)
      with (RaceState.mk [] [] [], rng).
    cbv beta iota. rewrite Hrun by done. cbn [mbind result_bind].
    unfold _generate_race_results. cbn [mbind result_bind].
    change (results_loop (context_with_race_state [driver_without_team])
              [(12, 1)]
              (SimulationContext.drivers
                 (context_with_race_state [driver_without_team])) [])
      with (Ok [RaceResult.mk 0 7 12 None 1 25 false None 1]).
    cbn [mbind result_bind]. rewrite assign_fastest_lap_eq.
    rewrite filter_bool_cons_true by done. rewrite filter_nil.
    cbn [length]. pose proof (randbelow_lt 1 py) as Hlt.
    destruct (randbelow 1 py) as [k py']. cbn [fst snd] in *.
    assert (k = 0%nat) as -> by lia. done.
Qed.

End Claims.

Lemma simulate_race_raises_AttributeError_witness :
  simulate_race (RS := counter_source) (context_plain [driver_a; driver_b])
    42%nat 42%nat
  = Raise AttributeError.
Proof.
  apply (simulate_race_raises_AttributeError (RS := counter_source)). done.
Defined.

Lemma grid_position_lookup_raises_witness :
  _generate_race_results (RS := counter_source)
    (context_plain [driver_a; driver_b]) [(10, 1); (11, 2)] 0%nat
  = Raise AttributeError.
Proof.
  apply (grid_position_lookup_raises (RS := counter_source) _ _ _ _ _ _ _ _
           driver_a).
  - by left.
  - by eexists.
  - intros k p Hget. apply dict_get_Some_elem in Hget.
    apply elem_of_cons in Hget as [[= _ ->] | Hget]; [lia |].
    apply list_elem_of_singleton in Hget as [= _ ->]. lia.
Defined.

Lemma points_from_table_witness :
  [25; 18; 15; 12; 10; 8; 6; 4; 2; 1] !! 0%nat
  = Some (base_points (RaceResult.mk 0 7 12 None 1 26 true None 1)).
Proof.
  refine (proj1 (points_from_table (RS := counter_source)
                   (context_with_race_state
                      [driver_a; driver_b; driver_without_team])
                   sample_final_positions 1%nat 2%nat sample_results
                   (RaceResult.mk 0 7 12 None 1 26 true None 1) _ _) _).
  - vm_compute. reflexivity.
  - by left.
  - cbn. lia.
Defined.

Lemma fastest_lap_at_most_once_witness :
  (length (filter RaceResult.fastest_lap sample_results) <= 1)%nat.
Proof.
  refine (proj1 (fastest_lap_at_most_once (RS := counter_source)
                   (context_with_race_state
                      [driver_a; driver_b; driver_without_team])
                   sample_final_positions 1%nat 2%nat sample_results _)).
  vm_compute. reflexivity.
Defined.

(** ** Further facts about the pipeline *)

Section PipelineFacts.
Context {RS : RandomSource}.

(** [simulate_race] returns the list of [_generate_race_results] as it is. *)
Lemma simulate_race_returns_generated (context : SimulationContext.t)
    (rng rng' : RandomState) (py py' : py_random)
    (results : list RaceResult.t) :
  simulate_race context rng py = Ok (results, rng', py') ->
  exists final_positions,
    _generate_race_results context final_positions py = Ok (results, py').
Proof.
  unfold simulate_race.
  destruct (_initialize_race_state context rng) as [race_state rng1].
  intros H. apply bind_Ok in H as ([final_positions rng2] & _ & H).
  apply bind_Ok in H as ([results' py''] & Hgen & [= <- <- <-]).
  by exists final_positions.
Qed.


End PipelineFacts.

(** ** Worked examples *)

(** A tier-1 team with budget 200: 0.8 + (200/400) * 0.2 = 0.9. *)
Example team_performance_sample :
  (_calculate_team_performance team_top == 0.9)%Q.
Proof. reflexivity. Qed.

(** Three drivers whose modal position is 1: they are served by descending
    skill (0.9, 0.5, 0.2). *)
Example resolver_collision_sample :
  _resolve_position_conflicts [(12, 1); (11, 1); (10, 1)]
    [driver_a; driver_b; driver_without_team]
  = Ok [(10, 1); (11, 2); (12, 3)].
Proof. reflexivity. Qed.

(** Two groups; the members of equal skill (11 and 13) keep the order of the
    group. *)
Example resolver_groups_sample :
  _resolve_position_conflicts [(12, 2); (11, 1); (13, 1); (10, 2)]
    [driver_a; driver_b; driver_without_team; driver_b_twin]
  = Ok [(11, 1); (13, 2); (10, 3); (12, 4)].
Proof. reflexivity. Qed.

(** Drivers 11 and 13 have the same qualifying-time estimate (1287/8); on
    the grid they stand in the order of the input list. *)
Example grid_tie_sample :
  grid_of (qualifying_times_of
             (context_plain [driver_b; driver_a; driver_b_twin]))
  = [(10, 1); (11, 2); (13, 3)]
  /\ grid_of (qualifying_times_of
                (context_plain [driver_b_twin; driver_a; driver_b]))
     = [(10, 1); (13, 2); (11, 3)].
Proof. split; reflexivity. Qed.

(** A whole run with the counter source, on a context that carries the
    attribute: the driver without team (12) is ranked second, ahead of an
    eligible driver. *)
Example run_sample :
  run (RS := counter_source) 42
    (context_with_race_state [driver_a; driver_b; driver_without_team]) 0%nat
  = Ok [ RaceResult.mk 0 7 10 (Some 1) 1 26 true None 1;
         RaceResult.mk 0 7 12 None 2 18 false None 2;
         RaceResult.mk 0 7 11 (Some 1) 3 15 false None 3 ].
Proof. vm_compute. reflexivity. Qed.

(** On the context of [run_sample] the performance model puts driver 11
    second on the grid; the record returned for it by [run_sample] carries
    its final position 3 instead, the attribute of that context having no
    grid entry to offer. *)
Example grid_sample :
  RaceState.grid_positions
    (_initialize_race_state (RS := counter_source)
       (context_with_race_state [driver_a; driver_b; driver_without_team])
       42%nat).1
  = [(10, 1); (11, 2)].
Proof. reflexivity. Qed.

(** * Further properties of the code *)

(** ** The resolver on arbitrary positions *)

Lemma add_to_group_get (position_groups : pydict (list Z))
    (driver_id position q : Z) :
  default [] (dict_get (add_to_group position_groups driver_id position) q)
  = default [] (dict_get position_groups q)
    ++ (if decide (position = q) then [driver_id] else []).
Proof.
  unfold add_to_group.
  destruct (dict_get position_groups position) as [driver_ids |] eqn:Hget;
    (destruct (decide (position = q)) as [<- | Hne];
     [rewrite dict_get_set_eq, Hget | rewrite dict_get_set_ne by done]);
    cbn; by rewrite ?app_nil_r.
Qed.

Lemma add_to_group_keys (position_groups : pydict (list Z))
    (driver_id position q : Z) :
  q ∈ dict_keys (add_to_group position_groups driver_id position)
  <-> q = position \/ q ∈ dict_keys position_groups.
Proof.
  unfold add_to_group.
  destruct (dict_get position_groups position); apply dict_keys_set_elem.
Qed.

Lemma ids_at_cons (q driver_id position : Z) (items : list (Z * Z)) :
  ids_at q ((driver_id, position) :: items)
  = (if decide (position = q) then [driver_id] else []) ++ ids_at q items.
Proof.
  unfold ids_at. rewrite filter_cons. cbn.
  by destruct (decide (position = q)).
Qed.

Lemma group_by_position_get (items : list (Z * Z))
    (position_groups : pydict (list Z)) (q : Z) :
  default [] (dict_get (group_by_position items position_groups) q)
  = default [] (dict_get position_groups q) ++ ids_at q items.
Proof.
  revert position_groups.
  induction items as [| [driver_id position] rest IH]; intros pg.
  - cbn. by rewrite app_nil_r.
  - cbn [group_by_position].
    by rewrite IH, add_to_group_get, ids_at_cons, app_assoc.
Qed.

Lemma group_by_position_keys (items : list (Z * Z))
    (position_groups : pydict (list Z)) (q : Z) :
  q ∈ dict_keys (group_by_position items position_groups)
  <-> q ∈ dict_keys position_groups \/ q ∈ items.*2.
Proof.
  revert position_groups.
  induction items as [| [driver_id position] rest IH]; intros pg.
  - cbn. split; [by left | by intros [? | ?%elem_of_nil]].
  - cbn [group_by_position]. rewrite IH, add_to_group_keys, fmap_cons,
      elem_of_cons. cbn. tauto.
Qed.

Lemma elem_of_ids_at (positions : pydict Z) (k p : Z) :
  k ∈ ids_at p positions <-> (k, p) ∈ positions.
Proof.
  unfold ids_at. rewrite list_elem_of_fmap. split.
  - intros ([k' p'] & -> & [Hp Hin]%list_elem_of_filter). cbn in *. by subst.
  - intros Hin. exists (k, p). split; [done |].
    by apply list_elem_of_filter.
Qed.

Lemma driver_skills_of_known (drivers : list Driver.t) (driver_ids : list Z) :
  (driver_skills_of drivers driver_ids).*1
  = filter (fun k => is_Some (find_driver drivers k)) driver_ids.
Proof.
  induction driver_ids as [| k ks IH]; [done |].
  cbn [driver_skills_of]. rewrite filter_cons.
  destruct (find_driver drivers k) as [d |] eqn:Hfind.
  - rewrite decide_True by done. cbn. by rewrite IH.
  - rewrite decide_False by (by intros [? ?]). exact IH.
Qed.

(** Who is served from a group: its only member, or else the members that
    are found among the drivers. *)
Lemma elem_of_group_order (drivers : list Driver.t) (driver_ids : list Z)
    (k : Z) :
  k ∈ group_order drivers driver_ids
  <-> k ∈ driver_ids
      /\ (driver_ids = [k] \/ is_Some (find_driver drivers k)).
Proof.
  assert (H : k ∈ (sorted_by_reverse snd
                     (driver_skills_of drivers driver_ids)).*1
              <-> k ∈ driver_ids /\ is_Some (find_driver drivers k)).
  { unfold sorted_by_reverse.
    rewrite stable_sort_Permutation, driver_skills_of_known.
    rewrite list_elem_of_filter. tauto. }
  destruct driver_ids as [| x [| y ys]]; cbn [group_order].
  - rewrite H. split; [intros [?%elem_of_nil _] | intros [?%elem_of_nil _]]; done.
  - rewrite list_elem_of_singleton. split.
    + intros ->. split; [done | by left].
    + by intros [? _].
  - rewrite H. split; [intros [? ?]; by eauto |].
    intros [Hin [[=] | Hknown]]. done.
Qed.

Lemma group_order_submseteq (drivers : list Driver.t) (driver_ids : list Z) :
  group_order drivers driver_ids ⊆+ driver_ids.
Proof.
  assert (H : (sorted_by_reverse snd
                 (driver_skills_of drivers driver_ids)).*1 ⊆+ driver_ids).
  { unfold sorted_by_reverse.
    rewrite stable_sort_Permutation, driver_skills_of_known.
    apply sublist_submseteq, sublist_filter. }
  by destruct driver_ids as [| x [| y ys]].
Qed.

Lemma submseteq_NoDup {A : Type} (l k : list A) : l ⊆+ k -> NoDup k -> NoDup l.
Proof.
  induction 1 as [| x l1 l2 Hsub IH | x y l | x l1 l2 Hsub IH
                  | l1 l2 l3 _ IH1 _ IH2].
  - done.
  - intros [Hx Hnd]%NoDup_cons. apply NoDup_cons. split; [| by apply IH].
    intros Hin. apply Hx. by eapply elem_of_submseteq.
  - intros Hnd. by rewrite (perm_swap x y l).
  - intros [_ Hnd]%NoDup_cons. by apply IH.
  - intros Hnd. by apply IH1, IH2.
Qed.

Lemma concat_submseteq {A : Type} (f : list A -> list A) (ls : list (list A)) :
  (forall l, f l ⊆+ l) -> concat (f <$> ls) ⊆+ concat ls.
Proof.
  intros Hf. induction ls as [| l ls IH]; [done |].
  cbn. by apply submseteq_app.
Qed.

Lemma resolution_order_groups (drivers : list Driver.t)
    (position_groups : pydict (list Z)) (positions : list Z) :
  NoDup (dict_keys position_groups) ->
  positions ≡ₚ dict_keys position_groups ->
  resolution_order drivers position_groups positions
  ≡ₚ concat (group_order drivers <$> position_groups.*2).
Proof.
  intros Hnd Hperm. unfold resolution_order.
  rewrite (list_bind_Permutation _ _ _ Hperm).
  assert (H : forall l : pydict (list Z),
            l ⊆ position_groups ->
            dict_keys l ≫= (fun position =>
              group_order drivers (default [] (dict_get position_groups position)))
            = concat (group_order drivers <$> l.*2)).
  { induction l as [| [k v] l IH]; intros Hsub; [done |].
    unfold dict_keys in *. rewrite !fmap_cons, bind_cons. cbn [concat fst snd].
    rewrite (dict_get_elem position_groups k v Hnd) by (apply Hsub; by left).
    cbn [default]. rewrite IH; [done |].
    intros x Hx. apply Hsub. by right. }
  by rewrite H.
Qed.

(** The resolver never raises: whatever the drivers are, the ids it keeps
    are numbered 1, 2, ... in the order in which it serves them. *)
Lemma resolve_position_conflicts_total (positions : pydict Z)
    (drivers : list Driver.t) :
  NoDup (dict_keys positions) ->
  let position_groups := group_by_position positions [] in
  let order :=
    resolution_order drivers position_groups
      (stable_sort Z.leb (dict_keys position_groups)) in
  _resolve_position_conflicts positions drivers
  = Ok (zip order (seqZ 1 (Z.of_nat (length order))))
  /\ NoDup order.
Proof.
  intros Hnd position_groups order.
  destruct (group_by_position_spec positions []) as [Hndg Hconcat];
    [constructor |].
  cbn in Hconcat. fold position_groups in Hndg, Hconcat.
  assert (Hnd_order : NoDup order).
  { unfold order. rewrite resolution_order_groups;
      [| done | apply stable_sort_Permutation].
    eapply submseteq_NoDup;
      [apply concat_submseteq, group_order_submseteq |].
    by rewrite Hconcat. }
  split; [| done]. unfold _resolve_position_conflicts.
  fold position_groups. rewrite resolve_loop_zip; [done | |].
  - intros p Hp. apply dict_get_is_Some.
    by rewrite stable_sort_Permutation in Hp.
  - done.
Qed.

Lemma elem_of_resolution_order (positions : pydict Z) (drivers : list Driver.t)
    (k : Z) :
  NoDup (dict_keys positions) ->
  k ∈ resolution_order drivers (group_by_position positions [])
        (stable_sort Z.leb (dict_keys (group_by_position positions [])))
  <-> exists p,
        dict_get positions k = Some p
        /\ (ids_at p positions = [k] \/ is_Some (find_driver drivers k)).
Proof.
  intros Hnd. unfold resolution_order. rewrite list_elem_of_bind.
  setoid_rewrite stable_sort_Permutation.
  setoid_rewrite group_by_position_get. cbn [dict_get default app].
  setoid_rewrite elem_of_group_order.
  setoid_rewrite elem_of_ids_at.
  split.
  - intros (p & (Hin & Hkept) & _). exists p.
    split; [by apply dict_get_elem | done].
  - intros (p & Hget & Hkept). apply dict_get_Some_elem in Hget as Hin.
    exists p. split; [done |].
    apply group_by_position_keys. right.
    apply list_elem_of_fmap. by exists (k, p).
Qed.

Lemma resolution_order_ids_at (positions : pydict Z) (drivers : list Driver.t)
    (ks : list Z) :
  resolution_order drivers (group_by_position positions []) ks
  = ks ≫= fun q => group_order drivers (ids_at q positions).
Proof.
  unfold resolution_order. induction ks as [| q ks IH]; [done |].
  rewrite !bind_cons, IH. by rewrite group_by_position_get.
Qed.

Lemma before_bind_between {A B : Type} (f : A -> list B) (l : list A)
    (x y : A) (a b : B) :
  before l x y -> a ∈ f x -> b ∈ f y -> before (l ≫= f) a b.
Proof.
  intros Hbefore Ha Hb. induction l as [| z l IH]; [done |].
  rewrite bind_cons. apply before_app.
  destruct Hbefore as [[-> Hy] | Hbefore].
  - right. right. split; [done |].
    apply list_elem_of_bind. by exists y.
  - right. left. by apply IH.
Qed.

Lemma before_bind_within {A B : Type} (f : A -> list B) (l : list A)
    (x : A) (a b : B) :
  x ∈ l -> before (f x) a b -> before (l ≫= f) a b.
Proof.
  intros Hx Hbefore. induction l as [| z l IH]; [by apply elem_of_nil in Hx |].
  rewrite bind_cons. apply before_app.
  apply elem_of_cons in Hx as [<- | Hx]; [by left |].
  right. left. by apply IH.
Qed.

Lemma before_filter {A : Type} (P : A -> Prop) `{forall x, Decision (P x)}
    (l : list A) (a b : A) :
  before l a b -> P a -> P b -> before (filter P l) a b.
Proof.
  intros Hbefore Ha Hb. induction l as [| x l IH]; [done |].
  rewrite filter_cons. destruct Hbefore as [[-> Hin] | Hbefore].
  - rewrite decide_True by done. left. split; [done |].
    by apply list_elem_of_filter.
  - destruct (decide (P x)); [right |]; by apply IH.
Qed.

(** In a list sorted ascending the smaller of two members stands first. *)
Lemma before_sorted_keys (l : list Z) (p q : Z) :
  p ∈ l -> q ∈ l -> p < q -> before (stable_sort Z.leb l) p q.
Proof.
  intros Hp Hq Hlt.
  rewrite <- (stable_sort_Permutation Z.leb l) in Hp, Hq.
  destruct (before_total _ _ _ Hp Hq) as [H | H]; [lia | done |].
  apply stable_sort_before in H; [lia | intros a b; lia | intros a b c; lia].
Qed.

Lemma zip_seqZ_before (order : list Z) (a b : Z) :
  NoDup order -> before order a b ->
  exists fa fb,
    dict_get (zip order (seqZ 1 (Z.of_nat (length order)))) a = Some fa
    /\ dict_get (zip order (seqZ 1 (Z.of_nat (length order)))) b = Some fb
    /\ 1 <= fa /\ fa < fb /\ fb <= Z.of_nat (length order).
Proof.
  intros Hnd (i & j & Hij & Hi & Hj)%before_lookup.
  apply lookup_lt_Some in Hj as Hlt.
  exists (1 + Z.of_nat i), (1 + Z.of_nat j).
  rewrite (dict_get_zip_seqZ order 1 i a), (dict_get_zip_seqZ order 1 j b)
    by done.
  repeat split; lia.
Qed.

Lemma before_driver_skills_of (drivers : list Driver.t) (driver_ids : list Z)
    (a b : Z) (da db : Driver.t) :
  before driver_ids a b ->
  find_driver drivers a = Some da ->
  find_driver drivers b = Some db ->
  before (driver_skills_of drivers driver_ids)
    (a, Driver.skill da) (b, Driver.skill db).
Proof.
  intros Hbefore Ha Hb. induction driver_ids as [| k ks IH]; [done |].
  cbn [driver_skills_of]. destruct Hbefore as [[-> Hin] | Hbefore].
  - rewrite Ha. left. split; [done |].
    clear IH. induction ks as [| k ks IH]; [by apply elem_of_nil in Hin |].
    cbn [driver_skills_of]. apply elem_of_cons in Hin as [<- | Hin].
    + rewrite Hb. by left.
    + destruct (find_driver drivers k); [right |]; by apply IH.
  - destruct (find_driver drivers k); [right |]; by apply IH.
Qed.

(** The position a kept id receives, read off the order of service. *)
Lemma resolve_before (positions : pydict Z) (drivers : list Driver.t)
    (a b : Z) :
  NoDup (dict_keys positions) ->
  before
    (resolution_order drivers (group_by_position positions [])
       (stable_sort Z.leb (dict_keys (group_by_position positions []))))
    a b ->
  exists final fa fb,
    _resolve_position_conflicts positions drivers = Ok final
    /\ dict_get final a = Some fa
    /\ dict_get final b = Some fb
    /\ 1 <= fa /\ fa < fb /\ fb <= Z.of_nat (length positions).
Proof.
  intros Hnd Hbefore.
  destruct (resolve_position_conflicts_total positions drivers Hnd)
    as [Hres Hnd_order].
  cbv zeta in Hres, Hnd_order.
  set (order := resolution_order _ _ _) in *.
  destruct (zip_seqZ_before order a b Hnd_order Hbefore)
    as (fa & fb & Ha & Hb & H1 & Hlt & Hub).
  exists (zip order (seqZ 1 (Z.of_nat (length order)))), fa, fb.
  repeat split; try done.
  assert (Hlen : (length order <= length positions)%nat); [| lia].
  destruct (group_by_position_spec positions []) as [Hndg Hconcat];
    [constructor |].
  cbn in Hconcat. unfold order.
  rewrite resolution_order_groups; [| done | apply stable_sort_Permutation].
  etransitivity;
    [apply submseteq_length, concat_submseteq, group_order_submseteq |].
  by rewrite Hconcat, length_fmap.
Qed.

(** X1: the resolver never raises.  The ids it keeps are the ids that are
    alone at their position and the ids found among the drivers; they
    receive the positions 1, 2, ..., each once; an id that shares its
    position and is not found among the drivers gets no position.  When
    every id is found, all ids are kept. *)
Theorem resolver_numbers_kept_drivers (positions : pydict Z)
    (drivers : list Driver.t) :
  NoDup (dict_keys positions) ->
  exists final,
    _resolve_position_conflicts positions drivers = Ok final
    /\ final.*2 = seqZ 1 (Z.of_nat (length final))
    /\ NoDup (dict_keys final)
    /\ (forall k,
          k ∈ dict_keys final
          <-> exists p,
                dict_get positions k = Some p
                /\ (ids_at p positions = [k]
                    \/ is_Some (find_driver drivers k)))
    /\ (Forall (fun k => k ∈ (Driver.id <$> drivers)) (dict_keys positions) ->
        dict_keys final ≡ₚ dict_keys positions).
Proof.
  intros Hnd.
  destruct (resolve_position_conflicts_total positions drivers Hnd)
    as [Hres Hnd_order].
  cbv zeta in Hres, Hnd_order.
  pose proof (elem_of_resolution_order positions drivers) as Hin.
  set (order := resolution_order _ _ _) in *.
  exists (zip order (seqZ 1 (Z.of_nat (length order)))).
  assert (Hlen : length (zip order (seqZ 1 (Z.of_nat (length order))))
                 = length order).
  { rewrite length_zip, length_seqZ. lia. }
  rewrite Hlen, dict_keys_zip_seqZ.
  split; [done |]. split; [apply snd_zip; rewrite length_seqZ; lia |].
  split; [done |]. split; [intros k; by apply Hin |].
  intros Hknown. apply NoDup_Permutation; [done | done |].
  intros k. rewrite Hin by done. split.
  - intros (p & Hget & _). apply dict_get_is_Some. by exists p.
  - intros Hk. apply dict_get_is_Some in Hk as Hget. destruct Hget as [p Hget].
    exists p. split; [done |]. right.
    rewrite Forall_forall in Hknown. by apply find_driver_is_Some, Hknown.
Qed.

Lemma resolver_numbers_kept_drivers_witness :
  exists final,
    _resolve_position_conflicts sample_unknown [driver_a; driver_b] = Ok final
    /\ final.*2 = seqZ 1 (Z.of_nat (length final)).
Proof.
  destruct (resolver_numbers_kept_drivers sample_unknown [driver_a; driver_b])
    as (final & Hres & Hseq & _).
  - apply (bool_decide_unpack _). vm_compute. exact I.
  - by exists final.
Defined.

(** X2: the resolver keeps the order of the contested positions: of two
    drivers of the list, the one whose modal position is smaller gets the
    smaller final position. *)
Theorem resolver_keeps_contested_order (positions : pydict Z)
    (drivers : list Driver.t) (a b pa pb : Z) :
  NoDup (dict_keys positions) ->
  dict_get positions a = Some pa ->
  dict_get positions b = Some pb ->
  is_Some (find_driver drivers a) ->
  is_Some (find_driver drivers b) ->
  pa < pb ->
  exists final fa fb,
    _resolve_position_conflicts positions drivers = Ok final
    /\ dict_get final a = Some fa
    /\ dict_get final b = Some fb
    /\ 1 <= fa /\ fa < fb /\ fb <= Z.of_nat (length positions).
Proof.
  intros Hnd Ha Hb Hka Hkb Hlt. apply resolve_before; [done |].
  rewrite resolution_order_ids_at.
  apply dict_get_Some_elem in Ha, Hb.
  apply (before_bind_between _ _ pa pb).
  - apply before_sorted_keys; [| | done];
      apply group_by_position_keys; right; apply list_elem_of_fmap.
    + by exists (a, pa).
    + by exists (b, pb).
  - apply elem_of_group_order. split; [by apply elem_of_ids_at | by right].
  - apply elem_of_group_order. split; [by apply elem_of_ids_at | by right].
Qed.

Lemma resolver_keeps_contested_order_witness :
  exists final fa fb,
    _resolve_position_conflicts sample_unknown [driver_a; driver_b] = Ok final
    /\ dict_get final 10 = Some fa
    /\ dict_get final 11 = Some fb
    /\ 1 <= fa /\ fa < fb /\ fb <= 3.
Proof.
  apply (resolver_keeps_contested_order sample_unknown [driver_a; driver_b]
           10 11 1 2); try done.
  apply (bool_decide_unpack _). vm_compute. exact I.
Defined.

(** X3: two drivers of the list with the same modal position are ranked by
    skill: the one that stands later in [positions] gets ahead exactly when
    its skill is strictly higher. *)
Theorem resolver_breaks_ties_by_skill (positions : pydict Z)
    (drivers : list Driver.t) (a b p : Z) (da db : Driver.t) :
  NoDup (dict_keys positions) ->
  before positions (a, p) (b, p) ->
  find_driver drivers a = Some da ->
  find_driver drivers b = Some db ->
  exists final fa fb,
    _resolve_position_conflicts positions drivers = Ok final
    /\ dict_get final a = Some fa
    /\ dict_get final b = Some fb
    /\ (fa < fb <-> (Driver.skill db <= Driver.skill da)%Q)
    /\ (fb < fa <-> (Driver.skill da < Driver.skill db)%Q).
Proof.
  intros Hnd Hbefore Hfa Hfb.
  assert (Hne : a <> b).
  { intros ->. apply (before_fmap fst) in Hbefore.
    by apply (before_NoDup _ _ _ Hnd) in Hbefore as Hbefore'. }
  assert (Hids : before (ids_at p positions) a b).
  { unfold ids_at. apply (before_fmap fst _ (a, p) (b, p)).
    by apply before_filter. }
  assert (Hp : p ∈ stable_sort Z.leb
                     (dict_keys (group_by_position positions []))).
  { rewrite stable_sort_Permutation. apply group_by_position_keys. right.
    apply before_elem in Hbefore as [Hin _].
    apply list_elem_of_fmap. by exists (a, p). }
  assert (Hgroup : group_order drivers (ids_at p positions)
                   = (sorted_by_reverse snd
                        (driver_skills_of drivers (ids_at p positions))).*1).
  { destruct (ids_at p positions) as [| x [| y ys]]; [done | | done].
    cbn in Hids. destruct Hids as [[_ []%elem_of_nil] | []]. }
  set (leb := fun x y : Z * Q => Qle_bool y.2 x.2).
  pose proof (before_driver_skills_of drivers _ a b da db Hids Hfa Hfb)
    as Hskills.
  assert (Hserve : forall x y : Z * Q,
            before (stable_sort leb
                      (driver_skills_of drivers (ids_at p positions))) x y ->
            exists final fx fy,
              _resolve_position_conflicts positions drivers = Ok final
              /\ dict_get final x.1 = Some fx
              /\ dict_get final y.1 = Some fy
              /\ fx < fy).
  { intros x y Hxy.
    destruct (resolve_before positions drivers x.1 y.1 Hnd)
      as (final & fx & fy & Hres & Hx & Hy & _ & Hlt & _).
    - rewrite resolution_order_ids_at.
      apply (before_bind_within _ _ p); [done |]. rewrite Hgroup.
      by apply before_fmap.
    - by exists final, fx, fy. }
  destruct (Qle_bool (Driver.skill db) (Driver.skill da)) eqn:Hle.
  - destruct (Hserve (a, Driver.skill da) (b, Driver.skill db))
      as (final & fa & fb & Hres & Ha & Hb & Hlt).
    { by apply stable_sort_stable. }
    exists final, fa, fb. apply Qle_bool_iff in Hle.
    repeat split; try done; try lia.
    intros Hlt'. by apply Qlt_not_le in Hlt'.
  - apply before_elem in Hskills as [Hina Hinb].
    rewrite <- (stable_sort_Permutation leb) in Hina, Hinb.
    destruct (before_total _ _ _ Hina Hinb) as [Hab | Hba].
    + intros [= ? _]. done.
    + apply stable_sort_before in Hab.
      * unfold leb in Hab. cbn in Hab. congruence.
      * intros x y. apply Qle_bool_total.
      * intros x y z Hxy Hyz. unfold leb in *.
        by apply (Qle_bool_trans _ y.2).
    + destruct (Hserve _ _ Hba) as (final & fb & fa & Hres & Hb & Ha & Hlt).
      exists final, fa, fb. apply Qle_bool_false in Hle.
      repeat split; try done; try lia.
      intros Hle'. by apply Qlt_not_le in Hle.
Qed.

Lemma resolver_breaks_ties_by_skill_witness :
  exists final fa fb,
    _resolve_position_conflicts sample_collision
      [driver_a; driver_b; driver_without_team] = Ok final
    /\ dict_get final 12 = Some fa
    /\ dict_get final 10 = Some fb
    /\ (fb < fa <-> (Driver.skill driver_without_team < Driver.skill driver_a)%Q).
Proof.
  destruct (resolver_breaks_ties_by_skill sample_collision
              [driver_a; driver_b; driver_without_team] 12 10 1
              driver_without_team driver_a)
    as (final & fa & fb & Hres & Ha & Hb & _ & Hgt).
  - apply (bool_decide_unpack _). vm_compute. exact I.
  - left. split; [done |]. right. by left.
  - done.
  - done.
  - by exists final, fa, fb.
Defined.

(** ** The modal position *)

Lemma argmax_from_spec (pre l : list Z) (best_index : nat) (best : Z) :
  (pre ++ l) !! best_index = Some best ->
  (best_index < length pre)%nat ->
  (forall k x, (k < length pre)%nat -> (pre ++ l) !! k = Some x -> x <= best) ->
  (forall k x, (k < best_index)%nat -> (pre ++ l) !! k = Some x -> x < best) ->
  exists m,
    (pre ++ l) !! argmax_from best_index best (length pre) l = Some m
    /\ (forall k x, (pre ++ l) !! k = Some x -> x <= m)
    /\ (forall k x,
          (k < argmax_from best_index best (length pre) l)%nat ->
          (pre ++ l) !! k = Some x -> x < m).
Proof.
  revert pre best_index best.
  induction l as [| y l IH]; intros pre bi b Hbest Hbi Hmax Hfirst.
  - cbn. exists b. split; [done |]. split; [| done].
    intros k x Hk. apply (Hmax k x); [| done].
    apply lookup_lt_Some in Hk. by rewrite app_nil_r in Hk.
  - cbn [argmax_from].
    assert (Hy : (pre ++ y :: l) !! length pre = Some y).
    { by rewrite lookup_app_r, Nat.sub_diag by lia. }
    replace (S (length pre)) with (length (pre ++ [y]))
      by (rewrite length_app; cbn; lia).
    rewrite (cons_middle y pre l), app_assoc in *.
    assert (Hlen : length (pre ++ [y]) = S (length pre))
      by (rewrite length_app; cbn; lia).
    destruct (b <? y) eqn:Hlt.
    + apply (IH (pre ++ [y]) (length pre) y).
      * exact Hy.
      * lia.
      * intros k x Hk Hx. rewrite Hlen in Hk.
        destruct (decide (k = length pre)) as [-> | Hne].
        -- rewrite Hy in Hx. injection Hx as ->. lia.
        -- assert (x <= b); [apply (Hmax k x); [lia | done] | lia].
      * intros k x Hk Hx.
        assert (x <= b); [apply (Hmax k x); [lia | done] | lia].
    + apply (IH (pre ++ [y]) bi b); [done | lia | | done].
      intros k x Hk Hx. rewrite Hlen in Hk.
      destruct (decide (k = length pre)) as [-> | Hne].
      * rewrite Hy in Hx. injection Hx as ->. lia.
      * apply (Hmax k x); [lia | done].
Qed.

(** The embedding of [np.argmax] returns the index of a largest entry, and
    of the first one: every earlier entry is strictly smaller. *)
Lemma np_argmax_spec (counts : list Z) :
  (counts = [] -> np_argmax counts = Raise ValueError)
  /\ (counts <> [] ->
      exists (i : nat) (m : Z),
        np_argmax counts = Ok (Z.of_nat i)
        /\ counts !! i = Some m
        /\ (forall k x, counts !! k = Some x -> x <= m)
        /\ (forall k x, (k < i)%nat -> counts !! k = Some x -> x < m)).
Proof.
  split; [by intros -> |]. intros Hne.
  destruct counts as [| c counts]; [done |]. cbn [np_argmax].
  destruct (argmax_from_spec [c] counts 0 c) as (m & Hm & Hmax & Hfirst).
  - done.
  - cbn. lia.
  - intros k x Hk Hx. cbn in Hk. assert (k = 0%nat) as -> by lia.
    cbn in Hx. injection Hx as ->. lia.
  - intros k x Hk. lia.
  - cbn [length app] in *. by eexists _, m.
Qed.

(** ** The performance model in numbers *)

Lemma Qdiv_le_compat (x y c : Q) : (0 < c -> x <= y -> x / c <= y / c)%Q.
Proof.
  intros Hc Hxy. unfold Qdiv. apply Qmult_le_compat_r; [done |].
  by apply Qlt_le_weak, Qinv_lt_0_compat.
Qed.

Lemma py_min_le_compat (a b c : Q) : (a <= b -> py_min a c <= py_min b c)%Q.
Proof.
  intros Hab.
  destruct (py_min_spec a c) as [[H1 ->] | [H1 ->]],
           (py_min_spec b c) as [[H2 ->] | [H2 ->]]; lra.
Qed.

(** X5: within a tier the performance factor never decreases when the budget
    grows, and it is at least the tier's base offset as soon as the budget
    is not negative. *)
Theorem team_performance_monotone (team1 team2 : Team.t) :
  Team.tier team1 = Team.tier team2 ->
  (Team.budget team1 <= Team.budget team2)%Q ->
  (_calculate_team_performance team1 <= _calculate_team_performance team2)%Q
  /\ ((0 <= Team.budget team1)%Q ->
      (tier_base (Team.tier team1) <= _calculate_team_performance team1)%Q).
Proof.
  intros Htier Hbudget. rewrite !team_performance_unfold, <- Htier.
  pose proof (tier_ceiling_pos (Team.tier team1)) as Hc.
  pose proof (tier_base_le_1 (Team.tier team1)) as Hbase.
  split.
  - apply py_min_le_compat.
    pose proof (Qdiv_le_compat _ _ _ Hc Hbudget). lra.
  - intros H0.
    assert (0 <= Team.budget team1 / tier_ceiling (Team.tier team1))%Q.
    { unfold Qdiv. apply Qmult_le_0_compat; [done |].
      by apply Qlt_le_weak, Qinv_lt_0_compat. }
    destruct (py_min_spec
                (tier_base (Team.tier team1)
                 + Team.budget team1 / tier_ceiling (Team.tier team1) * 0.2)%Q
                1.0%Q) as [[H1 ->] | [H1 ->]]; lra.
Qed.

Lemma team_performance_monotone_witness :
  (_calculate_team_performance team_in_debt
   <= _calculate_team_performance team_top)%Q.
Proof.
  apply (team_performance_monotone team_in_debt team_top); [done |].
  vm_compute. discriminate.
Defined.

Lemma configured_team_performance (tier : string) (team : Team.t) :
  configured_team tier team ->
  (tier = "tier1" -> (0.849 <= _calculate_team_performance team <= 1)%Q)
  /\ (tier = "tier2" ->
      (0.666 <= _calculate_team_performance team <= 0.801)%Q)
  /\ (tier = "tier3" ->
      (0.449 <= _calculate_team_performance team <= 0.601)%Q).
Proof.
  intros (Htier & lo & hi & Hrange & Hlo & Hhi).
  rewrite team_performance_unfold, Htier.
  split; [| split]; intros ->; cbn in Hrange; injection Hrange as <- <-;
    change (tier_base _) with 0.8%Q || change (tier_base _) with 0.6%Q
    || change (tier_base _) with 0.4%Q;
    change (tier_ceiling _) with 400.0%Q || change (tier_ceiling _) with 150.0%Q
    || change (tier_ceiling _) with 80.0%Q;
    match goal with
    | |- context [(?b / ?c)%Q] =>
        assert (b / c == b * / c)%Q as Hdiv by reflexivity;
        revert Hdiv; generalize (b / c)%Q; intros q Hdiv
    end;
    match goal with
    | |- context [py_min ?x ?y] =>
        destruct (py_min_spec x y) as [[H1 ->] | [H1 ->]]
    end;
    cbn in Hdiv; split; lra.
Qed.

(** X6: with budgets in the ranges that [config.py] sets for the tiers, the
    performance factor lies in [0.84, 1] for tier 1, in [0.66, 0.81] for
    tier 2 and in [0.44, 0.61] for tier 3, and a team of a higher tier is
    ahead by a margin: at least 0.04 between tiers 1 and 2, at least 0.05
    between tiers 2 and 3.  The bounds are not the extreme values of the
    formula (0.85, 0.8, 0.45, 0.6) but leave 0.01 to them, except for the
    cap 1, which [min] enforces: the engine computes in doubles, where
    tier 3 with the configured maximum 80 gives 0.6000000000000001. *)
Theorem configured_tiers_are_separated (team1 team2 team3 : Team.t) :
  configured_team "tier1" team1 ->
  configured_team "tier2" team2 ->
  configured_team "tier3" team3 ->
  (0.84 <= _calculate_team_performance team1 <= 1)%Q
  /\ (0.66 <= _calculate_team_performance team2 <= 0.81)%Q
  /\ (0.44 <= _calculate_team_performance team3 <= 0.61)%Q
  /\ (_calculate_team_performance team3 + 0.05
      <= _calculate_team_performance team2)%Q
  /\ (_calculate_team_performance team2 + 0.04
      <= _calculate_team_performance team1)%Q.
Proof.
  intros H1 H2 H3.
  apply configured_team_performance in H1 as (H1 & _ & _).
  apply configured_team_performance in H2 as (_ & H2 & _).
  apply configured_team_performance in H3 as (_ & _ & H3).
  specialize (H1 eq_refl). specialize (H2 eq_refl). specialize (H3 eq_refl).
  repeat split; lra.
Qed.

Lemma configured_tiers_are_separated_witness :
  (_calculate_team_performance team_low + 0.05
   <= _calculate_team_performance team_mid)%Q
  /\ (_calculate_team_performance team_mid + 0.04
      <= _calculate_team_performance team_top)%Q.
Proof.
  refine (proj2 (proj2 (proj2
            (configured_tiers_are_separated team_top team_mid team_low _ _ _))));
    (split; [done |]; eexists _, _; split; [reflexivity |];
     vm_compute; split; discriminate).
Defined.

Lemma valid_driver_a : valid_driver driver_a.
Proof. repeat split; vm_compute; discriminate. Defined.

Lemma valid_driver_a_slower : valid_driver driver_a_slower.
Proof. repeat split; vm_compute; discriminate. Defined.

(** X7: for a driver with attributes in [0, 1] and a track of difficulty in
    [0, 1], the track suitability lies in [0, 1] on every surface, and so
    does the strategy impact, which is exactly 0.5 when the team does not
    resolve. *)
Theorem suitability_and_strategy_range (driver : Driver.t)
    (context : SimulationContext.t) :
  valid_driver driver ->
  (0 <= Track.difficulty (SimulationContext.track context) <= 1)%Q ->
  (0 <= _calculate_track_suitability driver (SimulationContext.track context)
   <= 1)%Q
  /\ (get_team context driver = None ->
      _simulate_strategy_impact driver context = 0.5%Q)
  /\ (forall team,
        get_team context driver = Some team ->
        (0 <= Team.budget team)%Q ->
        (0.31 <= _simulate_strategy_impact driver context <= 0.9)%Q).
Proof.
  intros (Hs & Hc & Hg & Hr & Ha) Hd. split; [| split].
  - unfold _calculate_track_suitability.
    set (difficulty := Track.difficulty (SimulationContext.track context)) in *.
    assert (Hf : (0 <= difficulty * (1.0 - Driver.adaptability driver) <= 1)%Q)
      by (split; nra).
    destruct (String.eqb _ "tarmac"); [| destruct (String.eqb _ "gravel")].
    + assert (0 <= Driver.skill driver * 0.5 + Driver.racecraft driver * 0.3
                   + Driver.consistency driver * 0.2 <= 1)%Q by lra.
      split; nra.
    + assert (0 <= Driver.adaptability driver * 0.5 + Driver.skill driver * 0.3
                   + Driver.aggression driver * 0.2 <= 1)%Q by lra.
      split; nra.
    + assert (0 <= Driver.adaptability driver * 0.4 + Driver.skill driver * 0.3
                   + Driver.racecraft driver * 0.3 <= 1)%Q by lra.
      split; nra.
  - intros Hteam. unfold _simulate_strategy_impact. by rewrite Hteam.
  - intros team Hteam Hbudget. unfold _simulate_strategy_impact. rewrite Hteam.
    pose proof (team_performance_le_1 team) as Hle.
    assert (Hge : (0.4 <= _calculate_team_performance team)%Q).
    { rewrite team_performance_unfold.
      pose proof (tier_ceiling_pos (Team.tier team)) as Hpos.
      assert (0 <= Team.budget team / tier_ceiling (Team.tier team))%Q.
      { unfold Qdiv. apply Qmult_le_0_compat; [done |].
        by apply Qlt_le_weak, Qinv_lt_0_compat. }
      assert (0.4 <= tier_base (Team.tier team))%Q.
      { unfold tier_base.
        destruct (String.eqb _ "tier1"); [lra |].
        destruct (String.eqb _ "tier2"); lra. }
      match goal with
      | |- context [py_min ?x ?y] =>
          destruct (py_min_spec x y) as [[H1 ->] | [H1 ->]]
      end; lra. }
    generalize dependent (_calculate_team_performance team). intros perf Hle Hge.
    assert (((0.5 + perf * 0.3 + Driver.racecraft driver) / 2.0
             == (0.5 + perf * 0.3 + Driver.racecraft driver) * 0.5)%Q) as ->
      by field.
    split; lra.
Qed.

Lemma suitability_and_strategy_range_witness :
  (0 <= _calculate_track_suitability driver_a
          (SimulationContext.track (context_plain [driver_a])) <= 1)%Q.
Proof.
  refine (proj1 (suitability_and_strategy_range driver_a
                   (context_plain [driver_a]) valid_driver_a _)).
  vm_compute. split; discriminate.
Defined.

(** X8: the qualifying-time estimate of a driver with attributes in [0, 1],
    on a track of difficulty in [0, 1], is at least 90; it does not grow
    when the skill grows (the other attributes being the same), nor when
    the team's performance factor grows. *)
Theorem qualifying_time_monotone (context : SimulationContext.t)
    (driver1 driver2 : Driver.t) (team1 team2 : Team.t) :
  valid_driver driver1 ->
  valid_driver driver2 ->
  (0 <= Track.difficulty (SimulationContext.track context) <= 1)%Q ->
  (90 <= qualifying_time context driver1 team1)%Q
  /\ ((Driver.consistency driver1 == Driver.consistency driver2)%Q ->
      (Driver.racecraft driver1 == Driver.racecraft driver2)%Q ->
      (Driver.adaptability driver1 == Driver.adaptability driver2)%Q ->
      (Driver.skill driver1 <= Driver.skill driver2)%Q ->
      (qualifying_time context driver2 team1
       <= qualifying_time context driver1 team1)%Q)
  /\ ((_calculate_team_performance team1
       <= _calculate_team_performance team2)%Q ->
      (qualifying_time context driver1 team2
       <= qualifying_time context driver1 team1)%Q).
Proof.
  intros (Hs1 & Hc1 & _ & Hr1 & Ha1) (Hs2 & Hc2 & _ & Hr2 & Ha2) Hd.
  unfold qualifying_time.
  pose proof (team_performance_le_1 team1) as Hp1.
  pose proof (team_performance_le_1 team2) as Hp2.
  generalize dependent (_calculate_team_performance team1). intros p1 Hp1.
  generalize dependent (_calculate_team_performance team2). intros p2 Hp2.
  set (difficulty := Track.difficulty (SimulationContext.track context)) in *.
  assert (Ht1 : (0.9 <= 1.0 - difficulty * Driver.adaptability driver1 * 0.1
                 <= 1)%Q) by (split; nra).
  assert (Hf1 : (1 <= 2.0 - (Driver.skill driver1 * 0.4
                            + Driver.consistency driver1 * 0.3
                            + Driver.racecraft driver1 * 0.3) <= 2)%Q) by lra.
  assert (Hf2 : (1 <= 2.0 - (Driver.skill driver2 * 0.4
                            + Driver.consistency driver2 * 0.3
                            + Driver.racecraft driver2 * 0.3) <= 2)%Q) by lra.
  split; [| split].
  - assert (1 <= (2.0 - (Driver.skill driver1 * 0.4
                         + Driver.consistency driver1 * 0.3
                         + Driver.racecraft driver1 * 0.3)) * (2.0 - p1))%Q
      by nra.
    nra.
  - intros Hc Hr Ha Hs. rewrite <- Hc, <- Hr, <- Ha.
    assert (Hw : (0 <= (2.0 - p1)
                       * (1.0 - difficulty * Driver.adaptability driver1 * 0.1))%Q)
      by nra.
    nra.
  - intros Hp.
    assert (Hw : (0 <= (2.0 - (Driver.skill driver1 * 0.4
                               + Driver.consistency driver1 * 0.3
                               + Driver.racecraft driver1 * 0.3))
                       * (1.0 - difficulty * Driver.adaptability driver1 * 0.1))%Q)
      by nra.
    nra.
Qed.

Lemma qualifying_time_monotone_witness :
  (qualifying_time (context_plain [driver_a]) driver_a team_top
   <= qualifying_time (context_plain [driver_a]) driver_a_slower team_top)%Q.
Proof.
  refine (proj1 (proj2 (qualifying_time_monotone (context_plain [driver_a])
                          driver_a_slower driver_a team_top team_top
                          valid_driver_a_slower valid_driver_a _)) _ _ _ _);
    vm_compute; try split; discriminate || reflexivity.
Defined.

(** ** One trial *)

(** Numbering a stably sorted dictionary from 1: of two entries, the one
    listed first gets the smaller number exactly when the order does not put
    it strictly after the other. *)
Lemma sorted_numbering_order (leb : Z * Q -> Z * Q -> bool) (d : pydict Q)
    (x y : Z * Q) :
  (forall a b, leb a b = true \/ leb b a = true) ->
  (forall a b c, leb a b = true -> leb b c = true -> leb a c = true) ->
  NoDup (dict_keys d) ->
  before d x y ->
  exists px py,
    dict_get (positions_loop (enumerate_from 1 (stable_sort leb d)) []) x.1
    = Some px
    /\ dict_get (positions_loop (enumerate_from 1 (stable_sort leb d)) []) y.1
       = Some py
    /\ 1 <= px <= Z.of_nat (length d)
    /\ 1 <= py <= Z.of_nat (length d)
    /\ (px < py <-> leb x y = true)
    /\ (py < px <-> leb x y = false).
Proof.
  intros Htotal Htrans Hnd Hbefore.
  set (s := stable_sort leb d).
  assert (Hperm : s ≡ₚ d) by apply stable_sort_Permutation.
  assert (Hnds : NoDup s.*1) by (by rewrite Hperm).
  assert (Hlen : length s = length d) by (by rewrite Hperm).
  rewrite positions_loop_zip by done. cbn [app].
  assert (Hpos : forall u v : Z * Q, before s u v ->
            exists pu pv,
              dict_get (zip s.*1 (seqZ 1 (Z.of_nat (length s)))) u.1 = Some pu
              /\ dict_get (zip s.*1 (seqZ 1 (Z.of_nat (length s)))) v.1 = Some pv
              /\ 1 <= pu < pv /\ pv <= Z.of_nat (length s)).
  { intros u v (i & j & Hij & Hi & Hj)%before_lookup.
    assert (Hi' : s.*1 !! i = Some u.1) by (by rewrite list_lookup_fmap, Hi).
    assert (Hj' : s.*1 !! j = Some v.1) by (by rewrite list_lookup_fmap, Hj).
    apply lookup_lt_Some in Hj as Hjlt.
    exists (1 + Z.of_nat i), (1 + Z.of_nat j).
    rewrite <- (length_fmap fst s).
    rewrite (dict_get_zip_seqZ _ _ i) by done.
    rewrite (dict_get_zip_seqZ _ _ j) by done.
    rewrite length_fmap. repeat split; lia. }
  assert (Hne : x <> y).
  { intros ->. apply (before_fmap fst) in Hbefore.
    by apply (before_NoDup _ _ _ Hnd) in Hbefore as Hbefore'. }
  destruct (leb x y) eqn:Hle.
  - apply (stable_sort_stable leb) in Hbefore; [| done].
    destruct (Hpos _ _ Hbefore) as (px & py & Hx & Hy & Hlt & Hub).
    exists px, py. fold s. rewrite Hx, Hy, <- Hlen.
    repeat split; try done; lia.
  - apply before_elem in Hbefore as [Hx Hy].
    rewrite <- Hperm in Hx, Hy.
    destruct (before_total s _ _ Hx Hy Hne) as [Hxy | Hyx].
    + apply stable_sort_before in Hxy; [congruence | done | done].
    + destruct (Hpos _ _ Hyx) as (py & px & Hy' & Hx' & Hlt & Hub).
      exists px, py. fold s. rewrite Hx', Hy', <- Hlen.
      repeat split; try done; lia.
Qed.

Section TrialRanking.
Context {RS : RandomSource}.

Lemma race_performance_loop_keys (context : SimulationContext.t)
    (race_state : RaceState.t) (drivers : list Driver.t) (perf : pydict Q)
    (rng rng' : RandomState) (k : Z) :
  race_performance_loop context race_state drivers [] rng = Ok (perf, rng') ->
  k ∈ dict_keys perf
  <-> k ∈ (Driver.id <$> drivers)
      /\ is_Some (dict_get (RaceState.car_performance race_state) k).
Proof.
  intros Hloop. split.
  - intros [score Hscore]%dict_get_is_Some.
    destruct (race_performance_loop_scores _ _ _ _ _ _ _ _ _ Hloop Hscore)
      as [Hnil | (driver & rng1 & Hdriver & <- & base & form & Hbase & _)];
      [done |].
    split; [apply list_elem_of_fmap; by exists driver | by rewrite Hbase].
  - intros H. apply (race_performance_loop_covers _ _ _ _ _ _ _ _ Hloop).
    by right.
Qed.

(** X9: one trial.  When every driver with a car-performance entry has a
    form entry, the trial returns; it ranks exactly the drivers of the list
    that have a car-performance entry, numbering them 1, 2, ..., m without
    gaps or repeats; of two ranked drivers the one with the strictly higher
    score gets the better position, and with equal scores the one scored
    first does (the descending sort is stable). *)
Theorem trial_ranks_by_descending_score (context : SimulationContext.t)
    (race_state : RaceState.t) (rng : RandomState) :
  (forall k, is_Some (dict_get (RaceState.car_performance race_state) k) ->
             is_Some (dict_get (RaceState.driver_form race_state) k)) ->
  exists race_performance race_outcome rng',
    race_performance_loop context race_state
      (SimulationContext.drivers context) [] rng
    = Ok (race_performance, rng')
    /\ _simulate_single_race_iteration context race_state rng
       = Ok (race_outcome, rng')
    /\ (forall k,
          k ∈ dict_keys race_outcome
          <-> k ∈ (Driver.id <$> SimulationContext.drivers context)
              /\ is_Some (dict_get (RaceState.car_performance race_state) k))
    /\ NoDup (dict_keys race_outcome)
    /\ race_outcome.*2 = seqZ 1 (Z.of_nat (length race_outcome))
    /\ forall a b sa sb,
         before race_performance (a, sa) (b, sb) ->
         exists pa pb,
           dict_get race_outcome a = Some pa
           /\ dict_get race_outcome b = Some pb
           /\ (pa < pb <-> (sb <= sa)%Q)
           /\ (pb < pa <-> (sa < sb)%Q).
Proof.
  intros Hform. unfold _simulate_single_race_iteration.
  destruct (race_performance_loop_Ok context race_state
              (SimulationContext.drivers context) [] rng Hform)
    as (perf & rng' & Hloop).
  rewrite Hloop. cbn [mbind result_bind].
  exists perf. eexists _, rng'. split; [done |]. split; [done |].
  assert (Hnd : NoDup (dict_keys perf)).
  { apply (race_performance_loop_NoDup _ _ _ _ _ _ _ Hloop). constructor. }
  assert (Hperm : sorted_by_reverse snd perf ≡ₚ perf)
    by apply stable_sort_Permutation.
  assert (Hzip : positions_loop (enumerate_from 1 (sorted_by_reverse snd perf)) []
                 = zip (sorted_by_reverse snd perf).*1
                     (seqZ 1 (Z.of_nat (length (sorted_by_reverse snd perf).*1)))).
  { rewrite positions_loop_zip by (cbn; by rewrite Hperm).
    by rewrite length_fmap. }
  split; [| split; [| split]].
  - intros k. rewrite Hzip, dict_keys_zip_seqZ.
    rewrite <- (race_performance_loop_keys _ _ _ _ _ _ k Hloop).
    unfold dict_keys. by rewrite Hperm.
  - rewrite Hzip, dict_keys_zip_seqZ. by rewrite Hperm.
  - rewrite Hzip at 1. rewrite snd_zip by (rewrite length_seqZ; lia).
    rewrite Hzip, length_zip, length_seqZ, length_fmap.
    f_equal. lia.
  - intros a b sa sb Hbefore.
    destruct (sorted_numbering_order
                (fun u v : Z * Q => Qle_bool v.2 u.2) perf (a, sa) (b, sb))
      as (pa & pb & Ha & Hb & _ & _ & Hlt & Hgt); [| | done | done |].
    + intros u v. apply Qle_bool_total.
    + intros u v w Huv Hvw. by apply (Qle_bool_trans w.2 v.2 u.2).
    + exists pa, pb. cbn in Ha, Hb, Hlt, Hgt.
      unfold sorted_by_reverse. rewrite Ha, Hb.
      split; [done |]. split; [done |]. split.
      * by rewrite Hlt, Qle_bool_iff.
      * rewrite Hgt. split.
        -- apply Qle_bool_false.
        -- intros Hlt'. destruct (Qle_bool sb sa) eqn:Hle; [| done].
           apply Qle_bool_iff in Hle. by apply Qlt_not_le in Hlt'.
Qed.

End TrialRanking.

Lemma trial_ranks_by_descending_score_witness :
  exists race_outcome rng',
    _simulate_single_race_iteration (RS := counter_source)
      (context_plain [driver_a; driver_b])
      (_initialize_race_state (RS := counter_source)
         (context_plain [driver_a; driver_b]) 42%nat).1 7%nat
    = Ok (race_outcome, rng')
    /\ race_outcome.*2 = seqZ 1 (Z.of_nat (length race_outcome)).
Proof.
  destruct (trial_ranks_by_descending_score (RS := counter_source)
              (context_plain [driver_a; driver_b])
              (_initialize_race_state (RS := counter_source)
                 (context_plain [driver_a; driver_b]) 42%nat).1 7%nat)
    as (perf & outcome & rng' & _ & Hrun & _ & _ & Hseq & _).
  - intros k. apply (initialize_race_state_forms (RS := counter_source)).
  - exists outcome, rng'. split; [exact Hrun | exact Hseq].
Defined.

(** ** The whole pipeline on a context that carries [race_state] *)

Lemma sumZ_app (l1 l2 : list Z) : sumZ (l1 ++ l2) = sumZ l1 + sumZ l2.
Proof. induction l1 as [| x l1 IH]; cbn; [done |]. unfold sumZ in *. lia. Qed.

Lemma sumZ_Permutation (l1 l2 : list Z) : l1 ≡ₚ l2 -> sumZ l1 = sumZ l2.
Proof.
  induction 1 as [| x l1 l2 _ IH | x y l | l1 l2 l3 _ IH1 _ IH2]; cbn;
    unfold sumZ in *; cbn; lia.
Qed.

Lemma sumZ_take_le (n : nat) (l : list Z) :
  Forall (fun x => 0 <= x) l -> 0 <= sumZ (take n l) <= sumZ l.
Proof.
  intros Hl. revert n. induction Hl as [| x l Hx _ IH]; intros [| n]; cbn;
    try lia.
  - fold (sumZ l). specialize (IH 0%nat). rewrite take_0 in IH. cbn in IH. lia.
  - fold (sumZ l) (sumZ (take n l)). specialize (IH n). lia.
Qed.

(** The points of the positions 1..n are the first n entries of the table. *)
Lemma points_of_positions (n : nat) (points : list Z) :
  Forall2 (fun p v => points_for p = Ok v) (seqZ 1 (Z.of_nat n)) points ->
  sumZ points = sumZ (take n points_system).
Proof.
  intros H.
  assert (Hhead : forall m : nat, (m <= 10)%nat ->
            Forall2 (fun p v => points_for p = Ok v) (seqZ 1 (Z.of_nat m))
              (take m points_system)).
  { intros m Hm.
    do 11 (destruct m as [| m];
           [vm_compute; repeat constructor |]).
    lia. }
  assert (Hfun : forall ps vs ws,
            Forall2 (fun p v => points_for p = Ok v) ps vs ->
            Forall2 (fun p v => points_for p = Ok v) ps ws -> vs = ws).
  { intros ps vs ws Hv. revert ws.
    induction Hv as [| p v ps vs Hp _ IH]; intros ws Hw;
      inversion Hw as [| ? w ? ws' Hp' Hw']; subst; [done |].
    f_equal; [congruence | by apply IH]. }
  destruct (decide (n <= 10)%nat) as [Hle | Hgt].
  - by rewrite (Hfun _ _ _ H (Hhead n Hle)).
  - replace n with (10 + (n - 10))%nat in H by lia.
    rewrite Nat2Z.inj_add, seqZ_app in H by lia.
    apply Forall2_app_inv_l in H as (vs & ws & Hvs & Hws & ->).
    rewrite (Hfun _ _ _ Hvs (Hhead 10%nat (Nat.le_refl _))).
    rewrite sumZ_app. rewrite !take_ge by (cbn; lia).
    assert (Hzero : sumZ ws = 0).
    { assert (Hws' : Forall (fun v => v = 0) ws).
      { apply Forall_forall. intros v (i & Hi)%list_elem_of_lookup_1.
        destruct (Forall2_lookup_r _ _ _ _ _ Hws Hi) as (p & Hp & Hv).
        apply list_elem_of_lookup_2, elem_of_seqZ in Hp.
        apply (points_for_table p v Hv). lia. }
      clear -Hws'. induction Hws' as [| v ws -> _ IH]; [done |].
      cbn. exact IH. }
    lia.
Qed.

Lemma points_system_prefix (n : nat) :
  (0 < n)%nat -> 25 <= sumZ (take n points_system) <= 101.
Proof.
  intros Hn. destruct n as [| n]; [lia |].
  pose proof (sumZ_take_le n [18; 15; 12; 10; 8; 6; 4; 2; 1]) as Hle.
  assert (Hall : Forall (fun x => 0 <= x) [18; 15; 12; 10; 8; 6; 4; 2; 1])
    by (repeat constructor; lia).
  specialize (Hle Hall). cbn in Hle |- *.
  fold (sumZ (take n [18; 15; 12; 10; 8; 6; 4; 2; 1])). lia.
Qed.

Lemma total_points_award (l1 l2 : list RaceResult.t) (r : RaceResult.t) :
  total_points (l1 ++ with_fastest_lap r :: l2)
  = 1 + total_points (l1 ++ r :: l2).
Proof.
  unfold total_points. rewrite !fmap_app, !fmap_cons, !sumZ_app. cbn.
  unfold sumZ. lia.
Qed.

Section PipelineRecords.
Context {RS : RandomSource}.

(** What [simulate_race] returns: the records of the loop, one per driver in
    list order, one of the top ten awarded the fastest lap, then sorted. *)
Lemma simulate_race_records (context : SimulationContext.t)
    (rng : RandomState) (py : py_random) (attribute : option (pydict Z)) :
  SimulationContext.race_state context = Some attribute ->
  NoDup (Driver.id <$> SimulationContext.drivers context) ->
  exists records awarded rng' py',
    simulate_race context rng py
    = Ok (stable_sort
            (fun a b => RaceResult.position a <=? RaceResult.position b)
            awarded, rng', py')
    /\ Forall2
         (fun d r =>
            exists points,
              points_for (RaceResult.position r) = Ok points
              /\ r = result_record context (default [] attribute) d
                       (RaceResult.position r) points)
         (SimulationContext.drivers context) records
    /\ RaceResult.position <$> records
       ≡ₚ seqZ 1 (Z.of_nat (length (SimulationContext.drivers context)))
    /\ ((records = [] /\ awarded = [])
        \/ exists l1 r l2,
             records = l1 ++ r :: l2
             /\ is_top_10 r = true
             /\ awarded = l1 ++ with_fastest_lap r :: l2).
Proof.
  intros Hattr Hids. unfold simulate_race.
  destruct (final_positions_spec context rng)
    as (order & rng' & Hrun & Hnd & Hin & Hpos & Hsome).
  destruct (_initialize_race_state context rng) as [race_state rng1].
  cbn [fst snd] in Hrun. rewrite Hrun. cbn [mbind result_bind].
  set (final_positions := zip order (seqZ 1 (Z.of_nat (length order)))) in *.
  assert (Hperm : order ≡ₚ Driver.id <$> SimulationContext.drivers context).
  { apply NoDup_Permutation; [exact Hnd | exact Hids | exact Hin]. }
  assert (Hlen : length order = length (SimulationContext.drivers context))
    by (by rewrite Hperm, length_fmap).
  unfold _generate_race_results.
  destruct (results_loop_Ok context final_positions
              (SimulationContext.drivers context) [] attribute Hattr)
    as (records & -> & Hrecords).
  { apply Forall_forall. intros d Hd.
    destruct (Hsome (Driver.id d)) as [p Hp].
    - apply Hin, list_elem_of_fmap. by exists d.
    - exists p. split; [done |]. by eapply Hpos. }
  cbn [mbind result_bind app].
  assert (Hseq : RaceResult.position <$> records
                 ≡ₚ seqZ 1 (Z.of_nat (length (SimulationContext.drivers context)))).
  { apply Forall2_positions in Hrecords as [Hpositions _].
    rewrite Hpositions, <- Hperm, <- Hlen. unfold final_positions.
    by rewrite dict_get_zip_seqZ_fmap. }
  assert (Hrecords' :
            Forall2
              (fun d r =>
                 exists points,
                   points_for (RaceResult.position r) = Ok points
                   /\ r = result_record context (default [] attribute) d
                            (RaceResult.position r) points)
              (SimulationContext.drivers context) records).
  { eapply Forall2_impl; [exact Hrecords |].
    intros d r (points & Hp & _ & Hr). by exists points. }
  rewrite assign_fastest_lap_eq.
  destruct (filter is_top_10 records) as [| t top_10] eqn:Htop.
  - cbn [mbind result_bind]. exists records, records, rng', py.
    split; [done |]. split; [done |]. split; [done |]. left.
    destruct records as [| r records]; [done |]. exfalso.
    apply Forall2_length in Hrecords'. cbn [length] in Hrecords'.
    assert (H1 : 1 ∈ RaceResult.position <$> (r :: records)).
    { rewrite Hseq, elem_of_seqZ. lia. }
    apply list_elem_of_fmap in H1 as (r1 & Hr1 & Hin1).
    assert (Hin' : r1 ∈ filter is_top_10 (r :: records)).
    { apply list_elem_of_filter. split; [| done].
      unfold is_top_10. rewrite <- Hr1. done. }
    rewrite Htop in Hin'. by apply elem_of_nil in Hin'.
  - pose proof (randbelow_lt (length (t :: top_10)) py) as Hlt.
    destruct (randbelow (length (t :: top_10)) py) as [k py'].
    cbn [mbind result_bind].
    destruct (award_fastest_lap_split k records) as (l1 & r & l2 & Heq & Hr & Haw).
    { rewrite Htop. apply Hlt. cbn. lia. }
    exists records, (award_fastest_lap k records), rng', py'.
    split; [done |]. split; [done |]. split; [done |]. right.
    by exists l1, r, l2.
Qed.

(** X10: the whole pipeline on a context that carries the attribute
    [race_state] and lists every driver id once.  [simulate_race] returns one
    record per listed driver, with or without a team; the positions of the
    returned list are 1, 2, ..., N in this order; every record carries id 0,
    the race id of the context, the id and the team reference of its driver,
    no DNF reason, and as grid position the driver's entry in the
    attribute's grid or, without one, the final position. *)
Theorem engine_ranks_every_listed_driver (context : SimulationContext.t)
    (rng : RandomState) (py : py_random) (attribute : option (pydict Z)) :
  SimulationContext.race_state context = Some attribute ->
  NoDup (Driver.id <$> SimulationContext.drivers context) ->
  exists results rng' py',
    simulate_race context rng py = Ok (results, rng', py')
    /\ RaceResult.position <$> results
       = seqZ 1 (Z.of_nat (length (SimulationContext.drivers context)))
    /\ RaceResult.driver_id <$> results
       ≡ₚ Driver.id <$> SimulationContext.drivers context
    /\ Forall
         (fun r =>
            exists driver,
              driver ∈ SimulationContext.drivers context
              /\ describes context (default [] attribute) driver r)
         results.
Proof.
  intros Hattr Hids.
  destruct (simulate_race_with_attribute context rng py attribute Hattr Hids)
    as (results & rng' & py' & Hrun & Hpositions & Hdrivers).
  exists results, rng', py'.
  split; [done |]. split; [done |]. split; [done |].
  destruct (simulate_race_records context rng py attribute Hattr Hids)
    as (records & awarded & rng'' & py'' & Hrun' & Hrecords & _ & Haward).
  rewrite Hrun in Hrun'. injection Hrun' as -> _ _.
  apply Forall_forall. intros r'. rewrite stable_sort_Permutation. intros Hr'.
  assert (Hrecord : forall r, r ∈ records ->
            exists driver,
              driver ∈ SimulationContext.drivers context
              /\ describes context (default [] attribute) driver r
              /\ describes context (default [] attribute) driver
                   (with_fastest_lap r)).
  { intros r (i & Hi)%list_elem_of_lookup_1.
    destruct (Forall2_lookup_r _ _ _ _ _ Hrecords Hi)
      as (driver & Hd & points & _ & Hr).
    exists driver. split; [by eapply list_elem_of_lookup_2 |].
    rewrite Hr. by split. }
  destruct Haward as [[-> ->] | (l1 & r & l2 & -> & _ & ->)].
  - by apply elem_of_nil in Hr'.
  - apply elem_of_app in Hr' as [Hr' | Hr'];
      [| apply elem_of_cons in Hr' as [-> | Hr']].
    + destruct (Hrecord r') as (driver & Hd & Hdesc & _).
      { apply elem_of_app. by left. }
      by exists driver.
    + destruct (Hrecord r) as (driver & Hd & _ & Hdesc).
      { apply elem_of_app. right. by left. }
      by exists driver.
    + destruct (Hrecord r') as (driver & Hd & Hdesc & _).
      { apply elem_of_app. right. by right. }
      by exists driver.
Qed.

(** X11: on such a context with at least one driver the points of a race add
    up to the first min(N, 10) entries of the table plus the one bonus
    point, which is always awarded; they never exceed 102. *)
Theorem race_total_points (context : SimulationContext.t)
    (rng : RandomState) (py : py_random) (attribute : option (pydict Z)) :
  SimulationContext.race_state context = Some attribute ->
  NoDup (Driver.id <$> SimulationContext.drivers context) ->
  SimulationContext.drivers context <> [] ->
  exists results rng' py',
    simulate_race context rng py = Ok (results, rng', py')
    /\ total_points results
       = 1 + sumZ (take (length (SimulationContext.drivers context))
                     points_system)
    /\ 26 <= total_points results <= 102
    /\ length (filter RaceResult.fastest_lap results) = 1%nat.
Proof.
  intros Hattr Hids Hne.
  destruct (simulate_race_records context rng py attribute Hattr Hids)
    as (records & awarded & rng' & py' & Hrun & Hrecords & Hseq & Haward).
  eexists _, rng', py'. split; [exact Hrun |].
  destruct Haward as [[-> ->] | (l1 & r & l2 & -> & Htop & ->)].
  { apply Forall2_length in Hrecords. cbn in Hrecords.
    by destruct (SimulationContext.drivers context). }
  set (n := length (SimulationContext.drivers context)) in *.
  assert (Hpoints : total_points (l1 ++ r :: l2)
                    = sumZ (take n points_system)).
  { unfold total_points. set (records := l1 ++ r :: l2) in *.
    assert (Hall : Forall (fun r => points_for (RaceResult.position r)
                                    = Ok (RaceResult.points r)) records).
    { apply Forall_forall. intros r0 (i & Hi)%list_elem_of_lookup_1.
      destruct (Forall2_lookup_r _ _ _ _ _ Hrecords Hi)
        as (driver & _ & points & Hp & Hr).
      rewrite Hr at 2. exact Hp. }
    set (table := fun p => match points_for p with Ok v => v | Raise _ => 0 end).
    assert (Htable : RaceResult.points <$> records
                     = table <$> (RaceResult.position <$> records)).
    { rewrite <- list_fmap_compose. apply Forall_fmap_ext_1.
      eapply Forall_impl; [exact Hall |].
      intros r0 Hr0. cbn. unfold table. by rewrite Hr0. }
    rewrite Htable.
    rewrite (sumZ_Permutation _ (table <$> seqZ 1 (Z.of_nat n)))
      by (by rewrite Hseq).
    apply points_of_positions.
    apply Forall2_fmap_r, Forall_Forall2_diag, Forall_forall.
    intros p Hp%elem_of_seqZ. unfold table. cbn.
    destruct (points_for_Ok p) as [v Hv]; [lia |]. by rewrite Hv. }
  assert (Htotal : total_points
                     (stable_sort
                        (fun a b => RaceResult.position a <=? RaceResult.position b)
                        (l1 ++ with_fastest_lap r :: l2))
                   = 1 + sumZ (take n points_system)).
  { unfold total_points at 1.
    rewrite (sumZ_Permutation _
               (RaceResult.points <$> l1 ++ with_fastest_lap r :: l2))
      by (by rewrite stable_sort_Permutation).
    fold (total_points (l1 ++ with_fastest_lap r :: l2)).
    by rewrite total_points_award, Hpoints. }
  split; [exact Htotal |]. split.
  - rewrite Htotal.
    assert (Hpos : (0 < n)%nat).
    { apply Forall2_length in Hrecords. fold n in Hrecords.
      rewrite length_app in Hrecords. cbn in Hrecords. lia. }
    pose proof (points_system_prefix n Hpos). lia.
  - assert (Hfresh : Forall (fun r => RaceResult.fastest_lap r = false)
                       (l1 ++ r :: l2)).
    { apply Forall_forall. intros r0 (i & Hi)%list_elem_of_lookup_1.
      destruct (Forall2_lookup_r _ _ _ _ _ Hrecords Hi)
        as (driver & _ & points & _ & Hr).
      by rewrite Hr. }
    rewrite (Permutation_length
               (filter_Permutation _ _ _ (stable_sort_Permutation _ _))).
    apply Forall_app in Hfresh as [H1 H2].
    apply Forall_cons in H2 as [_ H2].
    rewrite filter_app, length_app.
    rewrite filter_bool_cons_true by done. cbn [length].
    assert (Hnil : forall l, Forall (fun r => RaceResult.fastest_lap r = false) l ->
              filter RaceResult.fastest_lap l = []).
    { intros l Hl. induction Hl as [| x l Hx _ IH]; [done |].
      by rewrite filter_bool_cons_false. }
    by rewrite (Hnil l1 H1), (Hnil l2 H2).
Qed.


End PipelineRecords.

Lemma engine_ranks_every_listed_driver_witness :
  exists results rng' py',
    simulate_race (RS := counter_source)
      (context_with_race_state [driver_a; driver_b; driver_without_team])
      42%nat 0%nat
    = Ok (results, rng', py')
    /\ RaceResult.position <$> results = [1; 2; 3].
Proof.
  destruct (engine_ranks_every_listed_driver (RS := counter_source)
              (context_with_race_state [driver_a; driver_b; driver_without_team])
              42%nat 0%nat None)
    as (results & rng' & py' & Hrun & Hpositions & _).
  - reflexivity.
  - apply (bool_decide_unpack _). vm_compute. exact I.
  - exists results, rng', py'. split; [exact Hrun | exact Hpositions].
Defined.

Lemma race_total_points_witness :
  exists results rng' py',
    simulate_race (RS := counter_source)
      (context_with_race_state [driver_a; driver_b; driver_without_team])
      42%nat 0%nat
    = Ok (results, rng', py')
    /\ total_points results = 59.
Proof.
  destruct (race_total_points (RS := counter_source)
              (context_with_race_state [driver_a; driver_b; driver_without_team])
              42%nat 0%nat None)
    as (results & rng' & py' & Hrun & Htotal & _).
  - reflexivity.
  - apply (bool_decide_unpack _). vm_compute. exact I.
  - discriminate.
  - exists results, rng', py'. split; [exact Hrun | exact Htotal].
Defined.


(** ** The position histograms *)

Lemma sumZ_insert (l : list Z) (i : nat) (c c' : Z) :
  l !! i = Some c -> sumZ (<[i := c']> l) = sumZ l - c + c'.
Proof.
  revert i. induction l as [| x l IH]; intros [| i] Hi; try done.
  - injection Hi as ->. cbn. lia.
  - cbn in Hi. pose proof (IH i Hi) as IH'.
    change (sumZ (<[S i := c']> (x :: l))) with (x + sumZ (<[i := c']> l)).
    change (sumZ (x :: l)) with (x + sumZ l). lia.
Qed.

Lemma sumZ_zero (l : list Z) :
  Forall (fun c => 0 <= c) l -> sumZ l = 0 -> l = replicate (length l) 0.
Proof.
  induction 1 as [| x l Hx Hl IH]; [done |]. cbn. fold (sumZ l). intros Hsum.
  assert (0 <= sumZ l).
  { clear -Hl. induction Hl as [| y l Hy _ IH]; cbn; [done |].
    fold (sumZ l). lia. }
  assert (x = 0) as -> by lia. f_equal. apply IH. lia.
Qed.

Lemma histogram_inv_ext (n : nat) (ks : list Z) (pc : pydict (list Z))
    (f g : Z -> Z) :
  (forall k, k ∈ ks -> f k = g k) ->
  histogram_inv n ks pc f -> histogram_inv n ks pc g.
Proof.
  intros Hfg Hinv k Hk. destruct (Hinv k Hk) as (counts & ? & ? & ? & ?).
  exists counts. rewrite <- (Hfg k Hk). done.
Qed.

Lemma init_position_counts_zero (drivers : list Driver.t) :
  Forall (fun kv => kv.2 = replicate (length drivers) 0)
    (init_position_counts drivers).
Proof.
  unfold init_position_counts. set (n := length drivers).
  assert (H : forall (l : list Driver.t) (acc : pydict (list Z)),
            Forall (fun kv => kv.2 = replicate n 0) acc ->
            Forall (fun kv => kv.2 = replicate n 0)
              (fold_left
                 (fun position_counts driver =>
                    dict_set position_counts (Driver.id driver)
                      (replicate n 0))
                 l acc)).
  { induction l as [| d l IH]; intros acc Hacc; cbn; [done |].
    apply IH. by apply dict_set_Forall. }
  by apply H.
Qed.

Lemma init_position_counts_inv (drivers : list Driver.t) :
  histogram_inv (length drivers) (Driver.id <$> drivers)
    (init_position_counts drivers) (fun _ => 0).
Proof.
  intros k Hk.
  destruct (init_position_counts_spec drivers) as (_ & Hin & _).
  apply Hin, dict_get_is_Some in Hk as [counts Hcounts].
  exists counts. split; [done |].
  pose proof (init_position_counts_zero drivers) as Hzero.
  rewrite Forall_forall in Hzero.
  apply dict_get_Some_elem, Hzero in Hcounts. cbn in Hcounts. subst counts.
  rewrite length_replicate. split; [done |]. split.
  - apply Forall_replicate. lia.
  - generalize (length drivers). intros n.
    induction n as [| n IH]; [done |]. cbn. exact IH.
Qed.

Lemma increment_count_inv (n : nat) (ks : list Z) (pc : pydict (list Z))
    (f : Z -> Z) (driver_id position : Z) :
  histogram_inv n ks pc f ->
  driver_id ∈ ks ->
  1 <= position <= Z.of_nat n ->
  exists pc',
    increment_count pc driver_id position = Ok pc'
    /\ histogram_inv n ks pc'
         (fun k => f k + if decide (k = driver_id) then 1 else 0).
Proof.
  intros Hinv Hin Hpos. unfold increment_count, dict_item.
  destruct (Hinv driver_id Hin) as (counts & Hget & Hlen & Hnonneg & Hsum).
  rewrite Hget. cbn [mbind result_bind]. unfold list_index. rewrite Hlen.
  replace ((0 <=? position - 1) && (position - 1 <? Z.of_nat n)) with true
    by lia.
  cbn [mbind result_bind].
  destruct (lookup_lt_is_Some_2 counts (Z.to_nat (position - 1))) as [c Hc];
    [lia |].
  rewrite Hc. eexists. split; [done |].
  intros k Hk. destruct (decide (k = driver_id)) as [-> | Hne].
  - rewrite dict_get_set_eq. eexists. split; [done |].
    rewrite length_insert. split; [done |]. split.
    + apply Forall_insert; [done |].
      rewrite Forall_forall in Hnonneg.
      assert (0 <= c) by (by eapply Hnonneg, list_elem_of_lookup_2). lia.
    + rewrite (sumZ_insert _ _ c) by done. lia.
  - rewrite dict_get_set_ne by done.
    destruct (Hinv k Hk) as (counts' & ? & ? & ? & ?).
    exists counts'. repeat split; try done. lia.
Qed.

Lemma count_positions_inv (n : nat) (ks : list Z) (race_outcome : list (Z * Z))
    (pc : pydict (list Z)) (f : Z -> Z) :
  NoDup race_outcome.*1 ->
  Forall (fun kv => kv.1 ∈ ks /\ 1 <= kv.2 <= Z.of_nat n) race_outcome ->
  histogram_inv n ks pc f ->
  exists pc',
    count_positions n race_outcome pc = Ok pc'
    /\ histogram_inv n ks pc'
         (fun k => f k + if decide (k ∈ race_outcome.*1) then 1 else 0).
Proof.
  revert pc f.
  induction race_outcome as [| [driver_id position] rest IH];
    intros pc f Hnd Hall Hinv.
  - exists pc. split; [done |].
    eapply histogram_inv_ext; [| exact Hinv]. intros k _. cbn.
    destruct (decide (k ∈ [])) as [?%elem_of_nil | _]; [done | lia].
  - apply Forall_cons in Hall as [[Hk Hpos] Hall]. cbn in Hk, Hpos.
    rewrite fmap_cons in Hnd. apply NoDup_cons in Hnd as [Hnotin Hnd].
    cbn [count_positions].
    replace ((1 <=? position) && (position <=? Z.of_nat n)) with true by lia.
    destruct (increment_count_inv n ks pc f driver_id position Hinv Hk Hpos)
      as (pc1 & -> & Hinv1).
    cbn [mbind result_bind].
    destruct (IH pc1 _ Hnd Hall Hinv1) as (pc2 & -> & Hinv2).
    exists pc2. split; [done |].
    eapply histogram_inv_ext; [| exact Hinv2]. intros k _. cbn.
    destruct (decide (k = driver_id)) as [-> | Hne].
    + destruct (decide (driver_id ∈ rest.*1)) as [? | _]; [done |].
      destruct (decide (driver_id ∈ driver_id :: rest.*1)) as [_ | Hno];
        [lia |].
      exfalso. apply Hno. by left.
    + destruct (decide (k ∈ rest.*1)) as [Hin | Hnin].
      * destruct (decide (k ∈ driver_id :: rest.*1)) as [_ | Hno]; [lia |].
        exfalso. apply Hno. by right.
      * destruct (decide (k ∈ driver_id :: rest.*1))
          as [[? | ?]%elem_of_cons | _]; [done | done | lia].
Qed.

Section Histogram.
Context {RS : RandomSource}.

(** What one trial returns: the drivers of the list that have a
    car-performance entry, in the order of their scores, numbered from 1. *)
Lemma trial_outcome_numbering (context : SimulationContext.t)
    (race_state : RaceState.t) (rng : RandomState) :
  (forall k, is_Some (dict_get (RaceState.car_performance race_state) k) ->
             is_Some (dict_get (RaceState.driver_form race_state) k)) ->
  exists order rng',
    _simulate_single_race_iteration context race_state rng
    = Ok (zip order (seqZ 1 (Z.of_nat (length order))), rng')
    /\ NoDup order
    /\ (forall k,
          k ∈ order
          <-> k ∈ (Driver.id <$> SimulationContext.drivers context)
              /\ is_Some (dict_get (RaceState.car_performance race_state) k)).
Proof.
  intros Hform. unfold _simulate_single_race_iteration.
  destruct (race_performance_loop_Ok context race_state
              (SimulationContext.drivers context) [] rng Hform)
    as (perf & rng' & Hloop).
  rewrite Hloop. cbn [mbind result_bind].
  assert (Hnd : NoDup (dict_keys perf)).
  { apply (race_performance_loop_NoDup _ _ _ _ _ _ _ Hloop). constructor. }
  assert (Hperm : sorted_by_reverse snd perf ≡ₚ perf)
    by apply stable_sort_Permutation.
  exists (sorted_by_reverse snd perf).*1, rng'.
  rewrite positions_loop_zip by (cbn; by rewrite Hperm).
  rewrite length_fmap. split; [done |]. split.
  - by rewrite Hperm.
  - intros k. rewrite <- (race_performance_loop_keys _ _ _ _ _ _ k Hloop).
    unfold dict_keys. by rewrite Hperm.
Qed.

Lemma monte_carlo_loop_inv (iterations : nat) (context : SimulationContext.t)
    (race_state : RaceState.t) (pc : pydict (list Z)) (f : Z -> Z)
    (rng : RandomState) :
  (forall k, is_Some (dict_get (RaceState.car_performance race_state) k) ->
             is_Some (dict_get (RaceState.driver_form race_state) k)) ->
  histogram_inv (length (SimulationContext.drivers context))
    (Driver.id <$> SimulationContext.drivers context) pc f ->
  exists pc' rng',
    monte_carlo_loop iterations context race_state pc rng = Ok (pc', rng')
    /\ histogram_inv (length (SimulationContext.drivers context))
         (Driver.id <$> SimulationContext.drivers context) pc'
         (fun k => f k + Z.of_nat iterations * has_car race_state k).
Proof.
  intros Hform. revert pc f rng.
  induction iterations as [| iterations IH]; intros pc f rng Hinv.
  - exists pc, rng. split; [done |].
    eapply histogram_inv_ext; [| exact Hinv]. intros k _. cbn. lia.
  - cbn [monte_carlo_loop].
    destruct (trial_outcome_numbering context race_state rng Hform)
      as (order & rng1 & -> & Hnd & Horder).
    cbn [mbind result_bind].
    assert (Hshort : (length order
                      <= length (SimulationContext.drivers context))%nat).
    { rewrite <- (length_fmap Driver.id (SimulationContext.drivers context)).
      apply submseteq_length, NoDup_submseteq; [done |].
      intros k Hk. by apply Horder in Hk as [Hk _]. }
    destruct (count_positions_inv
                (length (SimulationContext.drivers context))
                (Driver.id <$> SimulationContext.drivers context)
                (zip order (seqZ 1 (Z.of_nat (length order)))) pc f)
      as (pc1 & -> & Hinv1); [| | done |].
    { rewrite fst_zip by (rewrite length_seqZ; lia). done. }
    { apply Forall_forall. intros [k p] Hkp. cbn. split.
      - apply elem_of_zip_l in Hkp. by apply Horder in Hkp as [Hk _].
      - apply elem_of_zip_r, elem_of_seqZ in Hkp. lia. }
    cbn [mbind result_bind].
    destruct (IH pc1 _ rng1 Hinv1) as (pc2 & rng2 & -> & Hinv2).
    exists pc2, rng2. split; [done |].
    eapply histogram_inv_ext; [| exact Hinv2]. intros k Hk. cbn beta.
    rewrite fst_zip by (rewrite length_seqZ; lia).
    unfold has_car.
    destruct (decide (k ∈ order)) as [Hin | Hnin].
    + apply Horder in Hin as [_ [v Hv]]. rewrite Hv. lia.
    + destruct (dict_get (RaceState.car_performance race_state) k)
        as [v |] eqn:Hv; [| lia].
      exfalso. apply Hnin, Horder. split; [done |]. by rewrite Hv.
Qed.

(** X13: the histograms.  When every driver with a car-performance entry
    has a form entry, the trial loop returns, and afterwards every listed
    driver has a histogram of N non-negative counts, N the length of the
    driver list.  For a driver with a car-performance entry the counts add
    up to the number of trials: every trial counts exactly once, the bound
    check never discards a position.  For a driver without one the
    histogram is still all zeros. *)
Theorem histogram_counts_every_trial (iterations : nat)
    (context : SimulationContext.t) (race_state : RaceState.t)
    (rng : RandomState) :
  (forall k, is_Some (dict_get (RaceState.car_performance race_state) k) ->
             is_Some (dict_get (RaceState.driver_form race_state) k)) ->
  exists position_counts rng',
    monte_carlo_loop iterations context race_state
      (init_position_counts (SimulationContext.drivers context)) rng
    = Ok (position_counts, rng')
    /\ forall k,
         k ∈ (Driver.id <$> SimulationContext.drivers context) ->
         exists counts,
           dict_get position_counts k = Some counts
           /\ length counts = length (SimulationContext.drivers context)
           /\ Forall (fun c => 0 <= c) counts
           /\ (is_Some (dict_get (RaceState.car_performance race_state) k) ->
               sumZ counts = Z.of_nat iterations)
           /\ (dict_get (RaceState.car_performance race_state) k = None ->
               counts
               = replicate (length (SimulationContext.drivers context)) 0).
Proof.
  intros Hform.
  destruct (monte_carlo_loop_inv iterations context race_state
              (init_position_counts (SimulationContext.drivers context))
              (fun _ => 0) rng Hform
              (init_position_counts_inv (SimulationContext.drivers context)))
    as (pc & rng' & Hloop & Hinv).
  exists pc, rng'. split; [done |]. intros k Hk.
  destruct (Hinv k Hk) as (counts & Hget & Hlen & Hnonneg & Hsum).
  exists counts. split; [done |]. split; [done |]. split; [done |].
  unfold has_car in Hsum. split.
  - intros [v Hv]. rewrite Hv in Hsum. lia.
  - intros Hnone. rewrite Hnone in Hsum. rewrite <- Hlen.
    apply sumZ_zero; [done | lia].
Qed.

End Histogram.

Lemma histogram_counts_every_trial_witness :
  exists position_counts rng',
    monte_carlo_loop (RS := counter_source) MONTE_CARLO_ITERATIONS
      (context_plain [driver_a; driver_b])
      (_initialize_race_state (RS := counter_source)
         (context_plain [driver_a; driver_b]) 42%nat).1
      (init_position_counts [driver_a; driver_b]) 44%nat
    = Ok (position_counts, rng').
Proof.
  destruct (histogram_counts_every_trial (RS := counter_source)
              MONTE_CARLO_ITERATIONS (context_plain [driver_a; driver_b])
              (_initialize_race_state (RS := counter_source)
                 (context_plain [driver_a; driver_b]) 42%nat).1 44%nat)
    as (pc & rng' & Hloop & _).
  - intros k. apply (initialize_race_state_forms (RS := counter_source)).
  - exists pc, rng'. exact Hloop.
Defined.

(** ** The service endpoint *)

Lemma enumerate_from_lookup {A : Type} (l : list A) (c : Z) (i : nat) :
  enumerate_from c l !! i = (fun x => (c + Z.of_nat i, x)) <$> l !! i.
Proof.
  revert c i. induction l as [| x l IH]; intros c [| i]; cbn; try done.
  - do 2 f_equal. lia.
  - rewrite IH. destruct (l !! i); cbn; [| done]. do 2 f_equal. lia.
Qed.

Lemma enumerate_from_length {A : Type} (l : list A) (c : Z) :
  length (enumerate_from c l) = length l.
Proof. revert c. induction l as [| x l IH]; intros c; cbn; by rewrite ?IH. Qed.

Lemma enumerate_from_Forall {A : Type} (P : A -> Prop) (l : list A) (c : Z) :
  Forall (fun ip => P ip.2) (enumerate_from c l) <-> Forall P l.
Proof.
  revert c. induction l as [| x l IH]; intros c; cbn; [done |].
  by rewrite !Forall_cons, IH.
Qed.

(** The comprehension returns exactly on a non-empty list whose first ten
    items are dictionaries. *)
Lemma results_of_is_Some (participants : Api.json) :
  is_Some (Api.results_of participants)
  <-> exists l,
        participants = Api.Array l
        /\ l <> []
        /\ Forall (fun p => exists d, p = Api.Object d) (take 10 l).
Proof.
  assert (Harray : forall l,
            is_Some (mapM (fun ip : Z * Api.json => Api.result_entry ip.1 ip.2)
                       (enumerate_from 0 l))
            <-> Forall (fun p => exists d, p = Api.Object d) l).
  { intros l. rewrite mapM_is_Some.
    rewrite <- (enumerate_from_Forall
                  (fun p => exists d, p = Api.Object d) l 0).
    apply Forall_iff. intros [i p]. cbn.
    destruct p; cbn; split; try (by intros [? ?]); eauto. }
  unfold Api.results_of, Api.iterated. split.
  - intros Hsome.
    destruct (Api.truthy participants) eqn:Htruthy.
    + destruct participants as [| b | z | q | s | l | d];
        try (by destruct Hsome).
      * destruct s as [| c s]; [done |]. by destruct Hsome.
      * exists l. split; [done |]. split; [by destruct l |].
        by apply Harray.
    + by destruct Hsome.
  - intros (l & -> & Hne & Hall).
    destruct l as [| p l]; [done |]. cbn [Api.truthy].
    by apply Harray.
Qed.

Section Endpoint.
Context {R : Api.Renderer}.

(** X14: the endpoint answers with a response or with status 500, nothing
    else.  It answers with a response only when the request holds a
    non-empty list ["participants"] whose first ten items are objects and
    the content renders; for such a request the answer is the response when
    the content renders and status 500 when it does not.  So a request
    without participants, or with an empty list, is answered with status
    500: the five default entries that the handler provides for this case
    are never returned. *)
Theorem api_race_needs_object_participants (request : gmap string Api.json) :
  ((exists c, Api.simulate_race request = Api.JSONResponse c)
   \/ Api.simulate_race request = Api.HTTPException 500)
  /\ (forall c,
        Api.simulate_race request = Api.JSONResponse c ->
        Api.renders c = true
        /\ exists l,
             request !! "participants" = Some (Api.Array l)
             /\ l <> []
             /\ Forall (fun p => exists d, p = Api.Object d) (take 10 l))
  /\ (forall l,
        request !! "participants" = Some (Api.Array l) ->
        l <> [] ->
        Forall (fun p => exists d, p = Api.Object d) (take 10 l) ->
        exists results,
          Api.results_of (Api.Array l) = Some results
          /\ Api.simulate_race request
             = if Api.renders
                    (Api.mk_content
                       (default (Api.Int 1) (request !! "race_id"))
                       (default (Api.Str "dry")
                          (request !! "weather_conditions"))
                       results "completed")
               then Api.JSONResponse
                      (Api.mk_content
                         (default (Api.Int 1) (request !! "race_id"))
                         (default (Api.Str "dry")
                            (request !! "weather_conditions"))
                         results "completed")
               else Api.HTTPException 500)
  /\ ((forall v, request !! "participants" = Some v -> Api.truthy v = false) ->
      Api.simulate_race request = Api.HTTPException 500).
Proof.
  pose proof (results_of_is_Some
                (default (Api.Array []) (request !! "participants"))) as Hiff.
  unfold Api.simulate_race.
  destruct (Api.results_of (default (Api.Array []) (request !! "participants")))
    as [results |] eqn:Hresults.
  - destruct (proj1 Hiff (mk_is_Some _ _ eq_refl)) as (l & Hl & Hne & Hall).
    assert (Hget : request !! "participants" = Some (Api.Array l)).
    { destruct (request !! "participants") as [v |]; cbn in Hl; [by subst |].
      injection Hl as <-. done. }
    rewrite Hl in Hresults. cbn zeta.
    split; [| split; [| split]].
    + destruct (Api.renders _); [left; by eexists | by right].
    + intros c Hc. destruct (Api.renders _) eqn:Hrenders; [| done].
      injection Hc as <-. split; [done |]. by exists l.
    + intros l' Hget' _ _. rewrite Hget in Hget'. injection Hget' as <-.
      by exists results.
    + intros Hfalsy. specialize (Hfalsy _ Hget). by destruct l.
  - split; [by right |]. split; [done |]. split; [| done].
    intros l Hget Hne Hall. rewrite Hget in Hiff. cbn in Hiff.
    destruct (proj2 Hiff) as [x Hx]; [by exists l |].
    rewrite Hget in Hresults. cbn in Hresults. congruence.
Qed.

(** X15: what a response holds.  At most ten results, one per participant
    among the first ten, in their order; the i-th (from 0) has position
    i + 1 and 25 - 2i points, which is at least 7, and only the first one has
    the fastest lap; its driver and team ids are those of the participant,
    or the index i where the participant has none.  The race id and the
    weather are those of the request, or 1 and [dry]. *)
Theorem api_race_results_shape (request : gmap string Api.json)
    (c : Api.content) :
  Api.simulate_race request = Api.JSONResponse c ->
  exists l,
    request !! "participants" = Some (Api.Array l)
    /\ length (Api.results c) = Nat.min (length l) 10
    /\ (1 <= length (Api.results c))%nat
    /\ Api.race_id c = default (Api.Int 1) (request !! "race_id")
    /\ Api.weather c
       = default (Api.Str "dry") (request !! "weather_conditions")
    /\ Api.simulation_status c = "completed"
    /\ forall (i : nat) (e : Api.entry),
         Api.results c !! i = Some e ->
         Api.position e = Z.of_nat i + 1
         /\ Api.points e = 25 - 2 * Z.of_nat i
         /\ 7 <= Api.points e
         /\ (Api.fastest_lap e = true <-> i = 0%nat)
         /\ exists d,
              l !! i = Some (Api.Object d)
              /\ Api.driver_id e
                 = default (Api.Int (Z.of_nat i)) (d !! "driver_id")
              /\ Api.team_id e
                 = default (Api.Int (Z.of_nat i)) (d !! "team_id").
Proof.
  unfold Api.simulate_race.
  pose proof (results_of_is_Some
                (default (Api.Array []) (request !! "participants"))) as Hiff.
  destruct (Api.results_of (default (Api.Array []) (request !! "participants")))
    as [results |] eqn:Hresults; [| done].
  cbn zeta. destruct (Api.renders _); [| done].
  intros [= <-]. cbn [Api.results Api.race_id Api.weather Api.simulation_status].
  destruct (proj1 Hiff (mk_is_Some _ _ eq_refl)) as (l & Hl & Hne & Hall).
  assert (Hget : request !! "participants" = Some (Api.Array l)).
  { destruct (request !! "participants") as [v |]; cbn in Hl; [by subst |].
    injection Hl as <-. done. }
  exists l. split; [done |].
  rewrite Hl in Hresults. unfold Api.results_of, Api.iterated in Hresults.
  assert (Htruthy : Api.truthy (Api.Array l) = true) by (by destruct l).
  rewrite Htruthy in Hresults. cbn [mbind option_bind] in Hresults.
  apply mapM_Some in Hresults.
  assert (Hlen : length results = Nat.min (length l) 10).
  { apply Forall2_length in Hresults.
    rewrite enumerate_from_length, length_take in Hresults. lia. }
  split; [done |]. split.
  { rewrite Hlen. destruct l; [done |]. cbn. lia. }
  split; [done |]. split; [done |]. split; [done |].
  intros i e Hi.
  destruct (Forall2_lookup_r _ _ _ _ _ Hresults Hi) as ([j p] & Hp & He).
  rewrite enumerate_from_lookup in Hp.
  destruct (take 10 l !! i) as [p' |] eqn:Htake; [| done].
  cbn in Hp. injection Hp as <- <-.
  apply lookup_lt_Some in Hi as Hlt.
  assert (Hi10 : (i < 10)%nat) by lia.
  rewrite lookup_take_lt in Htake by done.
  cbn in He. destruct p' as [| | | | | | d]; try done.
  injection He as <-. cbn.
  split; [lia |]. split; [lia |]. split; [lia |]. split.
  - rewrite Z.eqb_eq. lia.
  - by exists d.
Qed.

End Endpoint.

Lemma api_race_results_shape_witness :
  exists c l,
    Api.simulate_race (R := renders_everything) sample_request
    = Api.JSONResponse c
    /\ sample_request !! "participants" = Some (Api.Array l)
    /\ length l = 12%nat
    /\ length (Api.results c) = 10%nat.
Proof.
  assert (Hrun : exists c,
            Api.simulate_race (R := renders_everything) sample_request
            = Api.JSONResponse c).
  { vm_compute. by eexists. }
  destruct Hrun as [c Hrun].
  destruct (api_race_results_shape (R := renders_everything) sample_request c
              Hrun) as (l & Hget & Hlen & _).
  exists c, l. split; [exact Hrun |]. split; [exact Hget |].
  assert (Hl : length l = 12%nat).
  { assert (Hsample : sample_request !! "participants"
                      = Some (Api.Array
                                (sample_participant 1 :: Api.Object ∅
                                 :: (sample_participant <$> seqZ 3 10))))
      by (vm_compute; reflexivity).
    rewrite Hsample in Hget. injection Hget as <-. reflexivity. }
  split; [exact Hl |]. rewrite Hlen, Hl. reflexivity.
Defined.

(** ** The race state *)

Lemma elem_of_first_occurrences (l : list Z) (k : Z) :
  k ∈ first_occurrences l <-> k ∈ l.
Proof.
  unfold first_occurrences.
  assert (H : forall seen,
            k ∈ foldl (fun seen x =>
                         if bool_decide (x ∈ seen) then seen else seen ++ [x])
                  seen l
            <-> k ∈ seen \/ k ∈ l).
  { induction l as [| x l IH]; intros seen; cbn.
    - split; [by left | by intros [? | ?%elem_of_nil]].
    - rewrite IH, elem_of_cons. destruct (bool_decide (x ∈ seen)) eqn:Hx.
      + apply bool_decide_eq_true in Hx. split; [tauto |].
        intros [? | [-> | ?]]; tauto.
      + rewrite elem_of_app, list_elem_of_singleton. tauto. }
  rewrite H. split; [by intros [?%elem_of_nil | ?] | by right].
Qed.

Section RaceStateTables.
Context {RS : RandomSource}.

Lemma performance_loop_values (context : SimulationContext.t)
    (drivers : list Driver.t) (car form car' form' : pydict Q)
    (rng rng' : RandomState) :
  performance_loop context drivers car form rng = (car', form', rng') ->
  Forall (fun kv => (kv.2 <= 1)%Q) car ->
  Forall (fun kv => (0.1 <= kv.2 <= 1)%Q) form ->
  Forall (fun kv => (kv.2 <= 1)%Q) car'
  /\ Forall (fun kv => (0.1 <= kv.2 <= 1)%Q) form'.
Proof.
  revert car form rng.
  induction drivers as [| driver rest IH]; intros car form rng.
  - cbn. by intros [= <- <- <-].
  - cbn [performance_loop].
    destruct (get_team context driver) as [team |]; [| apply IH].
    pose proof (clamp_range 0.1 1.0
                  ((Driver.skill driver + Driver.consistency driver
                    + Driver.racecraft driver) / 3.0
                   + (normal 0 0.05 rng).1)) as Hclamp.
    unfold _calculate_driver_form.
    destruct (normal 0 0.05 rng) as [form_variation rng1].
    intros H Hcar Hform. apply IH in H; [done | |].
    + apply dict_set_Forall; [done |]. cbn. apply team_performance_le_1.
    + apply dict_set_Forall; [done |]. cbn. cbn in Hclamp.
      assert (0.1 <= 1.0)%Q by lra. specialize (Hclamp H0). lra.
Qed.

(** X16: the race state that [_initialize_race_state] builds.  Its three
    tables have the same keys, the ids of the drivers whose team resolves:
    a driver without team has no entry in any of them.  Every car
    performance is at most 1 and every form lies in [0.1, 1], whatever the
    attributes of the drivers and the budgets of the teams are. *)
Theorem race_state_tables (context : SimulationContext.t) (rng : RandomState) :
  dict_keys (RaceState.car_performance (_initialize_race_state context rng).1)
  = dict_keys (RaceState.driver_form (_initialize_race_state context rng).1)
  /\ (forall k,
        k ∈ dict_keys (RaceState.car_performance
                         (_initialize_race_state context rng).1)
        <-> exists driver team,
              driver ∈ SimulationContext.drivers context
              /\ Driver.id driver = k
              /\ get_team context driver = Some team)
  /\ (forall k,
        k ∈ dict_keys (RaceState.grid_positions
                         (_initialize_race_state context rng).1)
        <-> k ∈ dict_keys (RaceState.car_performance
                             (_initialize_race_state context rng).1))
  /\ (forall k v,
        dict_get (RaceState.car_performance
                    (_initialize_race_state context rng).1) k = Some v ->
        (v <= 1)%Q)
  /\ (forall k v,
        dict_get (RaceState.driver_form
                    (_initialize_race_state context rng).1) k = Some v ->
        (0.1 <= v <= 1)%Q).
Proof.
  destruct (initialize_race_state_keys context rng) as [Heq Hin].
  assert (Heligible : forall k,
            k ∈ (Driver.id
                   <$> filter (eligible context)
                         (SimulationContext.drivers context))
            <-> exists driver team,
                  driver ∈ SimulationContext.drivers context
                  /\ Driver.id driver = k
                  /\ get_team context driver = Some team).
  { intros k. rewrite list_elem_of_fmap. split.
    - intros (driver & -> & [Hel Hd]%list_elem_of_filter).
      unfold eligible in Hel.
      destruct (get_team context driver) as [team |] eqn:Hteam; [| done].
      by exists driver, team.
    - intros (driver & team & Hd & <- & Hteam). exists driver.
      split; [done |]. apply list_elem_of_filter. split; [| done].
      unfold eligible. by rewrite Hteam. }
  split; [done |]. split.
  { intros k. by rewrite Hin, Heligible. }
  split.
  { intros k. rewrite Hin, initialize_race_state_grid.
    assert (Hnd : NoDup (dict_keys (qualifying_times_of context))).
    { apply qualifying_times_loop_NoDup. constructor. }
    destruct (grid_of_positions _ Hnd) as [Hperm _]. rewrite Hperm.
    unfold qualifying_times_of. rewrite qualifying_times_loop_keys.
    apply elem_of_first_occurrences. }
  unfold _initialize_race_state.
  destruct (performance_loop context (SimulationContext.drivers context)
              [] [] rng) as [[car form] rng'] eqn:Hloop.
  apply performance_loop_values in Hloop as [Hcar Hform]; [| done | done].
  cbn. rewrite Forall_forall in Hcar, Hform. split.
  - intros k v Hv%dict_get_Some_elem. apply (Hcar _ Hv).
  - intros k v Hv%dict_get_Some_elem. apply (Hform _ Hv).
Qed.

End RaceStateTables.

Lemma api_race_needs_object_participants_witness :
  Api.simulate_race (R := renders_everything) ∅ = Api.HTTPException 500.
Proof.
  apply (api_race_needs_object_participants (R := renders_everything) ∅).
  intros v Hv. rewrite lookup_empty in Hv. discriminate.
Defined.

(** ** The modal position of a driver without a car *)

Lemma most_likely_positions_other (position_counts : list (Z * list Z))
    (final_positions modal : pydict Z) (k : Z) :
  k ∉ position_counts.*1 ->
  most_likely_positions position_counts final_positions = Ok modal ->
  dict_get modal k = dict_get final_positions k.
Proof.
  revert final_positions.
  induction position_counts as [| [k' counts] rest IH];
    intros final_positions Hnotin H.
  - by injection H as <-.
  - cbn [most_likely_positions] in H.
    apply bind_Ok in H as (i & _ & H).
    rewrite fmap_cons in Hnotin. apply not_elem_of_cons in Hnotin as [Hne Hrest].
    rewrite (IH _ Hrest H). by apply dict_get_set_ne.
Qed.

Lemma most_likely_positions_get (position_counts : list (Z * list Z))
    (final_positions modal : pydict Z) (k : Z) (counts : list Z) :
  NoDup position_counts.*1 ->
  (k, counts) ∈ position_counts ->
  most_likely_positions position_counts final_positions = Ok modal ->
  exists i, np_argmax counts = Ok i /\ dict_get modal k = Some (i + 1).
Proof.
  revert final_positions.
  induction position_counts as [| [k' counts'] rest IH];
    intros final_positions Hnd Hin H.
  - by apply elem_of_nil in Hin.
  - cbn [most_likely_positions] in H.
    apply bind_Ok in H as (i & Hi & H).
    rewrite fmap_cons in Hnd. apply NoDup_cons in Hnd as [Hnotin Hnd].
    cbn [fst] in Hnotin.
    apply elem_of_cons in Hin as [[= -> ->] | Hin].
    + exists i. split; [done |].
      rewrite (most_likely_positions_other _ _ _ _ Hnotin H).
      apply dict_get_set_eq.
    + by apply (IH _ Hnd Hin H).
Qed.

Lemma argmax_from_zeros (best_index i n : nat) :
  argmax_from best_index 0 i (replicate n 0) = best_index.
Proof. revert i. induction n as [| n IH]; intros i; cbn; [done | apply IH]. Qed.

Section ModalPosition.
Context {RS : RandomSource}.

(** X17: a listed driver that has no car-performance entry, as every driver
    whose team does not resolve, is never counted by a trial, and the
    position read off its all-zero histogram is 1: such a driver enters the
    resolver as a contender for first place. *)
Theorem driver_without_car_has_modal_position_1 (iterations : nat)
    (context : SimulationContext.t) (race_state : RaceState.t)
    (rng : RandomState) (driver : Driver.t) :
  (forall k, is_Some (dict_get (RaceState.car_performance race_state) k) ->
             is_Some (dict_get (RaceState.driver_form race_state) k)) ->
  driver ∈ SimulationContext.drivers context ->
  dict_get (RaceState.car_performance race_state) (Driver.id driver) = None ->
  exists position_counts rng' modal,
    monte_carlo_loop iterations context race_state
      (init_position_counts (SimulationContext.drivers context)) rng
    = Ok (position_counts, rng')
    /\ most_likely_positions position_counts [] = Ok modal
    /\ dict_get modal (Driver.id driver) = Some 1.
Proof.
  intros Hform Hdriver Hnocar.
  set (n := length (SimulationContext.drivers context)).
  assert (Hk : Driver.id driver ∈ (Driver.id <$> SimulationContext.drivers context)).
  { apply list_elem_of_fmap. by exists driver. }
  destruct (init_position_counts_spec (SimulationContext.drivers context))
    as (Hnd0 & Hin0 & Hlen0).
  destruct (monte_carlo_loop_Ok iterations context race_state
              (init_position_counts (SimulationContext.drivers context)) rng
              Hform) as (pc & rng' & Hloop & Hkeys & Hlen).
  { intros k. apply Hin0. }
  { exact Hlen0. }
  destruct (monte_carlo_loop_inv iterations context race_state
              (init_position_counts (SimulationContext.drivers context))
              (fun _ => 0) rng Hform
              (init_position_counts_inv (SimulationContext.drivers context)))
    as (pc' & rng'' & Hloop' & Hinv).
  rewrite Hloop in Hloop'. injection Hloop' as <- <-.
  assert (Hpos : (0 < n)%nat).
  { unfold n. destruct (SimulationContext.drivers context); [| cbn; lia].
    by apply elem_of_nil in Hdriver. }
  destruct (most_likely_positions_spec pc []) as (modal & Hmodal & _).
  { eapply Forall_impl; [exact Hlen |]. intros [k counts] Hc. cbn in *.
    intros ->. cbn in Hc. lia. }
  { constructor. }
  exists pc, rng', modal. split; [done |]. split; [done |].
  destruct (Hinv _ Hk) as (counts & Hget & Hcounts & Hnonneg & Hsum).
  unfold has_car in Hsum. rewrite Hnocar in Hsum.
  assert (Hzero : counts = replicate n 0).
  { unfold n. rewrite <- Hcounts. apply sumZ_zero; [done | lia]. }
  destruct (most_likely_positions_get pc [] modal (Driver.id driver) counts)
    as (i & Hi & Hmodal_k); [| by apply dict_get_Some_elem | done |].
  { unfold dict_keys in Hkeys, Hnd0. by rewrite Hkeys. }
  rewrite Hmodal_k. rewrite Hzero in Hi.
  clearbody n. destruct n as [| n']; [lia |]. cbn in Hi.
  rewrite argmax_from_zeros in Hi. by injection Hi as <-.
Qed.

End ModalPosition.

Lemma driver_without_car_has_modal_position_1_witness :
  exists position_counts rng' modal,
    monte_carlo_loop (RS := counter_source) MONTE_CARLO_ITERATIONS
      (context_plain [driver_a; driver_without_team])
      (_initialize_race_state (RS := counter_source)
         (context_plain [driver_a; driver_without_team]) 42%nat).1
      (init_position_counts [driver_a; driver_without_team]) 43%nat
    = Ok (position_counts, rng')
    /\ most_likely_positions position_counts [] = Ok modal
    /\ dict_get modal 12 = Some 1.
Proof.
  apply (driver_without_car_has_modal_position_1 (RS := counter_source)
           MONTE_CARLO_ITERATIONS
           (context_plain [driver_a; driver_without_team])
           (_initialize_race_state (RS := counter_source)
              (context_plain [driver_a; driver_without_team]) 42%nat).1
           43%nat driver_without_team).
  - intros k. apply (initialize_race_state_forms (RS := counter_source)).
  - apply elem_of_cons. right. apply elem_of_cons. by left.
  - reflexivity.
Defined.

(** ** The modal position of every driver *)

Lemma elem_le_sumZ (l : list Z) (x : Z) :
  Forall (fun c => 0 <= c) l -> x ∈ l -> x <= sumZ l.
Proof.
  induction 1 as [| y l Hy Hl IH]; [by intros ?%elem_of_nil |].
  assert (0 <= sumZ l).
  { clear -Hl. induction Hl as [| z l Hz _ IH]; cbn; [done |].
    fold (sumZ l). lia. }
  cbn. fold (sumZ l). intros [-> | Hin]%elem_of_cons; [lia |].
  specialize (IH Hin). lia.
Qed.

Section ModalPositions.
Context {RS : RandomSource}.

(** X4: the modal positions that [_run_monte_carlo_simulation] reads off
    the histograms.  With a number of trials that fits 64 bits, every count
    of every listed driver lies between 0 and the number of trials, so that
    [np.argmax] compares 64-bit integers; it never raises, and the modal
    position of a driver is 1 plus the index of the first largest count of
    its histogram: among equally frequent positions the lowest one is
    taken.  The modal position lies between 1 and the length of the driver
    list. *)
Theorem modal_position_is_first_maximum (iterations : nat)
    (context : SimulationContext.t) (race_state : RaceState.t)
    (rng : RandomState) :
  (forall k, is_Some (dict_get (RaceState.car_performance race_state) k) ->
             is_Some (dict_get (RaceState.driver_form race_state) k)) ->
  Z.of_nat iterations < 2 ^ 63 ->
  exists position_counts rng' modal,
    monte_carlo_loop iterations context race_state
      (init_position_counts (SimulationContext.drivers context)) rng
    = Ok (position_counts, rng')
    /\ most_likely_positions position_counts [] = Ok modal
    /\ forall k,
         k ∈ (Driver.id <$> SimulationContext.drivers context) ->
         exists (counts : list Z) (i : nat) (m : Z),
           dict_get position_counts k = Some counts
           /\ Forall (fun c => 0 <= c <= Z.of_nat iterations /\ c < 2 ^ 63)
                counts
           /\ dict_get modal k = Some (Z.of_nat i + 1)
           /\ counts !! i = Some m
           /\ (forall j x, counts !! j = Some x -> x <= m)
           /\ (forall j x, (j < i)%nat -> counts !! j = Some x -> x < m)
           /\ 1 <= Z.of_nat i + 1
              <= Z.of_nat (length (SimulationContext.drivers context)).
Proof.
  intros Hform Hfits.
  destruct (init_position_counts_spec (SimulationContext.drivers context))
    as (Hnd0 & Hin0 & Hlen0).
  destruct (monte_carlo_loop_Ok iterations context race_state
              (init_position_counts (SimulationContext.drivers context)) rng
              Hform) as (pc & rng' & Hloop & Hkeys & Hlen).
  { intros k. apply Hin0. }
  { exact Hlen0. }
  destruct (monte_carlo_loop_inv iterations context race_state
              (init_position_counts (SimulationContext.drivers context))
              (fun _ => 0) rng Hform
              (init_position_counts_inv (SimulationContext.drivers context)))
    as (pc' & rng'' & Hloop' & Hinv).
  rewrite Hloop in Hloop'. injection Hloop' as <- <-.
  destruct (decide (SimulationContext.drivers context = [])) as [Hempty | Hne].
  { exists pc, rng', []. split; [done |].
    assert (pc = []) as ->.
    { apply (f_equal length) in Hkeys. unfold dict_keys in Hkeys.
      rewrite !length_fmap in Hkeys. rewrite Hempty in Hkeys. cbn in Hkeys.
      by destruct pc. }
    split; [done |]. intros k Hk. rewrite Hempty in Hk.
    by apply elem_of_nil in Hk. }
  assert (Hpos : (0 < length (SimulationContext.drivers context))%nat).
  { destruct (SimulationContext.drivers context); [done | cbn; lia]. }
  destruct (most_likely_positions_spec pc []) as (modal & Hmodal & _).
  { eapply Forall_impl; [exact Hlen |]. intros [k counts] Hc. cbn in *.
    intros ->. cbn in Hc. lia. }
  { constructor. }
  exists pc, rng', modal. split; [done |]. split; [done |].
  intros k Hk.
  destruct (Hinv _ Hk) as (counts & Hget & Hcounts & Hnonneg & Hsum).
  destruct (most_likely_positions_get pc [] modal k counts)
    as (z & Hz & Hmodal_k); [| by apply dict_get_Some_elem | done |].
  { unfold dict_keys in Hkeys, Hnd0. by rewrite Hkeys. }
  destruct (np_argmax_spec counts) as [_ Hargmax].
  destruct Hargmax as (i & m & Hi & Hm & Hmax & Hfirst).
  { intros ->. cbn in Hcounts. lia. }
  rewrite Hi in Hz. injection Hz as <-.
  exists counts, i, m. split; [done |]. split.
  { apply Forall_forall. intros c Hc.
    pose proof (elem_le_sumZ counts c Hnonneg Hc) as Hle.
    rewrite Forall_forall in Hnonneg. specialize (Hnonneg c Hc).
    rewrite Hsum in Hle. unfold has_car in Hle.
    destruct (dict_get (RaceState.car_performance race_state) k); lia. }
  split; [done |]. split; [done |]. split; [done |]. split; [done |].
  apply lookup_lt_Some in Hm. lia.
Qed.

End ModalPositions.

Lemma modal_position_is_first_maximum_witness :
  exists position_counts rng' modal,
    monte_carlo_loop (RS := counter_source) MONTE_CARLO_ITERATIONS
      (context_plain [driver_a; driver_b])
      (_initialize_race_state (RS := counter_source)
         (context_plain [driver_a; driver_b]) 42%nat).1
      (init_position_counts [driver_a; driver_b]) 44%nat
    = Ok (position_counts, rng')
    /\ most_likely_positions position_counts [] = Ok modal.
Proof.
  destruct (modal_position_is_first_maximum (RS := counter_source)
              MONTE_CARLO_ITERATIONS (context_plain [driver_a; driver_b])
              (_initialize_race_state (RS := counter_source)
                 (context_plain [driver_a; driver_b]) 42%nat).1 44%nat)
    as (pc & rng' & modal & Hloop & Hmodal & _).
  - intros k. apply (initialize_race_state_forms (RS := counter_source)).
  - reflexivity.
  - exists pc, rng', modal. split; [exact Hloop | exact Hmodal].
Defined.

(** ** Repeated invocations *)

Lemma fmap_insert_sorted {A B : Type} (f : A -> B) (lebA : A -> A -> bool)
    (lebB : B -> B -> bool) (x : A) (l : list A) :
  (forall a b, lebB (f a) (f b) = lebA a b) ->
  f <$> insert_sorted lebA x l = insert_sorted lebB (f x) (f <$> l).
Proof.
  intros Hleb. induction l as [| y l IH]; [done |]. cbn.
  rewrite Hleb. destruct (lebA x y); [done |]. cbn. by rewrite IH.
Qed.

Lemma fmap_stable_sort {A B : Type} (f : A -> B) (lebA : A -> A -> bool)
    (lebB : B -> B -> bool) (l : list A) :
  (forall a b, lebB (f a) (f b) = lebA a b) ->
  f <$> stable_sort lebA l = stable_sort lebB (f <$> l).
Proof.
  intros Hleb. induction l as [| x l IH]; [done |].
  rewrite fmap_cons, !stable_sort_cons, <- IH.
  by apply fmap_insert_sorted.
Qed.

Lemma unawarded_fresh (r : RaceResult.t) :
  fresh_record r -> unawarded r = r /\ unawarded (with_fastest_lap r) = r.
Proof.
  intros [Hflag _]. destruct r as [id race driver team position points flag dnf grid].
  cbn in Hflag. subst flag. unfold unawarded, base_points. cbn.
  split; f_equal; lia.
Qed.

Lemma unawarded_fresh_list (l : list RaceResult.t) :
  Forall fresh_record l -> unawarded <$> l = l.
Proof.
  induction 1 as [| x l Hx _ IH]; [done |].
  rewrite fmap_cons, IH. f_equal. by apply unawarded_fresh.
Qed.

Lemma unawarded_award (k : nat) (l : list RaceResult.t) :
  Forall fresh_record l -> unawarded <$> award_fastest_lap k l = l.
Proof.
  intros Hl. revert k. induction Hl as [| r l Hr Hl IH]; intros k; [done |].
  pose proof (unawarded_fresh_list l Hl) as Hrest.
  destruct (unawarded_fresh r Hr) as [Hr1 Hr2].
  cbn [award_fastest_lap]. destruct (is_top_10 r).
  - destruct k as [| k]; rewrite fmap_cons.
    + by rewrite Hr2, Hrest.
    + by rewrite Hr1, IH.
  - by rewrite fmap_cons, Hr1, IH.
Qed.

Section RepeatedInvocations.
Context {RS : RandomSource}.

(** The records that [simulate_race] returns are, without the award, the
    records of the loop sorted by position: the module-level generator has
    no part in them. *)
Lemma generate_race_results_ranking (context : SimulationContext.t)
    (final_positions : pydict Z) (py : py_random) :
  match _generate_race_results context final_positions py with
  | Ok (results, _) => Ok (unawarded <$> results)
  | Raise e => Raise e
  end
  = (looped ←
       results_loop context final_positions
         (SimulationContext.drivers context) [];
     Ok (stable_sort
           (fun a b => RaceResult.position a <=? RaceResult.position b)
           looped)).
Proof.
  unfold _generate_race_results.
  destruct (results_loop context final_positions
              (SimulationContext.drivers context) []) as [looped | e] eqn:Hloop;
    [| done].
  cbn [mbind result_bind].
  apply results_loop_fresh in Hloop; [| done].
  assert (Hsort : forall awarded,
            unawarded <$> awarded = looped ->
            unawarded
            <$> stable_sort
                  (fun a b => RaceResult.position a <=? RaceResult.position b)
                  awarded
            = stable_sort
                (fun a b => RaceResult.position a <=? RaceResult.position b)
                looped).
  { intros awarded <-. by apply fmap_stable_sort. }
  rewrite assign_fastest_lap_eq.
  destruct (filter is_top_10 looped) as [| t top_10].
  - f_equal. apply Hsort. by apply unawarded_fresh_list.
  - destruct (randbelow (length (t :: top_10)) py) as [k py'].
    f_equal. apply Hsort. by apply unawarded_award.
Qed.

Lemma simulate_race_ranking (context : SimulationContext.t)
    (rng : RandomState) (py1 py2 : py_random) :
  ranking_of (simulate_race context rng py1)
  = ranking_of (simulate_race context rng py2).
Proof.
  unfold simulate_race.
  destruct (_initialize_race_state context rng) as [race_state rng1].
  destruct (_run_monte_carlo_simulation context race_state rng1)
    as [[final_positions rng2] | e]; [| done].
  cbn [mbind result_bind].
  pose proof (generate_race_results_ranking context final_positions py1) as H1.
  pose proof (generate_race_results_ranking context final_positions py2) as H2.
  destruct (_generate_race_results context final_positions py1)
    as [[results1 py1'] | e1],
    (_generate_race_results context final_positions py2)
    as [[results2 py2'] | e2];
    cbn [mbind result_bind ranking_of]; congruence.
Qed.

(** C4, amended.  A run that constructs an engine with [seed] and calls
    [simulate_race] once gives the same outcome whatever the module-level
    generator did before ([py1], [py2]).  The ranking that a call returns
    (the records without the fastest-lap award, in their order) and the
    state in which it leaves the engine's stream depend on the context and
    on that stream only, not on the module-level generator; so two engines
    built with the same seed and then called in turn agree on the ranking,
    and the first of them returns the list of a single run.  The first of
    two calls on one engine returns the list of a single run as well. *)
Theorem run_deterministic (seed : Z) (context : SimulationContext.t)
    (rng : RandomState) (py1 py2 : py_random) :
  run seed context py1 = run seed context py2
  /\ ranking_of (simulate_race context rng py1)
     = ranking_of (simulate_race context rng py2)
  /\ (forall first second,
        run_two_engines seed context py1 = Ok (first, second) ->
        run seed context py2 = Ok first
        /\ unawarded <$> first = unawarded <$> second)
  /\ (forall first second,
        run_twice seed context py1 = Ok (first, second) ->
        run seed context py2 = Ok first).
Proof.
  split; [reflexivity |]. split; [apply simulate_race_ranking |]. split.
  - intros first second. unfold run_two_engines, run, RaceSimulator_init.
    intros H.
    apply bind_Ok in H as ([[first' rng_a] py_a] & Ha & H).
    apply bind_Ok in H as ([[second' rng_b] py_b] & Hb & [= <- <-]).
    rewrite Ha. split; [done |].
    pose proof (simulate_race_ranking context (RandomState_seed seed)
                  (random_seed seed) py_a) as Hrank.
    rewrite Ha, Hb in Hrank. cbn in Hrank. congruence.
  - intros first second. unfold run_twice, simulate_race_twice, run,
      RaceSimulator_init.
    intros H.
    apply bind_Ok in H as ([[first' rng_a] py_a] & Ha & H).
    apply bind_Ok in H as ([[second' rng_b] py_b] & Hb & [= <- <-]).
    by rewrite Ha.
Qed.

End RepeatedInvocations.

(** C4, as stated, fails: with the counter streams, an engine built with
    seed 42 and called twice on the same context of three drivers awards
    the fastest lap to driver 10 at the first call and to driver 11 at the
    second; and of two engines built with seed 42 and then called in turn,
    the second gives it to driver 11 where the first gave it to driver 10. *)
Lemma repeated_calls_differ :
  exists first second second',
    run_twice (RS := counter_source) 42
      (context_with_race_state [driver_a; driver_b; driver_without_team])
      0%nat
    = Ok (first, second)
    /\ first <> second
    /\ run_two_engines (RS := counter_source) 42
         (context_with_race_state [driver_a; driver_b; driver_without_team])
         0%nat
       = Ok (first, second')
    /\ first <> second'
    /\ RaceResult.driver_id <$> filter RaceResult.fastest_lap first = [10]
    /\ RaceResult.driver_id <$> filter RaceResult.fastest_lap second = [11]
    /\ RaceResult.driver_id <$> filter RaceResult.fastest_lap second' = [11].
Proof.
  eexists _, _, _.
  split; [vm_compute; reflexivity |]. split; [discriminate |].
  split; [vm_compute; reflexivity |]. split; [discriminate |].
  split; [reflexivity |]. split; reflexivity.
Qed.
